(** * Rapid-Minutes-Export: the client-side processing lifecycle

    A shallow embedding of the browser scripts under [static/js]:
    - [app.js]         file selection, the status-polling loop, reset;
    - [download.js]    [DownloadManager]: file name extraction, the download
                       button states, the availability check, reset;
    - [enhanced-ux.js] [EnhancedUX] notifications and [ProgressManager];
    - [preview.js]     [PreviewManager] and [ErrorHandler];
    and of the page script that reports through the error handler and the
    [ErrorManager].

    The scripts are event driven.  Each handler is a function on an explicit
    state record holding the script's variables, the part of the page it
    writes to and the browser's timer and request tables.  An [await] splits
    a handler in two: the part that runs up to the request, and the
    continuation that runs when the request settles. *)

From Stdlib Require Import ZArith QArith String Ascii List Bool Lia Btauto.
From stdpp Require Import base list gmap strings.
Import ListNotations.

Set Warnings "-register-all,-clear-no-such-hyp".

Open Scope string_scope.
Open Scope list_scope.
Open Scope Z_scope.

(** Rebuilds a record with one field changed: [eta] is the record's
    eta-expansion, [proj] the projection of the field. *)
Ltac field_update eta proj :=
  let f := fresh "f" in
  let r := fresh "r" in
  intros f r;
  let e := eval cbv beta delta [eta] in (eta r) in
  match eval pattern (proj r) in e with
  | ?g _ => exact (g (f (proj r)))
  end.

(** The values of [style.display] the scripts assign, and [DInitial] for an
    element whose display was never assigned. *)
Inductive Display := DInitial | DNone | DBlock | DInlineBlock.

(** ** JavaScript values decoded from a JSON body *)
Module JS.

(** What [response.json()] can yield, and [undefined] for a missing
    property.  Numbers are the integral ones. *)
Inductive value :=
| Undefined
| Null
| Bool (b : bool)
| Num (n : Z)
| Str (s : string)
| Arr (items : list value)
| Obj (fields : list (string * value)).

(** ToBoolean. *)
Definition truthy (v : value) : bool :=
  match v with
  | Undefined | Null => false
  | Bool b => b
  | Num n => negb (n =? 0)
  | Str s => negb (String.eqb s "")
  | Arr _ | Obj _ => true
  end.

(** The binding of [k] among an object's own properties; a later binding of
    the same key replaces an earlier one, as in [JSON.parse]. *)
Fixpoint own (k : string) (fields : list (string * value)) : value :=
  match fields with
  | [] => Undefined
  | (k', v) :: rest =>
      match own k rest with
      | Undefined => if String.eqb k' k then v else Undefined
      | later => later
      end
  end.

(** [v.k] for the property names the scripts read of a decoded body
    ([progress], [status], [error], [success], [files], [word], [pdf],
    [message], [content] and the fields of a preview), none of which a
    built-in prototype defines.  [None] is the [TypeError] of reading a
    property of [null] or [undefined]. *)
Definition get (v : value) (k : string) : option value :=
  match v with
  | Undefined | Null => None
  | Obj fields => Some (own k fields)
  | _ => Some Undefined
  end.

(** Whether an object has an own property [k]. *)
Definition has_own (k : string) (fields : list (string * value)) : bool :=
  existsb (fun p => String.eqb (fst p) k) fields.

(** Whether ToString gives a string, as a template literal, a property key
    and a text property of the page ask for.  A decoded object has one,
    through [Object.prototype.toString], unless it carries a [toString] of its
    own, which is no function: the conversion then throws a [TypeError].  An
    array prints its elements, so it has a string when they have. *)
Fixpoint printable (v : value) : bool :=
  match v with
  | Arr items => forallb printable items
  | Obj fields => negb (has_own "toString" fields)
  | _ => true
  end.

(** [a && b] and [a || b]. *)
Definition and (a b : value) : value := if truthy a then b else a.
Definition or (a b : value) : value := if truthy a then a else b.

(** [v === 'literal']. *)
Definition is_string (v : value) (literal : string) : bool :=
  match v with
  | Str s => String.eqb s literal
  | _ => false
  end.

End JS.

(** ** Strings of code units *)

(** [toLowerCase] on one code unit below 256: the ASCII capitals and the
    Latin-1 capitals move up by 32. *)
Definition lower_unit (c : ascii) : ascii :=
  let n := nat_of_ascii c in
  if ((65 <=? n) && (n <=? 90))%nat then ascii_of_nat (n + 32)
  else if ((192 <=? n) && (n <=? 222) && negb (n =? 215))%nat then ascii_of_nat (n + 32)
  else c.

Fixpoint toLowerCase (s : string) : string :=
  match s with
  | EmptyString => EmptyString
  | String c rest => String (lower_unit c) (toLowerCase rest)
  end.

(** [s.endsWith(suffix)]. *)
Definition endsWith (s suffix : string) : bool :=
  let n := String.length s in
  let m := String.length suffix in
  ((m <=? n)%nat && String.eqb (substring (n - m) m s) suffix).

(** A [null]-able identifier as a template literal prints it. *)
Definition interpolate (id : option string) : string :=
  match id with
  | Some s => s
  | None => "null"
  end.

(** ** app.js *)
Module App.

(** The [File] properties [processFile] reads. *)
Module File.
Record t := { type : string; name : string; size : Z }.
End File.

(** An element of which the script sets [style.display] and toggles
    classes. *)
Record Styled := { display : Display; classList : gset string }.

Definition set_display (d : Display) (e : Styled) : Styled :=
  {| display := d; classList := classList e |}.
Definition add_class (c : string) (e : Styled) : Styled :=
  {| display := display e; classList := classList e ∪ {[c]} |}.
Definition remove_class (c : string) (e : Styled) : Styled :=
  {| display := display e; classList := classList e ∖ {[c]} |}.

(** What [updateProgress] writes to [progressText]: the entry of its
    message table for [status.status] or, failing that, the percentage; both
    are kept as the values they are computed from. *)
Inductive ProgressText :=
| PTInitial
| PTStarting                              (* 'Starting processing...' *)
| PTStatus (status progress : JS.value).

(** What [progressFill.style.width] holds.  The script assigns it texts of
    the form [`${v}%`], and the style keeps an assigned text only if the
    browser takes it for a width.  It does for a number that is not
    negative, and does not for a negative number, for [true] and for an
    object, after which the style holds what it held before.  For a text or
    a list [v] the browser's parser decides, outside the script: the style
    then holds either the new text or what it held [before]. *)
Inductive Width :=
| WInitial                                   (* as the page has it *)
| WPercent (n : Z)                           (* [n%] *)
| WText (v : JS.value) (before : Width).     (* [`${v}%`], if that is a width *)

(** [progressFill.style.width = `${v}%`] for a [v] that has a string. *)
Definition assign_width (v : JS.value) (held : Width) : Width :=
  match v with
  | JS.Num n => if 0 <=? n then WPercent n else held
  | JS.Str _ | JS.Arr _ => WText v held
  | _ => held
  end.

(** Callbacks handed to [setTimeout]. *)
Inductive Callback := HideSuccess.

Record State := {
  (* the script's variables *)
  currentFileId : option string;
  processCheckInterval : option nat;
  selectedFile : option File.t;            (* window.selectedFile *)
  (* the browser: live interval handles, the next handle, the status
     requests awaiting a response (by URL, oldest first), pending timeouts,
     the uploads and the generation requests awaiting a response *)
  intervals : gset nat;
  nextHandle : nat;
  inFlight : list string;
  timeouts : list (nat * Callback);
  uploads : nat;
  generations : list string;
  (* the page *)
  fileInputValue : string;
  fileInfo : Styled;
  fileNameText : string;
  fileSizeText : option Z;                 (* `File size: ${formatFileSize(n)}` *)
  generateSection : Styled;
  generateButton : Styled;
  generateButtonDisabled : bool;
  generateButtonText : string;
  progressContainer : Styled;
  progressFillWidth : Width;
  progressText : ProgressText;
  downloadSection : Styled;
  downloadWord : Styled;
  downloadWordHref : option string;
  errorMessage : Styled;
  errorText : JS.value;
  successMessage : Styled;
  (* instrumentation: the messages passed to showError, oldest first *)
  errorReports : list JS.value
}.

Definition eta (s : State) : State :=
  Build_State (currentFileId s) (processCheckInterval s) (selectedFile s)
    (intervals s) (nextHandle s) (inFlight s) (timeouts s)
    (uploads s) (generations s)
    (fileInputValue s) (fileInfo s) (fileNameText s) (fileSizeText s)
    (generateSection s) (generateButton s) (generateButtonDisabled s)
    (generateButtonText s) (progressContainer s) (progressFillWidth s)
    (progressText s) (downloadSection s) (downloadWord s) (downloadWordHref s)
    (errorMessage s) (errorText s) (successMessage s) (errorReports s).

Definition on_currentFileId : (option string -> option string) -> State -> State := ltac:(field_update eta currentFileId).
Definition on_processCheckInterval : (option nat -> option nat) -> State -> State := ltac:(field_update eta processCheckInterval).
Definition on_selectedFile : (option File.t -> option File.t) -> State -> State := ltac:(field_update eta selectedFile).
Definition on_intervals : (gset nat -> gset nat) -> State -> State := ltac:(field_update eta intervals).
Definition on_nextHandle : (nat -> nat) -> State -> State := ltac:(field_update eta nextHandle).
Definition on_inFlight : (list string -> list string) -> State -> State := ltac:(field_update eta inFlight).
Definition on_timeouts : (list (nat * Callback) -> list (nat * Callback)) -> State -> State := ltac:(field_update eta timeouts).
Definition on_uploads : (nat -> nat) -> State -> State := ltac:(field_update eta uploads).
Definition on_generations : (list string -> list string) -> State -> State := ltac:(field_update eta generations).
Definition on_fileInputValue : (string -> string) -> State -> State := ltac:(field_update eta fileInputValue).
Definition on_fileInfo : (Styled -> Styled) -> State -> State := ltac:(field_update eta fileInfo).
Definition on_fileNameText : (string -> string) -> State -> State := ltac:(field_update eta fileNameText).
Definition on_fileSizeText : (option Z -> option Z) -> State -> State := ltac:(field_update eta fileSizeText).
Definition on_generateSection : (Styled -> Styled) -> State -> State := ltac:(field_update eta generateSection).
Definition on_generateButton : (Styled -> Styled) -> State -> State := ltac:(field_update eta generateButton).
Definition on_generateButtonDisabled : (bool -> bool) -> State -> State := ltac:(field_update eta generateButtonDisabled).
Definition on_generateButtonText : (string -> string) -> State -> State := ltac:(field_update eta generateButtonText).
Definition on_progressContainer : (Styled -> Styled) -> State -> State := ltac:(field_update eta progressContainer).
Definition on_progressFillWidth : (Width -> Width) -> State -> State := ltac:(field_update eta progressFillWidth).
Definition on_progressText : (ProgressText -> ProgressText) -> State -> State := ltac:(field_update eta progressText).
Definition on_downloadSection : (Styled -> Styled) -> State -> State := ltac:(field_update eta downloadSection).
Definition on_downloadWord : (Styled -> Styled) -> State -> State := ltac:(field_update eta downloadWord).
Definition on_downloadWordHref : (option string -> option string) -> State -> State := ltac:(field_update eta downloadWordHref).
Definition on_errorMessage : (Styled -> Styled) -> State -> State := ltac:(field_update eta errorMessage).
Definition on_errorText : (JS.value -> JS.value) -> State -> State := ltac:(field_update eta errorText).
Definition on_successMessage : (Styled -> Styled) -> State -> State := ltac:(field_update eta successMessage).
Definition on_errorReports : (list JS.value -> list JS.value) -> State -> State := ltac:(field_update eta errorReports).

(** Statements in sequence: [s ;> f ;> g] runs [f], then [g]. *)
Notation "s ;> f" := (f s) (at level 45, left associativity, only parsing).

Definition plain : Styled := {| display := DInitial; classList := ∅ |}.

(** The state once the script has loaded. *)
Definition loaded : State :=
  {| currentFileId := None; processCheckInterval := None; selectedFile := None;
     intervals := ∅; nextHandle := 1; inFlight := []; timeouts := [];
     uploads := 0; generations := [];
     fileInputValue := ""; fileInfo := plain; fileNameText := "";
     fileSizeText := None; generateSection := plain; generateButton := plain;
     generateButtonDisabled := false; generateButtonText := "";
     progressContainer := plain; progressFillWidth := WInitial;
     progressText := PTInitial; downloadSection := plain;
     downloadWord := plain; downloadWordHref := None; errorMessage := plain;
     errorText := JS.Undefined; successMessage := plain; errorReports := [] |}.

Definition showError (message : JS.value) (s : State) : State :=
  s ;> on_errorText (fun _ => message)
    ;> on_errorMessage (set_display DBlock)
    ;> on_errorMessage (add_class "fade-in")
    ;> on_errorReports (fun log => log ++ [message]).

Definition hideError (s : State) : State :=
  s ;> on_errorMessage (set_display DNone)
    ;> on_errorMessage (remove_class "fade-in").

Definition hideSuccess (s : State) : State :=
  s ;> on_successMessage (set_display DNone)
    ;> on_successMessage (remove_class "fade-in").

Definition showSuccess (s : State) : State :=
  s ;> on_successMessage (set_display DBlock)
    ;> on_successMessage (add_class "fade-in")
    ;> on_timeouts (fun q => q ++ [(3000%nat, HideSuccess)]).

Definition allowedTypes : list string := ["text/plain"].

(** [allowedTypes.includes(t)]. *)
Definition includes (types : list string) (t : string) : bool :=
  existsb (fun a => String.eqb a t) types.

Definition maxSize : Z := 10 * 1024 * 1024.

(** [processFile(file)].  The copy of the script that reports through the
    error handler differs in the two messages only. *)
Definition processFile (file : File.t) (s : State) : State :=
  if negb (includes allowedTypes (File.type file))
     && negb (endsWith (toLowerCase (File.name file)) ".txt")
  then showError (JS.Str "Please select a .txt text file") s
  else if File.size file >? maxSize
  then showError (JS.Str "File size cannot exceed 10MB") s
  else
    s ;> on_fileNameText (fun _ => File.name file)
      ;> on_fileSizeText (fun _ => Some (File.size file))
      ;> on_fileInfo (set_display DBlock)
      ;> on_generateSection (set_display DBlock)
      ;> on_generateSection (add_class "slide-in")
      ;> on_selectedFile (fun _ => Some file).

(** *** The status-polling loop *)

(** How one status request settles: [fetch] rejects, the response is not
    [ok], its body is not JSON, or the body decodes to a value. *)
Inductive Outcome :=
| Rejected
| NotOk
| BadJson
| Body (status : JS.value).

(** [clearInterval(h)]; clearing [null] or a dead handle does nothing. *)
Definition clearInterval (h : option nat) (s : State) : State :=
  match h with
  | Some n => on_intervals (fun live => live ∖ {[n]}) s
  | None => s
  end.

(** [if (h)] on a timer handle: [null] and [0] are falsy. *)
Definition handle_truthy (h : option nat) : bool :=
  match h with
  | Some (S _) => true
  | _ => false
  end.

Definition resetGenerateButton (s : State) : State :=
  s ;> on_generateButtonDisabled (fun _ => false)
    ;> on_generateButtonText (fun _ => "ðŸš€ Start Generate Meeting Minutes")
    ;> on_generateButton (set_display DBlock)
    ;> on_progressContainer (set_display DNone).

(** How a call ends: it returns, or it throws, with the page as it is
    then. *)
Inductive Ended :=
| Returned (s : State)
| Threw (s : State).

(** [updateProgress(status)].  It throws before anything is written when
    [status] is [null] or the progress has no string for the template
    literal, and between the two writes when [status.status] has no string to
    be the key into [statusMessages]. *)
Definition updateProgress (status : JS.value) (s : State) : Ended :=
  match JS.get status "progress", JS.get status "status" with
  | Some p, Some st =>
      let progress := JS.or p (JS.Num 0) in
      if JS.printable progress then
        let s := on_progressFillWidth (assign_width progress) s in
        if JS.printable st
        then Returned (on_progressText (fun _ => PTStatus st progress) s)
        else Threw s
      else Threw s
  | _, _ => Threw s
  end.

Definition showDownloadSection (s : State) : State :=
  s ;> on_downloadSection (set_display DBlock)
    ;> on_downloadSection (add_class "slide-in")
    ;> on_downloadWordHref (fun _ => Some ("/api/download/word/" +:+ interpolate (currentFileId s)))
    ;> on_downloadWord (set_display DInlineBlock)
    ;> showSuccess.

(** The [catch] block of the interval callback. *)
Definition statusCheckFailed (s : State) : State :=
  s ;> clearInterval (processCheckInterval s)
    ;> showError (JS.Str "Unable to get processing status")
    ;> resetGenerateButton.

(** The interval callback after its [await]s, given how the request
    settled.  It reads [processCheckInterval] and [currentFileId] as they are
    when it runs.  Whatever is thrown on the way lands in the [catch] block,
    which finds the page as it is then; so does the [TypeError] of
    [showError] for a [status.error] that has no string to be the text of the
    error box. *)
Definition statusArrived (o : Outcome) (s : State) : State :=
  match o with
  | Body status =>
      match updateProgress status s with
      | Returned s1 =>
          match JS.get status "status", JS.get status "error" with
          | Some st, Some err =>
              if JS.is_string st "completed" then
                s1 ;> clearInterval (processCheckInterval s1) ;> showDownloadSection
              else if JS.is_string st "failed" then
                let s2 := clearInterval (processCheckInterval s1) s1 in
                let message := JS.or err (JS.Str "Processing failed") in
                if JS.printable message
                then s2 ;> showError message ;> resetGenerateButton
                else statusCheckFailed s2
              else s1
          | _, _ => statusCheckFailed s1
          end
      | Threw s1 => statusCheckFailed s1
      end
  | Rejected | NotOk | BadJson => statusCheckFailed s
  end.

(** The interval callback up to its first [await]: the request goes out. *)
Definition dispatchStatus (s : State) : State :=
  on_inFlight (fun q => q ++ ["/api/status/" +:+ interpolate (currentFileId s)]) s.

Definition startProcessMonitoring (s : State) : State :=
  let s := if handle_truthy (processCheckInterval s)
           then clearInterval (processCheckInterval s) s else s in
  let h := nextHandle s in
  s ;> on_intervals (fun live => live ∪ {[h]})
    ;> on_nextHandle S
    ;> on_processCheckInterval (fun _ => Some h).

Definition showProgress (s : State) : State :=
  s ;> on_progressContainer (set_display DBlock)
    ;> on_generateButton (set_display DNone)
    ;> on_progressFillWidth (fun _ => WPercent 10)
    ;> on_progressText (fun _ => PTStarting).

(** [handleGenerate()] up to its first [await]: the upload goes out. *)
Definition handleGenerate (s : State) : State :=
  match selectedFile s with
  | None => showError (JS.Str "Please select a file first") s
  | Some _ =>
      s ;> on_generateButtonDisabled (fun _ => true)
        ;> on_generateButtonText (fun _ => "Uploading...")
        ;> on_uploads S
  end.

(** How the upload and the generation request settle: with an error thrown
    or caught, of which [message] is the [message] property, or well, the
    upload then with the [file_id] of its body, taken to be a string. *)
Inductive UploadOutcome :=
| UploadFailed (message : JS.value)
| UploadOk (file_id : string).

Inductive GenerateOutcome :=
| GenerateFailed (message : JS.value)
| GenerateOk.

(** The [catch] block of [handleGenerate]. *)
Definition generateFailed (message : JS.value) (s : State) : State :=
  s ;> showError (JS.or message (JS.Str "Processing failed, please try again"))
    ;> resetGenerateButton.

(** [handleGenerate()] from the upload's response to the generation
    request, and from the latter's response on. *)
Definition uploadArrived (o : UploadOutcome) (s : State) : State :=
  match o with
  | UploadFailed message => generateFailed message s
  | UploadOk file_id =>
      s ;> on_currentFileId (fun _ => Some file_id)
        ;> on_generations (fun q => q ++ ["/api/generate/" +:+ file_id])
  end.

Definition generateArrived (o : GenerateOutcome) (s : State) : State :=
  match o with
  | GenerateFailed message => generateFailed message s
  | GenerateOk => s ;> showProgress ;> startProcessMonitoring
  end.

Definition handleReset (s : State) : State :=
  let s := s ;> on_currentFileId (fun _ => None)
             ;> on_selectedFile (fun _ => None) in
  let s := if handle_truthy (processCheckInterval s)
           then s ;> clearInterval (processCheckInterval s)
                  ;> on_processCheckInterval (fun _ => None)
           else s in
  s ;> on_fileInputValue (fun _ => "")
    ;> on_fileInfo (set_display DNone)
    ;> on_generateSection (set_display DNone)
    ;> on_downloadSection (set_display DNone)
    ;> on_progressContainer (set_display DNone)
    ;> resetGenerateButton
    ;> hideError
    ;> hideSuccess.

(** What the browser and the user make happen. *)
Inductive Event :=
| Select (file : File.t)            (* a file is picked or dropped *)
| Generate                          (* the generate button *)
| Uploaded (o : UploadOutcome)      (* the oldest upload settles *)
| Generated (k : nat) (o : GenerateOutcome)   (* the k-th generation request settles *)
| Monitor                           (* startProcessMonitoring() *)
| Tick (h : nat)                    (* the 2000 ms interval h elapses *)
| Settle (k : nat) (o : Outcome)    (* the k-th outstanding request settles *)
| Reset                             (* the reset button *)
| Timeout (k : nat).                (* the k-th pending timeout elapses *)

Definition runCallback (c : Callback) (s : State) : State :=
  match c with
  | HideSuccess => hideSuccess s
  end.

Definition step (e : Event) (s : State) : State :=
  match e with
  | Select file => processFile file s
  | Generate => handleGenerate s
  | Uploaded o =>
      match uploads s with
      | S n => s ;> on_uploads (fun _ => n) ;> uploadArrived o
      | O => s
      end
  | Generated k o =>
      match generations s !! k with
      | Some _ => s ;> on_generations (delete k) ;> generateArrived o
      | None => s
      end
  | Monitor => startProcessMonitoring s
  | Tick h => if bool_decide (h ∈ intervals s) then dispatchStatus s else s
  | Settle k o =>
      match inFlight s !! k with
      | Some _ => s ;> on_inFlight (delete k) ;> statusArrived o
      | None => s
      end
  | Reset => handleReset s
  | Timeout k =>
      match timeouts s !! k with
      | Some (_, c) => s ;> on_timeouts (delete k) ;> runCallback c
      | None => s
      end
  end.

Definition run (events : list Event) (s : State) : State :=
  fold_left (fun acc e => step e acc) events s.

(** The loop started by [startProcessMonitoring] is running: the handle in
    [processCheckInterval] is live. *)
Definition polling (s : State) : bool :=
  match processCheckInterval s with
  | Some h => bool_decide (h ∈ intervals s)
  | None => false
  end.

(** *** Vocabulary of the properties *)

(** A file [processFile] turns away: neither a plain-text type nor a [.txt]
    name, or more than 10 MiB. *)
Definition turned_away (file : File.t) : bool :=
  (negb (String.eqb (File.type file) "text/plain")
   && negb (endsWith (toLowerCase (File.name file)) ".txt"))
  || (File.size file >? 10 * 1024 * 1024).

(** Nothing of a selection is stored or revealed. *)
Definition selection_untouched (s s' : State) : Prop :=
  selectedFile s' = selectedFile s
  /\ generateSection s' = generateSection s
  /\ fileInfo s' = fileInfo s
  /\ fileNameText s' = fileNameText s
  /\ fileSizeText s' = fileSizeText s.

Definition emptyTranscript : File.t :=
  {| File.type := "text/plain"; File.name := "transcript.txt"; File.size := 0 |}.

(** The outcomes after which the interval callback leaves the interval
    alone: a decoded body that [updateProgress] can show, its progress and
    its [status] having a string, and whose [status] is neither
    ['completed'] nor ['failed']. *)
Definition keeps_polling (o : Outcome) : bool :=
  match o with
  | Body status =>
      match JS.get status "progress", JS.get status "status" with
      | Some p, Some st =>
          JS.printable (JS.or p (JS.Num 0)) && JS.printable st
          && negb (JS.is_string st "completed") && negb (JS.is_string st "failed")
      | _, _ => false
      end
  | Rejected | NotOk | BadJson => false
  end.

(** A transport-level failure of a poll. *)
Definition transport_failure (o : Outcome) : bool :=
  match o with
  | Rejected | NotOk => true
  | BadJson | Body _ => false
  end.

(** The events that end a running loop in state [s]. *)
Definition ends_loop (e : Event) (s : State) : Prop :=
  e = Reset
  \/ exists k o, e = Settle k o /\ (k < length (inFlight s))%nat /\ keeps_polling o = false.

(** Timer handles are positive, as the browser hands them out. *)
Definition handles_positive (s : State) : Prop :=
  (1 <= nextHandle s)%nat /\ processCheckInterval s <> Some O.

(** A 5 KB transcript, and the session that selected it, uploaded it as
    [abc123], had the generation accepted and has its first poll out. *)
Definition transcript : File.t :=
  {| File.type := "text/plain"; File.name := "meeting.txt"; File.size := 5120 |}.

Definition monitoring : State :=
  run [Select transcript; Generate; Uploaded (UploadOk "abc123"); Generated 0 GenerateOk;
       Tick 1%nat] loaded.


Definition completed100 : JS.value :=
  JS.Obj [("status", JS.Str "completed"); ("progress", JS.Num 100)].

(** A status still processing whose progress has no string: it carries a
    [toString] of its own. *)
Definition progressWithoutString : JS.value :=
  JS.Obj [("status", JS.Str "processing");
          ("progress", JS.Obj [("toString", JS.Num 1)])].

(** At most one interval is live, and [processCheckInterval] holds it. *)
Definition one_interval (s : State) : Prop :=
  forall h, h ∈ intervals s -> processCheckInterval s = Some h.

(** The file held for upload passed the checks of [processFile]. *)
Definition selected_checked (s : State) : Prop :=
  forall file, selectedFile s = Some file -> turned_away file = false.

(** The generation request [k] of [s] accepted after [s] was reset. *)
Definition acceptedAfterReset (k : nat) (s : State) : State :=
  step (Generated k GenerateOk) (step Reset s).

(** The session that selected the transcript and nothing else, and the
    monitoring session before its first tick. *)
Definition selected : State := run [Select transcript] loaded.

Definition generating : State :=
  run [Select transcript; Generate; Uploaded (UploadOk "abc123")] loaded.

End App.

(** ** download.js: [DownloadManager] *)
Module Download.

(** A header value or file name, as its code units; a response header
    holds none above 255. *)
Definition units := list ascii.

Definition lit (s : string) : units := list_ascii_of_string s.

Definition dquote : ascii := "034"%char.
Definition squote : ascii := "'"%char.
Definition newline : ascii := "010"%char.
Definition creturn : ascii := "013"%char.

(** The character classes of the pattern in [extractFilename]: a quote
    (single or double), [^;=\n], [^;\n] and the dot, which stops at a line
    terminator. *)
Definition is_quote (c : ascii) : bool :=
  Ascii.eqb c squote || Ascii.eqb c dquote.
Definition key_unit (c : ascii) : bool :=
  negb (Ascii.eqb c ";" || Ascii.eqb c "=" || Ascii.eqb c newline).
Definition bare_unit (c : ascii) : bool :=
  negb (Ascii.eqb c ";" || Ascii.eqb c newline).
Definition dot (c : ascii) : bool :=
  negb (Ascii.eqb c newline || Ascii.eqb c creturn).

(** [s] begins with [p]: what follows [p]. *)
Fixpoint after_prefix (p s : units) : option units :=
  match p, s with
  | [], _ => Some s
  | a :: p', b :: s' => if Ascii.eqb a b then after_prefix p' s' else None
  | _ :: _, [] => None
  end.

(** [s.includes(p)]. *)
Fixpoint includes (p s : units) : bool :=
  match after_prefix p s with
  | Some _ => true
  | None =>
      match s with
      | [] => false
      | _ :: s' => includes p s'
      end
  end.

(** The longest prefix of units in a class, and what follows it. *)
Fixpoint while (class : ascii -> bool) (s : units) : units :=
  match s with
  | c :: s' => if class c then c :: while class s' else []
  | [] => []
  end.

Fixpoint past (class : ascii -> bool) (s : units) : units :=
  match s with
  | c :: s' => if class c then past class s' else s
  | [] => []
  end.

(** The lazy [.*?\2] after the opening quote [q]: the units up to the first [q],
    provided no line terminator comes before it. *)
Fixpoint quoted_body (q : ascii) (s : units) : option units :=
  match s with
  | [] => None
  | c :: s' =>
      if Ascii.eqb c q then Some []
      else if dot c then option_map (cons c) (quoted_body q s')
      else None
  end.

(** Group 1 matched at the head of [s]: first alternative, a quoted string
    (opening quote, lazy body, the same quote again), kept with its quotes;
    second alternative [[^;\n]*], the longest run up to [;] or a newline. *)
Definition group1 (s : units) : units :=
  match s with
  | q :: s' =>
      if is_quote q then
        match quoted_body q s' with
        | Some body => q :: body ++ [q]
        | None => while bare_unit s
        end
      else while bare_unit s
  | [] => []
  end.

(** The whole pattern, [filename[^;=\n]*=] then group 1, matched at the head of
    [s]: group 1.  The run [[^;=\n]*] cannot give back units to let [=]
    match, as it holds no [=]. *)
Definition match_here (s : units) : option units :=
  match after_prefix (lit "filename") s with
  | Some r =>
      match past key_unit r with
      | c :: v => if Ascii.eqb c "=" then Some (group1 v) else None
      | [] => None
      end
  | None => None
  end.

(** [s.match(pattern)]: the leftmost match; its group 1. *)
Fixpoint match_pattern (s : units) : option units :=
  match match_here s with
  | Some g => Some g
  | None =>
      match s with
      | [] => None
      | _ :: s' => match_pattern s'
      end
  end.

(** [g.replace(..., '')] with the global pattern for one quote: every
    quote is dropped. *)
Definition strip_quotes (g : units) : units :=
  List.filter (fun c => negb (is_quote c)) g.

(** The generated name; [now] is [new Date().toISOString()]. *)
Definition defaultFilename (now : units) (fileType : string) : units :=
  let timestamp := while (fun c => negb (Ascii.eqb c "T")) now in
  let extension := if String.eqb fileType "word" then lit "docx" else lit "pdf" in
  lit "meeting_minutes_" ++ timestamp ++ lit "." ++ extension.

(** [extractFilename(contentDisposition, fileType)]; a missing header is
    [None]. *)
Definition extractFilename (now : units) (contentDisposition : option units)
    (fileType : string) : units :=
  match contentDisposition with
  | Some h =>
      if includes (lit "filename=") h then
        match match_pattern h with
        | Some (c :: g) => strip_quotes (c :: g)
        | _ => defaultFilename now fileType
        end
      else defaultFilename now fileType
  | None => defaultFilename now fileType
  end.

(** *** The download buttons *)

(** The texts the manager writes to a button, by the file type they are
    built from. *)
Inductive Label :=
| LMarkup                         (* as the page has it *)
| LDownloading (fileType : string)
| LDownloaded (fileType : string)
| LFailed (fileType : string)
| LWord
| LPdf.

Record Button := { classList : gset string; textContent : Label; disabled : bool }.

(** The texts of the message element. *)
Inductive Notice :=
| NoProcessId
| Downloaded (fileType : string)
| DownloadFailed (fileType : string).

Record MessageElement := { className : string; notice : Notice; shown : Display }.

Inductive Callback :=
| ResetButton (fileType : string)
| HideMessage.

Record Manager := {
  downloadSection : option Display;      (* None: the page has no such element *)
  downloadWordBtn : option Button;
  downloadPdfBtn : option Button;
  currentProcessId : option string;
  downloadMessage : option MessageElement;
  (* the browser: downloads awaiting a response (file type and URL, oldest
     first) and pending timeouts *)
  requests : list (string * string);
  timeouts : list (nat * Callback);
  (* instrumentation: the names handed to triggerDownload, oldest first *)
  saved : list units
}.

Definition eta (m : Manager) : Manager :=
  Build_Manager (downloadSection m) (downloadWordBtn m) (downloadPdfBtn m)
    (currentProcessId m) (downloadMessage m) (requests m) (timeouts m) (saved m).

Definition on_downloadSection : (option Display -> option Display) -> Manager -> Manager := ltac:(field_update eta downloadSection).
Definition on_downloadWordBtn : (option Button -> option Button) -> Manager -> Manager := ltac:(field_update eta downloadWordBtn).
Definition on_downloadPdfBtn : (option Button -> option Button) -> Manager -> Manager := ltac:(field_update eta downloadPdfBtn).
Definition on_currentProcessId : (option string -> option string) -> Manager -> Manager := ltac:(field_update eta currentProcessId).
Definition on_downloadMessage : (option MessageElement -> option MessageElement) -> Manager -> Manager := ltac:(field_update eta downloadMessage).
Definition on_requests : (list (string * string) -> list (string * string)) -> Manager -> Manager := ltac:(field_update eta requests).
Definition on_timeouts : (list (nat * Callback) -> list (nat * Callback)) -> Manager -> Manager := ltac:(field_update eta timeouts).
Definition on_saved : (list units -> list units) -> Manager -> Manager := ltac:(field_update eta saved).

Notation "m ;> f" := (f m) (at level 45, left associativity, only parsing).

(** The button a file type selects: the Word button for ['word'], the PDF
    button for anything else. *)
Definition button (fileType : string) (m : Manager) : option Button :=
  if String.eqb fileType "word" then downloadWordBtn m else downloadPdfBtn m.

Definition on_button (fileType : string) : (option Button -> option Button) -> Manager -> Manager :=
  if String.eqb fileType "word" then on_downloadWordBtn else on_downloadPdfBtn.

Definition setDownloadButtonState (fileType state : string) (m : Manager) : Manager :=
  match button fileType m with
  | None => m
  | Some b =>
      let classes := classList b ∖ {["downloading"]} ∖ {["completed"]} ∖ {["error"]} in
      if String.eqb state "downloading" then
        m ;> on_button fileType (fun _ => Some
               {| classList := classes ∪ {["downloading"]};
                  textContent := LDownloading fileType; disabled := true |})
      else if String.eqb state "completed" then
        m ;> on_button fileType (fun _ => Some
               {| classList := classes ∪ {["completed"]};
                  textContent := LDownloaded fileType; disabled := false |})
          ;> on_timeouts (fun q => q ++ [(3000%nat, ResetButton fileType)])
      else if String.eqb state "error" then
        m ;> on_button fileType (fun _ => Some
               {| classList := classes ∪ {["error"]};
                  textContent := LFailed fileType; disabled := false |})
          ;> on_timeouts (fun q => q ++ [(5000%nat, ResetButton fileType)])
      else
        m ;> on_button fileType (fun _ => Some
               {| classList := classes;
                  textContent := if String.eqb fileType "word" then LWord else LPdf;
                  disabled := false |})
  end.

Definition resetDownloadButton (fileType : string) (m : Manager) : Manager :=
  setDownloadButtonState fileType "normal" m.

(** [showMessage(message, type)]; [None] is the [TypeError] of appending the
    new message element to a download section the page does not have. *)
Definition showMessage (message : Notice) (type : string) (m : Manager) : option Manager :=
  match downloadMessage m, downloadSection m with
  | None, None => None
  | _, _ =>
      Some (m ;> on_downloadMessage (fun _ => Some
                   {| className := "download-message " +:+ type;
                      notice := message; shown := DBlock |})
              ;> on_timeouts (fun q => q ++ [(5000%nat, HideMessage)]))
  end.

(** A call whose exception nothing catches: the state stays as it was when
    the exception was raised. *)
Definition uncaught (m : Manager) (r : option Manager) : Manager :=
  match r with
  | Some m' => m'
  | None => m
  end.

Definition showError (message : Notice) (m : Manager) : Manager :=
  uncaught m (showMessage message "error" m).

(** [if (!id)] on the process id: [null] and the empty string are falsy. *)
Definition id_truthy (id : option string) : bool :=
  match id with
  | Some s => negb (String.eqb s "")
  | None => false
  end.

(** [downloadFile(fileType)] up to its first [await]. *)
Definition downloadFile (fileType : string) (m : Manager) : Manager :=
  if negb (id_truthy (currentProcessId m))
  then showError NoProcessId m
  else
    m ;> setDownloadButtonState fileType "downloading"
      ;> on_requests (fun q => q ++
           [(fileType, "/api/download/" +:+ interpolate (currentProcessId m) +:+ "/" +:+ fileType)]).

(** How a download request settles: [fetch] rejects, the response is not
    [ok], or it is [ok] with its [Content-Disposition] header and a body that
    [blob()] reads or fails to read. *)
Inductive Response :=
| Rejected
| NotOk
| Ok (contentDisposition : option units) (blobRead : bool).

Definition triggerDownload (filename : units) (m : Manager) : Manager :=
  on_saved (fun l => l ++ [filename]) m.

(** [downloadFile(fileType)] after its [await]s; [now] is the clock as
    [extractFilename] reads it. *)
Definition downloadSettled (now : units) (fileType : string) (r : Response) (m : Manager) : Manager :=
  match r with
  | Ok contentDisposition true =>
      let m := m ;> triggerDownload (extractFilename now contentDisposition fileType)
                 ;> setDownloadButtonState fileType "completed" in
      match showMessage (Downloaded fileType) "success" m with
      | Some m' => m'
      | None =>                    (* thrown inside the try: the catch runs *)
          m ;> setDownloadButtonState fileType "error"
            ;> showError (DownloadFailed fileType)
      end
  | _ =>
      m ;> setDownloadButtonState fileType "error"
        ;> showError (DownloadFailed fileType)
  end.

Definition hideDownloadSection (m : Manager) : Manager :=
  on_downloadSection (option_map (fun _ => DNone)) m.

Definition reset (m : Manager) : Manager :=
  m ;> on_currentProcessId (fun _ => None)
    ;> hideDownloadSection
    ;> resetDownloadButton "word"
    ;> resetDownloadButton "pdf"
    ;> on_downloadMessage (option_map (fun e =>
         {| className := className e; notice := notice e; shown := DNone |})).

Definition runCallback (c : Callback) (m : Manager) : Manager :=
  match c with
  | ResetButton fileType => resetDownloadButton fileType m
  | HideMessage =>
      on_downloadMessage (option_map (fun e =>
        {| className := className e; notice := notice e; shown := DNone |})) m
  end.

Inductive Event :=
| Download (fileType : string)                         (* downloadFile(fileType) *)
| Settle (k : nat) (now : units) (r : Response)        (* the k-th request settles *)
| Timeout (k : nat)                                    (* the k-th timeout elapses *)
| ResetManager.                                        (* reset() *)

Definition step (e : Event) (m : Manager) : Manager :=
  match e with
  | Download fileType => downloadFile fileType m
  | Settle k now r =>
      match requests m !! k with
      | Some (fileType, _) => m ;> on_requests (delete k) ;> downloadSettled now fileType r
      | None => m
      end
  | Timeout k =>
      match timeouts m !! k with
      | Some (_, c) => m ;> on_timeouts (delete k) ;> runCallback c
      | None => m
      end
  | ResetManager => reset m
  end.

Definition run (events : list Event) (m : Manager) : Manager :=
  fold_left (fun acc e => step e acc) events m.

(** The phase a button shows, read off its classes. *)
Inductive Phase := Idle | InFlight | Completed | Error.

Definition phase (b : Button) : Phase :=
  if bool_decide ("downloading" ∈ classList b) then InFlight
  else if bool_decide ("completed" ∈ classList b) then Completed
  else if bool_decide ("error" ∈ classList b) then Error
  else Idle.

(** The manager of a page with both buttons and the download section,
    once [initializeDownloads(id)] has run. *)
Definition initialized (id : string) : Manager :=
  {| downloadSection := Some DBlock;
     downloadWordBtn := Some {| classList := ∅; textContent := LMarkup; disabled := false |};
     downloadPdfBtn := Some {| classList := ∅; textContent := LMarkup; disabled := false |};
     currentProcessId := Some id; downloadMessage := None;
     requests := []; timeouts := []; saved := [] |}.

(** *** The availability check *)

(** How the availability request settles. *)
Inductive StatusResponse :=
| Unreachable                    (* fetch rejects *)
| Undecodable                    (* response.json() rejects *)
| Decoded (data : JS.value).

Record DownloadStatus := {
  success : JS.value;
  wordReady : JS.value;
  pdfReady : JS.value;
  message : JS.value
}.

(** What an [async] function does in the end. *)
Inductive Completion (A : Type) :=
| Returned (a : A)
| Thrown.
Arguments Returned {A} a.
Arguments Thrown {A}.

(** [data.files && data.files[k]]; [None] if a property read throws. *)
Definition ready (data : JS.value) (k : string) : option JS.value :=
  match JS.get data "files" with
  | Some files => if JS.truthy files then JS.get files k else Some files
  | None => None
  end.

(** The [try] block of [checkDownloadStatus]; [None] when it throws. *)
Definition tryCheck (r : StatusResponse) : option DownloadStatus :=
  match r with
  | Decoded data =>
      match JS.get data "success", ready data "word", ready data "pdf", JS.get data "message" with
      | Some s, Some w, Some p, Some msg =>
          Some {| success := s; wordReady := w; pdfReady := p; message := msg |}
      | _, _, _, _ => None
      end
  | Unreachable | Undecodable => None
  end.

Definition checkFailed : DownloadStatus :=
  {| success := JS.Bool false; wordReady := JS.Bool false; pdfReady := JS.Bool false;
     message := JS.Str "Failed to check download status" |}.

Definition checkDownloadStatus (r : StatusResponse) : Completion DownloadStatus :=
  match tryCheck r with
  | Some status => Returned status
  | None => Returned checkFailed
  end.

(** *** Vocabulary of the properties *)

(** [p] starts at no position of [pre] within [pre ++ rest]. *)
Fixpoint absent_before (p pre rest : units) : bool :=
  match pre with
  | [] => true
  | _ :: pre' =>
      match after_prefix p (pre ++ rest) with
      | Some _ => false
      | None => absent_before p pre' rest
      end
  end.








Definition exampleNow : units := lit "2024-05-06T07:08:09.000Z".

(** A download of the Word file under way. *)
Definition downloading : Manager := downloadFile "word" (initialized "p1").

(** The URL [downloadFile] requests. *)
Definition downloadUrl (fileType : string) (m : Manager) : string :=
  "/api/download/" +:+ interpolate (currentProcessId m) +:+ "/" +:+ fileType.

(** A button as the default case of [setDownloadButtonState] leaves it, and
    a message element once hidden. *)
Definition normal (fileType : string) (b : Button) : Button :=
  {| classList := classList b ∖ {["downloading"]} ∖ {["completed"]} ∖ {["error"]};
     textContent := if String.eqb fileType "word" then LWord else LPdf;
     disabled := false |}.

Definition hidden (e : MessageElement) : MessageElement :=
  {| className := className e; notice := notice e; shown := DNone |}.

(** ToBoolean of a property read that is [undefined] where it cannot be
    made. *)
Definition truthy_read (v : option JS.value) : bool :=
  match v with
  | Some x => JS.truthy x
  | None => false
  end.

(** [files && files[k]] for a [files] that was read: the value itself, not
    its truthiness. *)
Definition raw_ready (files : JS.value) (k : string) : JS.value :=
  if JS.truthy files
  then match JS.get files k with
       | Some v => v
       | None => JS.Undefined
       end
  else files.

(** A body whose [files.word] is the number 1. *)
Definition wordOne : JS.value :=
  JS.Obj [("success", JS.Bool true);
          ("files", JS.Obj [("word", JS.Num 1)])].

(** A body reporting the Word file ready and the PDF not. *)
Definition wordOnly : JS.value :=
  JS.Obj [("success", JS.Bool true);
          ("files", JS.Obj [("word", JS.Bool true); ("pdf", JS.Bool false)])].

(** *** The rest of the manager *)

Definition showDownloadSection (m : Manager) : Manager :=
  on_downloadSection (option_map (fun _ => DBlock)) m.


(** [button.disabled = !ready; button.classList.toggle('unavailable', !ready)]. *)
Definition mark_availability (ready : JS.value) (b : Button) : Button :=
  {| classList := if negb (JS.truthy ready)
                  then classList b ∪ {["unavailable"]}
                  else classList b ∖ {["unavailable"]};
     textContent := textContent b;
     disabled := negb (JS.truthy ready) |}.

Definition updateDownloadAvailability (status : DownloadStatus) (m : Manager) : Manager :=
  m ;> on_downloadWordBtn (option_map (mark_availability (wordReady status)))
    ;> on_downloadPdfBtn (option_map (mark_availability (pdfReady status))).

(** The readiness [updateDownloadAvailability] reads for a file type. *)
Definition readiness (fileType : string) (status : DownloadStatus) : JS.value :=
  if String.eqb fileType "word" then wordReady status else pdfReady status.

(** No unit of a name is a quote or a newline. *)
Definition clean_name (name : units) : bool :=
  forallb (fun c => negb (is_quote c) && negb (Ascii.eqb c newline)) name.

(** The manager reset while the Word download is under way, and the
    download settling afterwards with a file that carries no name. *)
Definition resetWhileDownloading : Manager := reset downloading.

Definition settledAfterReset : Manager :=
  step (Settle 0 exampleNow (Ok None true)) resetWhileDownloading.

(** The manager reset after its availability check failed. *)
Definition resetWhileUnavailable : Manager :=
  reset (updateDownloadAvailability checkFailed (initialized "p1")).

End Download.

(** ** enhanced-ux.js: [EnhancedUX] notifications *)
Module UX.

(** A notification element: the node it is, its [data-id], the kind in its
    class name and whether it carries the class [show]. *)
Record Element := { node : nat; dataId : Z; kind : string; show : bool }.

(** An entry of [this.notifications]. *)
Record Entry := { id : Z; element : nat; type : string }.

Inductive Callback :=
| AddShow (n : nat)             (* notification.classList.add('show') *)
| Hide (id : Z)                 (* this.hideNotification(id) *)
| Remove (n : nat) (id : Z).    (* notification.remove(), then the filter *)

Record State := {
  notifications : list Entry;
  currentStep : nat;
  container : list Element;     (* the children of #notification-container *)
  nextNode : nat;
  timeouts : list (nat * Callback)
}.

Definition started : State :=
  {| notifications := []; currentStep := 1; container := []; nextNode := 0; timeouts := [] |}.

(** [showNotification(type, title, message, actions)]; [now] is what
    [Date.now()] reads, and its decimal string is the id.  Title, message and
    actions only fill the markup of the element. *)
Definition showNotification (now : Z) (type : string) (u : State) : State * Z :=
  let n := nextNode u in
  let id := now in
  let shown := (10%nat, AddShow n) in
  let dismissal := if negb (String.eqb type "error") then [(5000%nat, Hide id)] else [] in
  ({| notifications := notifications u ++ [{| id := id; element := n; type := type |}];
      currentStep := currentStep u;
      container := container u ++ [{| node := n; dataId := id; kind := type; show := false |}];
      nextNode := S n;
      timeouts := timeouts u ++ [shown] ++ dismissal |}, id).

(** [document.querySelector] for a [data-id]: the first such element in
    document order. *)
Definition querySelector (id : Z) (u : State) : option Element :=
  find (fun e => dataId e =? id) (container u).

Definition set_show (n : nat) (b : bool) (l : list Element) : list Element :=
  map (fun e => if (node e =? n)%nat
                then {| node := node e; dataId := dataId e; kind := kind e; show := b |}
                else e) l.

Definition hideNotification (id : Z) (u : State) : State :=
  match querySelector id u with
  | Some e =>
      {| notifications := notifications u; currentStep := currentStep u;
         container := set_show (node e) false (container u);
         nextNode := nextNode u;
         timeouts := timeouts u ++ [(300%nat, Remove (node e) id)] |}
  | None => u
  end.

Definition runCallback (c : Callback) (u : State) : State :=
  match c with
  | AddShow n =>
      {| notifications := notifications u; currentStep := currentStep u;
         container := set_show n true (container u);
         nextNode := nextNode u; timeouts := timeouts u |}
  | Hide i => hideNotification i u
  | Remove n i =>
      {| notifications := List.filter (fun x => negb (id x =? i)) (notifications u);
         currentStep := currentStep u;
         container := List.filter (fun e => negb (node e =? n)%nat) (container u);
         nextNode := nextNode u; timeouts := timeouts u |}
  end.

(** The Escape key: every entry of [this.notifications] is hidden. *)
Definition escapePressed (u : State) : State :=
  fold_left (fun acc x => hideNotification (id x) acc) (notifications u) u.

(** [updateProgress(step, description)], as far as the state goes. *)
Definition updateProgress (step : nat) (u : State) : State :=
  {| notifications := notifications u; currentStep := step;
     container := container u; nextNode := nextNode u; timeouts := timeouts u |}.

(** [validateFileWithFeedback(file)]: three checks, one notification each;
    [t1], [t2], [t3] are the successive readings of the clock. *)
Definition validateFileWithFeedback (t1 t2 t3 : Z) (file : App.File.t) (u : State) : State * bool :=
  let typeOk := String.eqb (App.File.type file) "text/plain"
                || endsWith (toLowerCase (App.File.name file)) ".txt" in
  let sizeOk := App.File.size file <=? 10 * 1024 * 1024 in
  let nonEmpty := App.File.size file >? 0 in
  let u := fst (showNotification t1 (if typeOk then "success" else "error") u) in
  let u := fst (showNotification t2 (if sizeOk then "success" else "error") u) in
  let u := fst (showNotification t3 (if nonEmpty then "success" else "error") u) in
  let allValid := typeOk && sizeOk && nonEmpty in
  (if allValid then updateProgress 2 u else u, allValid).

Inductive Event :=
| Show (now : Z) (type : string)          (* showNotification *)
| Validate (t1 t2 t3 : Z) (file : App.File.t)
| Close (id : Z)                          (* the close button, or a dismiss call *)
| Escape
| Timeout (k : nat).                      (* the k-th pending timeout elapses *)

Definition step (e : Event) (u : State) : State :=
  match e with
  | Show now type => fst (showNotification now type u)
  | Validate t1 t2 t3 file => fst (validateFileWithFeedback t1 t2 t3 file u)
  | Close id => hideNotification id u
  | Escape => escapePressed u
  | Timeout k =>
      match timeouts u !! k with
      | Some (_, c) =>
          runCallback c
            {| notifications := notifications u; currentStep := currentStep u;
               container := container u; nextNode := nextNode u;
               timeouts := delete k (timeouts u) |}
      | None => u
      end
  end.

Definition run (events : list Event) (u : State) : State :=
  fold_left (fun acc e => step e acc) events u.

(** *** Vocabulary of the properties *)

(** The kinds of the notifications on the page, in document order. *)
Definition onPage (u : State) : list string := map kind (container u).

(** A small file of the wrong type, and the page after its three checks
    have run within one millisecond. *)
Definition notesPdf : App.File.t :=
  {| App.File.type := "application/pdf"; App.File.name := "notes.pdf"; App.File.size := 5120 |}.

Definition validated : State :=
  fst (validateFileWithFeedback 1000 1000 1000 notesPdf started).

(** The timeouts of [validated] coming due in the order of their delays:
    the three 10 ms ones, the two 5000 ms ones, and the two 300 ms ones the
    latter set up. *)
Definition timeoutsDue : list Event :=
  [Timeout 0; Timeout 0; Timeout 1; Timeout 0; Timeout 0; Timeout 0; Timeout 0].

(** The error notifications on the page. *)
Definition is_error (e : Element) : bool := String.eqb (kind e) "error".

Definition errorsOnPage (u : State) : list Element := List.filter is_error (container u).





(** The checks of [validateFileWithFeedback] that a file fails. *)
Definition failedChecks (file : App.File.t) : nat :=
  (if String.eqb (App.File.type file) "text/plain"
      || endsWith (toLowerCase (App.File.name file)) ".txt" then 0 else 1)
  + (if App.File.size file <=? 10 * 1024 * 1024 then 0 else 1)
  + (if App.File.size file >? 0 then 0 else 1).

(** What [handleEnterKey] clicks. *)
Inductive Click := ClickFileInput | ClickGenerate | NoClick.

(** [handleEnterKey()]; [fileInput] tells whether the page has the file
    input, [generateButton] whether it has the generate button and, if so,
    whether that is disabled. *)
Definition handleEnterKey (fileInput : bool) (generateButton : option bool) (u : State) : Click :=
  if (currentStep u =? 1)%nat then
    if fileInput then ClickFileInput else NoClick
  else if (currentStep u =? 2)%nat then
    match generateButton with
    | Some disabled => if negb disabled then ClickGenerate else NoClick
    | None => NoClick
    end
  else NoClick.

(** A file that passes the three checks of [validateFileWithFeedback]. *)
Definition passes (file : App.File.t) : bool :=
  (String.eqb (App.File.type file) "text/plain"
   || endsWith (toLowerCase (App.File.name file)) ".txt")
  && (App.File.size file <=? 10 * 1024 * 1024)
  && (App.File.size file >? 0).

(** Whether a run validates a file that passes. *)
Definition validatedOne (events : list Event) : bool :=
  existsb (fun e => match e with Validate _ _ _ file => passes file | _ => false end) events.

(** The node and the id of every element of a container, in order. *)
Definition keys (l : list Element) : list (nat * Z) :=
  map (fun e => (node e, dataId e)) l.

(** A page on which [this.notifications] lists the elements of the
    container in order, each under its own id. *)
Definition paired (u : State) : Prop :=
  map (fun x => (element x, id x)) (notifications u) = keys (container u)
  /\ NoDup (map dataId (container u)).

(** The removals that [escapePressed] schedules on a paired page. *)
Definition removals (u : State) : list (nat * Callback) :=
  map (fun e => (300%nat, Remove (node e) (dataId e))) (container u).

(** Three notifications shown at successive milliseconds. *)
Definition threeShown : State :=
  run [Show 1000 "error"; Show 1001 "success"; Show 1002 "error"] started.

End UX.

(** ** enhanced-ux.js: [ProgressManager] *)
Module Progress.

(** Numbers as [Math.min] and the comparisons take them: not a number, the
    two infinities and the finite ones. *)
Inductive number :=
| NaN
| NegInf
| PosInf
| Fin (q : Q).

(** [Math.min(n, 100)]. *)
Definition min100 (n : number) : number :=
  match n with
  | NaN => NaN
  | NegInf => NegInf
  | PosInf => Fin 100
  | Fin q => if Qle_bool q 100 then Fin q else Fin 100
  end.

(** [n >= 100]. *)
Definition ge100 (n : number) : bool :=
  match n with
  | PosInf => true
  | Fin q => Qle_bool 100 q
  | NaN | NegInf => false
  end.

(** ToNumber of a decoded value.  For a string, and for a list through the
    string it prints as, the language's conversion of strings decides, outside
    the script: [text] is the number it gives, and is not looked at
    otherwise.  [None] is the [TypeError] of a value that has no string. *)
Definition ToNumber (text : number) (v : JS.value) : option number :=
  match v with
  | JS.Undefined => Some NaN
  | JS.Null => Some (Fin 0)
  | JS.Bool b => Some (Fin (if b then 1 else 0))
  | JS.Num n => Some (Fin (inject_Z n))
  | JS.Str _ => Some text
  | JS.Arr _ => if JS.printable v then Some text else None
  | JS.Obj fields => if JS.has_own "toString" fields then None else Some NaN
  end.

(** The message argument of [updateProgress]: a value as it comes, or the
    string [errorProgress] builds by putting its cross mark in front of one
    that has a string. *)
Inductive Message :=
| Plain (v : JS.value)
| Crossed (v : JS.value).

Definition message_truthy (m : Message) : bool :=
  match m with
  | Plain v => JS.truthy v
  | Crossed _ => true
  end.

(** Whether [textContent] takes the message: it converts it to a string. *)
Definition message_printable (m : Message) : bool :=
  match m with
  | Plain v => JS.printable v
  | Crossed _ => true
  end.

(** The text of [progressText]. *)
Inductive Text :=
| Markup
| Empty
| Said (m : Message)
| Percent (p : number).                (* `Processing... ${p}%` *)

(** The style of the bar; [None] is a property never assigned. *)
Record Fill := { width : option number; backgroundColor : option string }.

(** [style.width = n + '%'].  The style keeps an assigned text only if it is
    a width, which the percentage of a finite number that is not negative is,
    and that of a negative number, of an infinity or of [NaN] is not: the
    style then holds what it held before. *)
Definition assign_width (n : number) (f : Fill) : Fill :=
  match n with
  | Fin q =>
      if Qle_bool 0 q
      then {| width := Some n; backgroundColor := backgroundColor f |}
      else f
  | NaN | NegInf | PosInf => f
  end.

(** How a progress request settles: [fetch] or [json()] rejects, or the
    body decodes to [data]; [text] is what the language's conversion of
    strings makes of [data.progress], for [ToNumber]. *)
Inductive Outcome :=
| Failed
| Got (data : JS.value) (text : number).

Record Manager := {
  progressContainer : option Display;    (* None: no such element *)
  progressFill : option Fill;
  progressText : option Text;
  currentProgress : number;
  updateInterval : option nat;
  (* the browser *)
  intervals : gset nat;
  nextHandle : nat;
  inFlight : list string;                (* process ids of outstanding requests *)
  hideTimeouts : nat                     (* pending 2000 ms hideProgress timeouts *)
}.

Definition eta (m : Manager) : Manager :=
  Build_Manager (progressContainer m) (progressFill m) (progressText m)
    (currentProgress m) (updateInterval m) (intervals m) (nextHandle m)
    (inFlight m) (hideTimeouts m).

Definition on_progressContainer : (option Display -> option Display) -> Manager -> Manager := ltac:(field_update eta progressContainer).
Definition on_progressFill : (option Fill -> option Fill) -> Manager -> Manager := ltac:(field_update eta progressFill).
Definition on_progressText : (option Text -> option Text) -> Manager -> Manager := ltac:(field_update eta progressText).
Definition on_currentProgress : (number -> number) -> Manager -> Manager := ltac:(field_update eta currentProgress).
Definition on_updateInterval : (option nat -> option nat) -> Manager -> Manager := ltac:(field_update eta updateInterval).
Definition on_intervals : (gset nat -> gset nat) -> Manager -> Manager := ltac:(field_update eta intervals).
Definition on_nextHandle : (nat -> nat) -> Manager -> Manager := ltac:(field_update eta nextHandle).
Definition on_inFlight : (list string -> list string) -> Manager -> Manager := ltac:(field_update eta inFlight).
Definition on_hideTimeouts : (nat -> nat) -> Manager -> Manager := ltac:(field_update eta hideTimeouts).

Notation "m ;> f" := (f m) (at level 45, left associativity, only parsing).

(** How a call ends: it returns, or it throws, with the manager as it is
    then. *)
Inductive Ended :=
| Returned (m : Manager)
| Threw (m : Manager).

(** The rest of a method after a call: it runs if the call returned. *)
Definition and_then (call : Ended) (rest : Manager -> Ended) : Ended :=
  match call with
  | Returned m => rest m
  | Threw m => Threw m
  end.

(** The manager a call leaves, whichever way it ended. *)
Definition settled (call : Ended) : Manager :=
  match call with
  | Returned m | Threw m => m
  end.

(** A page with the three progress elements, once the script has loaded. *)
Definition constructed : Manager :=
  {| progressContainer := Some DInitial;
     progressFill := Some {| width := None; backgroundColor := None |};
     progressText := Some Markup;
     currentProgress := Fin 0; updateInterval := None;
     intervals := ∅; nextHandle := 1; inFlight := []; hideTimeouts := 0 |}.

Definition showProgress (m : Manager) : Manager :=
  on_progressContainer (option_map (fun _ => DBlock)) m.

(** The method [clearInterval()] of the manager. *)
Definition clearInterval (m : Manager) : Manager :=
  match updateInterval m with
  | Some (S h) =>
      m ;> on_intervals (fun live => live ∖ {[S h]})
        ;> on_updateInterval (fun _ => None)
  | _ => m
  end.

Definition hideProgress (m : Manager) : Manager :=
  m ;> on_progressContainer (option_map (fun _ => DNone)) ;> clearInterval.

(** [updateProgress(percentage, message)] for a percentage that is a
    number.  The text is written last, and writing it throws for a message
    that is truthy and has no string. *)
Definition updateProgress (percentage : number) (msg : Message) (m : Manager) : Ended :=
  let m := on_currentProgress (fun _ => min100 percentage) m in
  let m := on_progressFill (option_map (assign_width (currentProgress m))) m in
  match progressText m with
  | Some _ =>
      if message_truthy msg then
        if message_printable msg
        then Returned (on_progressText (fun _ => Some (Said msg)) m)
        else Threw m
      else Returned (on_progressText (fun _ => Some (Percent (currentProgress m))) m)
  | None => Returned m
  end.

Definition completeProgress (msg : Message) (m : Manager) : Ended :=
  and_then (updateProgress (Fin 100) msg m) (fun m =>
  Returned (m ;> clearInterval ;> on_hideTimeouts S)).

(** [errorProgress(message)]; the template literal that puts the cross mark
    in front of the message throws for one that has no string. *)
Definition errorProgress (message : JS.value) (m : Manager) : Ended :=
  if JS.printable message then
    and_then (updateProgress (currentProgress m) (Crossed message) m) (fun m =>
    Returned (m ;> clearInterval
                ;> on_progressFill (option_map (fun f =>
                     {| width := width f; backgroundColor := Some "#ff4444" |}))))
  else Threw m.

(** The [try] block of [checkProgressStatus(processId)] after its
    [await]s.  Reading [data.success] throws for a body that is [null], and
    [Math.min] for a progress that has no number. *)
Definition tryProgress (data : JS.value) (text : number) (m : Manager) : Ended :=
  match JS.get data "success", JS.get data "progress",
        JS.get data "status", JS.get data "message" with
  | Some success, Some progress, Some status, Some message =>
      if JS.truthy success then
        match ToNumber text progress with
        | Some n =>
            and_then (updateProgress n (Plain message) m) (fun m =>
            if ge100 n || JS.is_string status "completed"
            then completeProgress (Plain (JS.or message (JS.Str "Processing completed!"))) m
            else if JS.is_string status "error"
            then errorProgress (JS.or message (JS.Str "Processing failed")) m
            else Returned m)
        | None => Threw m
        end
      else Returned m
  | _, _, _, _ => Threw m
  end.

(** [checkProgressStatus(processId)] after its [await]s: the [try] block,
    and the [catch] block for whatever it throws. *)
Definition progressArrived (o : Outcome) (m : Manager) : Manager :=
  match o with
  | Got data text =>
      match tryProgress data text m with
      | Returned m => m
      | Threw m => settled (errorProgress (JS.Str "Failed to check progress status") m)
      end
  | Failed => settled (errorProgress (JS.Str "Failed to check progress status") m)
  end.

Definition startProgress (processId : string) (m : Manager) : Manager :=
  let m := m ;> on_currentProgress (fun _ => Fin 0) ;> showProgress in
  match updateProgress (Fin 5) (Plain (JS.Str "Starting AI processing...")) m with
  | Returned m =>
      let h := nextHandle m in
      m ;> on_intervals (fun live => live ∪ {[h]})
        ;> on_nextHandle S
        ;> on_updateInterval (fun _ => Some h)
  | Threw m => m
  end.

Definition reset (m : Manager) : Manager :=
  m ;> clearInterval
    ;> on_currentProgress (fun _ => Fin 0)
    ;> hideProgress
    ;> on_progressFill (option_map (fun _ =>
         {| width := Some (Fin 0); backgroundColor := Some "#007AFF" |}))
    ;> on_progressText (option_map (fun _ => Empty)).

(** Every way into the manager: its methods called from outside, and the
    interval, the requests and the timeouts it set up coming due.  A call
    from outside that throws leaves the manager as it is then. *)
Inductive Op :=
| StartProgress (processId : string)
| ShowProgress
| HideProgress
| UpdateProgress (percentage : number) (msg : Message)
| CompleteProgress (msg : Message)
| ErrorProgress (message : JS.value)
| ClearInterval
| ResetProgress
| Tick (h : nat) (processId : string)     (* interval h of startProgress(processId) *)
| Arrive (k : nat) (o : Outcome)          (* the k-th outstanding request settles *)
| HideDue.                                (* a hideProgress timeout elapses *)

Definition step (op : Op) (m : Manager) : Manager :=
  match op with
  | StartProgress processId => startProgress processId m
  | ShowProgress => showProgress m
  | HideProgress => hideProgress m
  | UpdateProgress percentage msg => settled (updateProgress percentage msg m)
  | CompleteProgress msg => settled (completeProgress msg m)
  | ErrorProgress message => settled (errorProgress message m)
  | ClearInterval => clearInterval m
  | ResetProgress => reset m
  | Tick h processId =>
      if bool_decide (h ∈ intervals m)
      then on_inFlight (fun q => q ++ [processId]) m
      else m
  | Arrive k o =>
      match inFlight m !! k with
      | Some _ => m ;> on_inFlight (delete k) ;> progressArrived o
      | None => m
      end
  | HideDue =>
      match hideTimeouts m with
      | S n => m ;> on_hideTimeouts (fun _ => n) ;> hideProgress
      | O => m
      end
  end.

Definition run (ops : list Op) (m : Manager) : Manager :=
  fold_left (fun acc op => step op acc) ops m.

(** *** Vocabulary of the properties *)

(** Every live interval was handed out before [nextHandle]. *)
Definition handles_fresh (m : Manager) : Prop :=
  forall h, h ∈ intervals m -> (h < nextHandle m)%nat.

(** The colour of the bar, if the page has one and it was ever coloured. *)
Definition colour (m : Manager) : option string :=
  match progressFill m with
  | Some f => backgroundColor f
  | None => None
  end.

(** A run in which [reset] is not called. *)
Definition unreset (ops : list Op) : bool :=
  forallb (fun op => match op with ResetProgress => false | _ => true end) ops.





(** A response that reports success and completion at 100, and one that
    reports success and nothing else. *)
Definition completedBody : JS.value :=
  JS.Obj [("success", JS.Bool true); ("progress", JS.Num 100);
          ("status", JS.Str "completed")].


(** A first process has failed, and one has completed. *)
Definition failedOnce : Manager :=
  run [StartProgress "p1"; Tick 1 "p1"; Arrive 0 Failed] constructed.

Definition completedOnce : Manager :=
  run [StartProgress "p1"; Tick 1 "p1"; Arrive 0 (Got completedBody (Fin 0))] constructed.


End Progress.

(** ** preview.js: [ErrorHandler] *)
Module Handler.

(** What [logError] reads from the browser: the clock as an ISO string, the
    user agent and the address of the page. *)
Record Env := { now : string; userAgent : string; href : string }.

(** A thrown value or a response as [logError] uses it: its [toString()] and
    its [stack], if it has one. *)
Record Thrown := { text : string; stack : option string }.

Record Entry := {
  timestamp : string;
  type : string;
  error : string;
  trace : option string;          (* stack *)
  context : JS.value;
  agent : string;                 (* userAgent *)
  url : string
}.

(** The messages of [handleNetworkError]; the last resort quotes the
    status. *)
Inductive Message :=
| Text (s : string)
| Unexpected (status : Z).

Record State := {
  errorLog : list Entry;
  enhancedUX : option UX.State;          (* window.enhancedUX, if loaded *)
  (* the browser: [alert]s raised, oldest first, and the 2000 ms timeouts
     pending, each with the suggestions it is to show *)
  alerts : list (string * Message);
  timeouts : list (list string)
}.

(** The handler as its constructor leaves it; whether [enhancedUX] is there
    depends on the scripts the page loads. *)
Definition constructed (ux : option UX.State) : State :=
  {| errorLog := []; enhancedUX := ux; alerts := []; timeouts := [] |}.

(** [log.slice(-25)]. *)
Definition slice_last25 (log : list Entry) : list Entry :=
  drop (length log - 25) log.

(** [this.errorLog.push(entry)] and the limit on the size of the log. *)
Definition push (entry : Entry) (log : list Entry) : list Entry :=
  let log := log ++ [entry] in
  if (50 <? length log)%nat then slice_last25 log else log.

(** [logError(type, error, context)]; [error] is [None] for [null] or
    [undefined], whose [toString()] throws: the result is then [None]. *)
Definition logError (env : Env) (type : string) (error : option Thrown) (context : JS.value)
    (h : State) : option State :=
  match error with
  | None => None
  | Some e =>
      let entry := {| timestamp := now env; type := type; error := text e; trace := stack e;
                      context := context; agent := userAgent env; url := href env |} in
      Some {| errorLog := push entry (errorLog h); enhancedUX := enhancedUX h;
              alerts := alerts h; timeouts := timeouts h |}
  end.

(** [showUserFriendlyError(title, message)]: an error notification, or an
    [alert] when [enhancedUX] is not loaded; [clock] is what [Date.now()]
    reads.  The result is the id of the notification, if any. *)
Definition showUserFriendlyError (clock : Z) (title : string) (message : Message)
    (h : State) : State * option Z :=
  match enhancedUX h with
  | Some u =>
      let (u', id) := UX.showNotification clock "error" u in
      ({| errorLog := errorLog h; enhancedUX := Some u'; alerts := alerts h;
          timeouts := timeouts h |}, Some id)
  | None =>
      ({| errorLog := errorLog h; enhancedUX := None;
          alerts := alerts h ++ [(title, message)]; timeouts := timeouts h |}, None)
  end.

(** The title and message [handleNetworkError] picks; a status that is
    missing or zero is falsy. *)
Definition networkReport (status : option Z) : string * Message :=
  match status with
  | Some 400 => ("Invalid Request",
      Text "The request was not formatted correctly. Please check your input and try again.")
  | Some 401 => ("Authentication Required", Text "Please log in to continue.")
  | Some 403 => ("Access Denied", Text "You do not have permission to perform this action.")
  | Some 404 => ("Not Found", Text "The requested resource could not be found.")
  | Some 413 => ("File Too Large",
      Text "The uploaded file exceeds the 10MB size limit. Please select a smaller file.")
  | Some 429 => ("Too Many Requests", Text "Please wait a moment before trying again.")
  | Some 500 => ("Server Error",
      Text "A server error occurred. Please try again in a few minutes.")
  | Some 502 | Some 503 | Some 504 => ("Service Unavailable",
      Text "The service is temporarily unavailable. Please try again later.")
  | Some 0 | None => ("Connection Error",
      Text "Unable to connect to the server. Please check your internet connection and try again.")
  | Some status => ("Network Error", Unexpected status)
  end.

(** The [status] of a response or of a thrown error as a JavaScript
    value, for the context of the log entry. *)
Definition status_value (status : option Z) : JS.value :=
  match status with
  | Some n => JS.Num n
  | None => JS.Undefined
  end.

(** [handleNetworkError(response, url)]; [response] is a response or the
    error [fetch] threw, never [null]. *)
Definition handleNetworkError (env : Env) (clock : Z) (response : Thrown) (status : option Z)
    (url : string) (h : State) : State :=
  let (title, message) := networkReport status in
  let h := fst (showUserFriendlyError clock title message h) in
  let context := JS.Obj [("url", JS.Str url); ("status", status_value status)] in
  match logError env "Network Error" (Some response) context h with
  | Some h' => h'
  | None => h
  end.

(** How the browser's own [fetch] settles. *)
Inductive Settled :=
| Responded (response : Thrown) (status : Z)
| Failed (error : Thrown).

(** [response.ok]. *)
Definition ok (status : Z) : bool := (200 <=? status) && (status <=? 299).

(** The [fetch] that [setupNetworkErrorHandling] installs: what the caller
    gets is what the browser's [fetch] gave, returned or thrown again. *)
Definition wrappedFetch (env : Env) (clock : Z) (url : string) (r : Settled) (h : State)
    : State * Settled :=
  match r with
  | Responded response status =>
      if negb (ok status)
      then (handleNetworkError env clock response (Some status) url h, r)
      else (h, r)
  | Failed error => (handleNetworkError env clock error None url h, r)
  end.

(** [hay.includes(needle)]. *)
Fixpoint includes (needle hay : string) : bool :=
  String.prefix needle hay
  || match hay with
     | EmptyString => false
     | String _ rest => includes needle rest
     end.

Record Info := { title : string; message : string; suggestions : list string }.

(** [getContextualErrorMessage(error, operation)]; [errorMessage] is
    [error.message || error.toString()]. *)
Definition getContextualErrorMessage (errorMessage operation : string) : Info :=
  let generic :=
    {| title := "Unexpected Error";
       message := "An unexpected error occurred during the operation.";
       suggestions := ["Try the operation again"; "Refresh the page and start over";
                       "Contact support if the problem persists"] |} in
  if String.eqb operation "upload" then
    if includes "size" errorMessage || includes "large" errorMessage then
      {| title := "File Too Large";
         message := "The selected file is too large. Please choose a file smaller than 10MB.";
         suggestions := ["Compress your text file";
                         "Split large transcripts into smaller sections";
                         "Remove unnecessary content from the transcript"] |}
    else if includes "type" errorMessage || includes "format" errorMessage then
      {| title := "Invalid File Type";
         message := "Only .txt files are supported for meeting transcripts.";
         suggestions := ["Convert your file to .txt format";
                         "Copy and paste text into a new .txt file";
                         "Use a plain text editor to save your content"] |}
    else if includes "empty" errorMessage then
      {| title := "Empty File";
         message := "The selected file appears to be empty.";
         suggestions := ["Check that your file contains meeting transcript text";
                         "Select a different file";
                         "Add content to your file before uploading"] |}
    else generic
  else if String.eqb operation "processing" then
    if includes "timeout" errorMessage then
      {| title := "Processing Timeout";
         message := "AI processing took longer than expected and was cancelled.";
         suggestions := ["Try again with a shorter transcript";
                         "Check your internet connection";
                         "Split large meetings into smaller sections"] |}
    else if includes "model" errorMessage || includes "AI" errorMessage then
      {| title := "AI Service Error";
         message := "The AI processing service is currently unavailable.";
         suggestions := ["Try again in a few minutes";
                         "Check if the AI service is running";
                         "Contact support if the problem persists"] |}
    else if includes "content" errorMessage || includes "parse" errorMessage then
      {| title := "Content Processing Error";
         message := "The transcript content could not be processed properly.";
         suggestions := ["Check that your transcript contains meeting content";
                         "Remove special characters or formatting";
                         "Ensure the text is readable and well-formatted"] |}
    else generic
  else if String.eqb operation "download" then
    {| title := "Download Failed";
       message := "The file could not be downloaded.";
       suggestions := ["Check your internet connection"; "Try downloading again";
                       "Contact support if the problem persists"] |}
  else generic.

(** [showDetailedError(error, operation)]: with [enhancedUX] an error
    notification at once and the suggestions 2000 ms later; without it,
    nothing. *)
Definition showDetailedError (clock : Z) (errorMessage operation : string) (h : State)
    : State * option Z :=
  let info := getContextualErrorMessage errorMessage operation in
  match enhancedUX h with
  | Some u =>
      let (u', id) := UX.showNotification clock "error" u in
      ({| errorLog := errorLog h; enhancedUX := Some u'; alerts := alerts h;
          timeouts := timeouts h ++ [suggestions info] |}, Some id)
  | None => (h, None)
  end.

(** The timeout of [showDetailedError] coming due, the [k]-th pending; it
    reads [window.enhancedUX] again, and without it the callback throws and
    shows nothing. *)
Definition suggestionsDue (clock : Z) (k : nat) (h : State) : State :=
  match timeouts h !! k with
  | Some texts =>
      let rest := delete k (timeouts h) in
      match texts, enhancedUX h with
      | _ :: _, Some u =>
          {| errorLog := errorLog h;
             enhancedUX := Some (fst (UX.showNotification clock "info" u));
             alerts := alerts h; timeouts := rest |}
      | _, _ =>
          {| errorLog := errorLog h; enhancedUX := enhancedUX h;
             alerts := alerts h; timeouts := rest |}
      end
  | None => h
  end.

Definition clearErrorLog (h : State) : State :=
  {| errorLog := []; enhancedUX := enhancedUX h; alerts := alerts h; timeouts := timeouts h |}.

(** *** Vocabulary of the properties *)

(** The log after the entries of [entries] were pushed onto [log] in turn. *)
Definition pushAll (entries log : list Entry) : list Entry :=
  fold_left (fun acc e => push e acc) entries log.

(** How many of the [n] entries logged since the log was empty are still
    in it: all of the first 50, and from then on the last 25 to 50. *)
Definition kept (n : nat) : nat :=
  if (n <? 25)%nat then n else (25 + (n - 25) mod 26)%nat.

(** A request that the wrapper reports: any that is not answered with a
    status from 200 to 299. *)
Definition reported (r : Settled) : bool :=
  match r with
  | Responded _ status => negb (ok status)
  | Failed _ => true
  end.

(** A call of [logError] with an error that is not [null]: the browser as
    it is then, and the arguments. *)
Record Call := { env : Env; kind : string; thrown : Thrown; about : JS.value }.

(** The entry such a call writes. *)
Definition logged (c : Call) : Entry :=
  {| timestamp := now (env c); type := kind c; error := text (thrown c);
     trace := stack (thrown c); context := about c;
     agent := userAgent (env c); url := href (env c) |}.

(** The handler after the calls of [calls] in turn. *)
Definition logAll (calls : list Call) (h : State) : State :=
  fold_left (fun acc c =>
               match logError (env c) (kind c) (Some (thrown c)) (about c) acc with
               | Some h' => h'
               | None => acc
               end) calls h.

(** What the user has been told: the error notifications on the page and
    the alerts raised. *)
Definition reportsMade (h : State) : nat :=
  (match enhancedUX h with
   | Some u => length (UX.errorsOnPage u)
   | None => 0
   end + length (alerts h))%nat.

(** The dismissals scheduled on the page. *)
Definition dismissals (h : State) : list (nat * UX.Callback) :=
  match enhancedUX h with
  | Some u => List.filter (fun t => match snd t with UX.Hide _ => true | _ => false end)
                (UX.timeouts u)
  | None => []
  end.

Definition sampleEnv : Env :=
  {| now := "2024-05-06T07:08:09.000Z"; userAgent := "agent"; href := "http://localhost/" |}.

Definition sampleResponse : Thrown := {| text := "[object Response]"; stack := None |}.

End Handler.

(** ** The page script that reports through the error handler *)
Module Page.

(** The page of [App], and [window.errorHandler] if preview.js is loaded. *)
Record State := { errorHandler : option Handler.State; app : App.State }.

(** [if (operation)] on the second argument: [null] and the empty string
    are falsy. *)
Definition operation_truthy (operation : option string) : bool :=
  match operation with
  | Some op => negb (String.eqb op "")
  | None => false
  end.

(** [error.message || error.toString()] of [new Error(message)]. *)
Definition errorMessage (message : string) : string :=
  if String.eqb message "" then "Error" else message.

(** [showError(message, operation = null)]; [clock] is what [Date.now()]
    reads. *)
Definition showError (clock : Z) (message : string) (operation : option string)
    (p : State) : State :=
  match errorHandler p with
  | Some h =>
      match operation with
      | Some op =>
          if operation_truthy operation
          then {| errorHandler :=
                    Some (fst (Handler.showDetailedError clock (errorMessage message) op h));
                  app := app p |}
          else {| errorHandler :=
                    Some (fst (Handler.showUserFriendlyError clock "Error"
                                 (Handler.Text message) h));
                  app := app p |}
      | None =>
          {| errorHandler :=
               Some (fst (Handler.showUserFriendlyError clock "Error"
                            (Handler.Text message) h));
             app := app p |}
      end
  | None =>
      {| errorHandler := None; app := App.showError (JS.Str message) (app p) |}
  end.

(** [processFile(file)] of this script. *)
Definition processFile (clock : Z) (file : App.File.t) (p : State) : State :=
  if negb (App.includes App.allowedTypes (App.File.type file))
     && negb (endsWith (toLowerCase (App.File.name file)) ".txt")
  then showError clock "Invalid file type. Only .txt files are supported." (Some "upload") p
  else if App.File.size file >? App.maxSize
  then showError clock "File size exceeds the 10MB limit." (Some "upload") p
  else
    let s := App.on_fileNameText (fun _ => App.File.name file) (app p) in
    let s := App.on_fileSizeText (fun _ => Some (App.File.size file)) s in
    let s := App.on_fileInfo (App.set_display DBlock) s in
    let s := App.on_generateSection (App.set_display DBlock) s in
    let s := App.on_generateSection (App.add_class "slide-in") s in
    let s := App.on_selectedFile (fun _ => Some file) s in
    {| errorHandler := errorHandler p; app := s |}.

(** *** Vocabulary of the properties *)

(** The page once both scripts have loaded, without [enhancedUX]. *)
Definition bare : State :=
  {| errorHandler := Some (Handler.constructed None); app := App.loaded |}.

End Page.

(** ** The error manager *)
Module ErrorManager.

Record Action := { label : string; handler : string }.

(** The [options] of [showError]; [None] is a property that is absent. *)
Record Options := {
  details : option string;
  actions : option (list Action);
  persistent : option bool;
  timeout : option Z
}.

Definition noOptions : Options :=
  {| details := None; actions := None; persistent := None; timeout := None |}.

(** A message element: the node it is, its class name and what its markup
    is filled with. *)
Record Element := {
  node : nat;
  className : string;
  text : string;
  description : option string;
  buttons : list Action
}.

(** What a timeout of the manager does when it elapses. *)
Inductive Callback :=
| Dismiss (n : nat)        (* the element is removed if it is still attached *)
| ScrollCheck (n : nat).   (* the element is scrolled into view if it is out of
                              the viewport *)

Record State := {
  container : list Element;       (* the children of #errorContainer *)
  nextNode : nat;
  revealed : gset nat;            (* the elements that carry the class show *)
  (* the browser: pending animation frames, each with the element it gives
     the class show, and pending timeouts, each with its delay *)
  frames : list nat;
  timers : list (Z * Callback)
}.

(** The manager as its constructor leaves it, the container empty. *)
Definition constructed : State :=
  {| container := []; nextNode := 0; revealed := ∅; frames := []; timers := [] |}.

(** [options.details ? ... : ''] and [options.timeout || fallback]: an
    empty string and zero are falsy. *)
Definition shown_details (o : Options) : option string :=
  match details o with
  | Some d => if String.eqb d "" then None else Some d
  | None => None
  end.

Definition delay (o : Options) (fallback : Z) : Z :=
  match timeout o with
  | Some 0 | None => fallback
  | Some ms => ms
  end.

(** [!options.persistent]. *)
Definition not_persistent (o : Options) : bool :=
  match persistent o with
  | Some true => false
  | _ => true
  end.

(** [createErrorActions(actions)] as the buttons it renders. *)
Definition createErrorActions (o : Options) : list Action :=
  match actions o with
  | Some l => l
  | None => []
  end.

(** [showError(message, type, options)]: [createErrorElement], which also
    sets the timeout of the dismissal, then [displayError], which appends the
    element, asks for an animation frame and sets the 300 ms timeout of the
    scroll check.  Where the page is scrolled to is not part of the state. *)
Definition showError (message type : string) (o : Options) (m : State) : State :=
  let n := nextNode m in
  let errorDiv := {| node := n; className := "error-message error-" +:+ type;
                     text := message; description := shown_details o;
                     buttons := createErrorActions o |} in
  let dismissal := if not_persistent o && negb (String.eqb type "critical")
                   then [(delay o 5000, Dismiss n)] else [] in
  {| container := container m ++ [errorDiv];
     nextNode := S n;
     revealed := revealed m;
     frames := frames m ++ [n];
     timers := timers m ++ dismissal ++ [(300, ScrollCheck n)] |}.

(** [showValidationError(message, field = null)]. *)
Definition showValidationError (message : string) (field : option string) (m : State) : State :=
  let details :=
    match field with
    | Some f => if String.eqb f "" then "Please correct the highlighted fields."
                else "Please check the " +:+ f +:+ " field."
    | None => "Please correct the highlighted fields."
    end in
  showError message "validation"
    {| details := Some details; actions := None; persistent := None; timeout := Some 7000 |} m.

(** The error handed to [showNetworkError], as far as it is read. *)
Record NetworkFailure := { name : string; message : string; code : option string }.

(** [getNetworkErrorDetails(error)]; [None] is no error, or [null]. *)
Definition getNetworkErrorDetails (error : option NetworkFailure) : string :=
  match error with
  | None => "Please check your internet connection and try again."
  | Some e =>
      if String.eqb (name e) "TypeError" && Handler.includes "fetch" (message e)
      then "Unable to connect to the server. Please check your internet connection."
      else match code e with
           | Some "ECONNREFUSED" =>
               "The server is currently unavailable. Please try again later."
           | _ => "A network error occurred. Please check your connection and try again."
           end
  end.

(** [showNetworkError(message, error = null)]. *)
Definition showNetworkError (message : string) (error : option NetworkFailure) (m : State)
    : State :=
  showError message "network"
    {| details := Some (getNetworkErrorDetails error);
       actions := Some [ {| label := "Retry"; handler := "location.reload()" |} ];
       persistent := None; timeout := Some 10000 |} m.

(** [showProcessingError(message)]. *)
Definition showProcessingError (message : string) (m : State) : State :=
  showError message "processing"
    {| details := Some "The AI processing failed. You can try uploading the file again.";
       actions := Some [ {| label := "Try Again"; handler := "window.location.reload()" |};
                         {| label := "Upload New File";
                            handler := "window.resetApp && window.resetApp()" |} ];
       persistent := None; timeout := Some 8000 |} m.

(** [showUploadError(message, fileInfo = {})]; a size or type that is
    absent is [None], and zero and the empty string are falsy. *)
Definition showUploadError (message : string) (size : option Z) (type : option string)
    (m : State) : State :=
  let tooLarge := match size with
                  | Some n => negb (n =? 0) && (n >? 10 * 1024 * 1024)
                  | None => false
                  end in
  let notText := match type with
                 | Some t => negb (String.eqb t "") && negb (Handler.includes "text" t)
                 | None => false
                 end in
  let details :=
    if tooLarge then "File size exceeds 10MB limit. Please use a smaller file."
    else if notText
    then "Only text (.txt) files are supported. Please convert your file to .txt format."
    else "Please check the file and try again." in
  showError message "upload"
    {| details := Some details; actions := None; persistent := None; timeout := Some 6000 |} m.

(** [showCriticalError(message, options = {})]: the properties of
    [options] override the three defaults. *)
Definition showCriticalError (message : string) (o : Options) (m : State) : State :=
  showError message "critical"
    {| details := match details o with
                  | Some d => Some d
                  | None => Some "The application encountered a critical error. Please refresh the page."
                  end;
       actions := match actions o with
                  | Some l => Some l
                  | None => Some [ {| label := "Refresh Page";
                                      handler := "window.location.reload()" |} ]
                  end;
       persistent := match persistent o with
                     | Some b => Some b
                     | None => Some true
                     end;
       timeout := timeout o |} m.

(** [showSuccess(message, options = {})]; it makes no scroll check. *)
Definition showSuccess (message : string) (o : Options) (m : State) : State :=
  let n := nextNode m in
  {| container := container m
                  ++ [{| node := n; className := "success-message"; text := message;
                         description := None; buttons := [] |}];
     nextNode := S n;
     revealed := revealed m;
     frames := frames m ++ [n];
     timers := timers m ++ [(delay o 4000, Dismiss n)] |}.

(** [clearErrors()]. *)
Definition clearErrors (m : State) : State :=
  {| container := []; nextNode := nextNode m; revealed := revealed m;
     frames := frames m; timers := timers m |}.

(** [errorDiv.remove()], by the close button or by the timeout; removing an
    element that is not attached does nothing. *)
Definition remove (n : nat) (m : State) : State :=
  {| container := List.filter (fun e => negb (node e =? n)%nat) (container m);
     nextNode := nextNode m; revealed := revealed m;
     frames := frames m; timers := timers m |}.

(** A timeout elapsing. *)
Definition runCallback (c : Callback) (m : State) : State :=
  match c with
  | Dismiss n => remove n m
  | ScrollCheck _ => m
  end.

Inductive Event :=
| Error (message type : string) (o : Options)
| Validation (message : string) (field : option string)
| Network (message : string) (error : option NetworkFailure)
| Processing (message : string)
| Upload (message : string) (size : option Z) (type : option string)
| Critical (message : string) (o : Options)
| Success (message : string) (o : Options)
| Uncaught                                  (* the window's error event *)
| Unhandled                                 (* an unhandled rejection *)
| Close (n : nat)                           (* the close button of a message *)
| Clear
| Frame (k : nat)                           (* the k-th pending animation frame *)
| Timeout (k : nat).                        (* the k-th pending timeout elapses *)

Definition step (e : Event) (m : State) : State :=
  match e with
  | Error message type o => showError message type o m
  | Validation message field => showValidationError message field m
  | Network message error => showNetworkError message error m
  | Processing message => showProcessingError message m
  | Upload message size type => showUploadError message size type m
  | Critical message o => showCriticalError message o m
  | Success message o => showSuccess message o m
  | Uncaught => showError "An unexpected error occurred. Please try again." "system" noOptions m
  | Unhandled =>
      showError
        "A network or processing error occurred. Please check your connection and try again."
        "network" noOptions m
  | Close n => remove n m
  | Clear => clearErrors m
  | Frame k =>
      match frames m !! k with
      | Some n =>
          {| container := container m; nextNode := nextNode m;
             revealed := revealed m ∪ {[n]};
             frames := delete k (frames m); timers := timers m |}
      | None => m
      end
  | Timeout k =>
      match timers m !! k with
      | Some (_, c) =>
          runCallback c {| container := container m; nextNode := nextNode m;
                           revealed := revealed m; frames := frames m;
                           timers := delete k (timers m) |}
      | None => m
      end
  end.

Definition run (events : list Event) (m : State) : State :=
  fold_left (fun acc e => step e acc) events m.

(** *** Vocabulary of the properties *)

(** What every function that shows a message does to the state: one more
    element, the next node taken, an animation frame asked for and the
    timeouts it sets. *)
Definition added (el : Element) (timeouts : list (Z * Callback)) (m : State) : State :=
  {| container := container m ++ [el]; nextNode := S (nextNode m);
     revealed := revealed m; frames := frames m ++ [nextNode m];
     timers := timers m ++ timeouts |}.

(** The pending timeouts that remove a message. *)
Definition is_dismissal (t : Z * Callback) : bool :=
  match snd t with
  | Dismiss _ => true
  | ScrollCheck _ => false
  end.

Definition dismissals (m : State) : list (Z * Callback) :=
  List.filter is_dismissal (timers m).

Definition is_critical (e : Element) : bool :=
  String.eqb (className e) "error-message error-critical".

(** What the timeouts set for a new message may aim at: a dismissal only
    at the new message, and only if that is not critical. *)
Definition aims_at (n : nat) (el : Element) (t : Z * Callback) : Prop :=
  match snd t with
  | Dismiss n' => n' = n /\ is_critical el = false
  | ScrollCheck _ => True
  end.

(** A run in which nobody closes a message and nothing clears them. *)
Definition undismissed (events : list Event) : bool :=
  forallb (fun e => match e with Close _ | Clear => false | _ => true end) events.

(** The nodes handed out so far are those below [nextNode], and no pending
    timeout aims at a critical message. *)
Definition well_numbered (m : State) : Prop :=
  Forall (fun e => (node e < nextNode m)%nat) (container m)
  /\ Forall (fun t => match snd t with
                      | Dismiss n =>
                          (n < nextNode m)%nat
                          /\ Forall (fun e => node e = n -> is_critical e = false)
                               (container m)
                      | ScrollCheck _ => True
                      end)
       (timers m).

End ErrorManager.

(** ** preview.js: [PreviewManager] *)
Module Preview.

(** What a format function renders.  What a template literal prints of a
    value is kept as the value. *)
Inductive Block :=
| Paragraph (text : string)               (* a fixed sentence *)
| ParagraphOf (v : JS.value)              (* a paragraph holding the value *)
| DivisionOf (v : JS.value)               (* a division holding the value *)
| Ordered (items : list JS.value)
| Unordered (items : list JS.value)
| Table (rows : list (JS.value * JS.value * JS.value)).

(** A value printed by a template literal; [None] is the [TypeError] of a
    value that has no string. *)
Definition print (v : JS.value) : option JS.value :=
  if JS.printable v then Some v else None.

(** The items of a list, printed one by one. *)
Fixpoint print_all (items : list JS.value) : option (list JS.value) :=
  match items with
  | [] => Some []
  | item :: rest =>
      match print item, print_all rest with
      | Some v, Some vs => Some (v :: vs)
      | _, _ => None
      end
  end.

(** [v.length === 0] for a truthy [v]: an array has its length, a string
    its own, an object the property it may carry, and nothing else has one. *)
Definition length_is_zero (v : JS.value) : bool :=
  match v with
  | JS.Arr items => (length items =? 0)%nat
  | JS.Str s => (String.length s =? 0)%nat
  | JS.Obj fields => match JS.own "length" fields with
                     | JS.Num 0 => true
                     | _ => false
                     end
  | _ => false
  end.

(** [formatAttendees(attendees)]; [None] is the [TypeError] of calling
    [map] on a value that has none, or of printing an attendee. *)
Definition formatAttendees (attendees : JS.value) : option Block :=
  if negb (JS.truthy attendees) || length_is_zero attendees
  then Some (Paragraph "No attendees listed")
  else match attendees with
       | JS.Arr items => option_map Unordered (print_all items)
       | _ => None
       end.

(** [formatAgenda(agendaItems)]; a string prints as it is. *)
Definition formatAgenda (agendaItems : JS.value) : option Block :=
  if negb (JS.truthy agendaItems) then Some (Paragraph "No agenda items")
  else match agendaItems with
       | JS.Str _ => Some (ParagraphOf agendaItems)
       | JS.Arr items => option_map Ordered (print_all items)
       | _ => Some (Paragraph "No agenda items")
       end.

Definition formatDiscussion (discussionPoints : JS.value) : option Block :=
  if negb (JS.truthy discussionPoints) then Some (Paragraph "No discussion points")
  else match discussionPoints with
       | JS.Str _ => Some (DivisionOf discussionPoints)
       | JS.Arr items => option_map Unordered (print_all items)
       | _ => Some (Paragraph "No discussion points")
       end.

(** One row of the table of [formatActionItems]; reading a property of a
    [null] item throws, and so does printing a value that has no string. *)
Definition actionRow (item : JS.value) : option (JS.value * JS.value * JS.value) :=
  match JS.get item "task", JS.get item "description",
        JS.get item "assignee", JS.get item "due_date" with
  | Some task, Some description, Some assignee, Some due =>
      match print (JS.or (JS.or task description) (JS.Str "N/A")),
            print (JS.or assignee (JS.Str "Unassigned")),
            print (JS.or due (JS.Str "TBD")) with
      | Some what, Some who, Some when => Some (what, who, when)
      | _, _, _ => None
      end
  | _, _, _, _ => None
  end.

Fixpoint actionRows (items : list JS.value) : option (list (JS.value * JS.value * JS.value)) :=
  match items with
  | [] => Some []
  | item :: rest =>
      match actionRow item, actionRows rest with
      | Some row, Some rows => Some (row :: rows)
      | _, _ => None
      end
  end.

Definition formatActionItems (actionItems : JS.value) : option Block :=
  if negb (JS.truthy actionItems) || length_is_zero actionItems
  then Some (Paragraph "No action items")
  else match actionItems with
       | JS.Arr items => option_map Table (actionRows items)
       | _ => None
       end.

Definition formatDecisions (decisions : JS.value) : option Block :=
  if negb (JS.truthy decisions) then Some (Paragraph "No decisions made")
  else match decisions with
       | JS.Str _ => Some (ParagraphOf decisions)
       | JS.Arr items => option_map Unordered (print_all items)
       | _ => Some (Paragraph "No decisions made")
       end.

(** The document of [generatePreviewHTML]. *)
Record Document := {
  heading : JS.value;
  date : JS.value;
  time : JS.value;
  location : JS.value;
  facilitator : JS.value;
  attendees : Block;
  agenda : Block;
  discussion : Block;
  actionItems : Block;
  decisions : Block;
  nextDate : JS.value;
  nextTime : JS.value
}.

(** [generatePreviewHTML(content)], the parts of the template in their
    order; [None] when building it throws. *)
Definition generatePreviewHTML (content : JS.value) : option Document :=
  match content with
  | JS.Undefined | JS.Null => None
  | _ =>
      let field k := match JS.get content k with
                     | Some v => v
                     | None => JS.Undefined
                     end in
      heading ← print (JS.or (field "meeting_title") (JS.Str "Meeting Minutes"));
      date ← print (JS.or (field "meeting_date") (JS.Str "N/A"));
      time ← print (JS.or (field "meeting_time") (JS.Str "N/A"));
      location ← print (JS.or (field "meeting_location") (JS.Str "N/A"));
      facilitator ← print (JS.or (field "facilitator") (JS.Str "N/A"));
      people ← formatAttendees (field "attendees");
      agenda ← formatAgenda (field "agenda_items");
      discussion ← formatDiscussion (field "discussion_points");
      tasks ← formatActionItems (field "action_items");
      decisions ← formatDecisions (field "decisions");
      nextDate ← print (JS.or (field "next_meeting_date") (JS.Str "TBD"));
      nextTime ← print (JS.or (field "next_meeting_time") (JS.Str "TBD"));
      Some {| heading := heading; date := date; time := time; location := location;
              facilitator := facilitator; attendees := people; agenda := agenda;
              discussion := discussion; actionItems := tasks; decisions := decisions;
              nextDate := nextDate; nextTime := nextTime |}
  end.

(** The message of the error [showPreview] catches. *)
Inductive Reason :=
| Thrown (message : string)     (* what fetch or json() rejected with *)
| TypeError                     (* a property of null, a call of no function,
                                   a value that has no string *)
| Declared (v : JS.value).      (* previewData.message || 'Failed to generate preview' *)

(** The element [#previewError]. *)
Record ErrorBox := { text : option Reason; display : Display }.

Record Manager := {
  previewContent : option (option Document);   (* None: no such element *)
  previewModal : option Display;               (* None: no such element *)
  bodyOverflow : option string;                (* document.body.style.overflow *)
  previewError : option ErrorBox;              (* None: not in the page yet *)
  hides : nat                                  (* pending 5000 ms timeouts *)
}.

(** A page with the preview elements, once the script has loaded. *)
Definition constructed : Manager :=
  {| previewContent := Some None; previewModal := Some DInitial; bodyOverflow := None;
     previewError := None; hides := 0 |}.

(** [displayPreview(content)]; [None] when [generatePreviewHTML] throws. *)
Definition displayPreview (content : JS.value) (m : Manager) : option Manager :=
  match previewContent m with
  | None => Some m
  | Some _ =>
      match generatePreviewHTML content with
      | Some document =>
          Some {| previewContent := Some (Some document); previewModal := previewModal m;
                  bodyOverflow := bodyOverflow m; previewError := previewError m;
                  hides := hides m |}
      | None => None
      end
  end.

Definition showPreviewModal (m : Manager) : Manager :=
  match previewModal m with
  | Some _ =>
      {| previewContent := previewContent m; previewModal := Some DBlock;
         bodyOverflow := Some "hidden"; previewError := previewError m; hides := hides m |}
  | None => m
  end.

Definition hidePreviewModal (m : Manager) : Manager :=
  match previewModal m with
  | Some _ =>
      {| previewContent := previewContent m; previewModal := Some DNone;
         bodyOverflow := Some "auto"; previewError := previewError m; hides := hides m |}
  | None => m
  end.

(** [showError(message)]: the element is created on first use. *)
Definition showError (reason : Reason) (m : Manager) : Manager :=
  {| previewContent := previewContent m; previewModal := previewModal m;
     bodyOverflow := bodyOverflow m;
     previewError := Some {| text := Some reason; display := DBlock |};
     hides := S (hides m) |}.

(** How the request of [showPreview] settles. *)
Inductive Outcome :=
| Rejected (message : string)
| BadJson (message : string)
| Body (previewData : JS.value).

(** [showPreview(data, processId)] after its [await]s. *)
Definition previewArrived (o : Outcome) (m : Manager) : Manager :=
  match o with
  | Rejected message | BadJson message => showError (Thrown message) m
  | Body previewData =>
      match JS.get previewData "success", JS.get previewData "content",
            JS.get previewData "message" with
      | Some success, Some content, Some message =>
          if JS.truthy success then
            match displayPreview content m with
            | Some m' => showPreviewModal m'
            | None => showError TypeError m
            end
          else
            (* new Error(...) makes a string of its argument, or throws *)
            match print (JS.or message (JS.Str "Failed to generate preview")) with
            | Some declared => showError (Declared declared) m
            | None => showError TypeError m
            end
      | _, _, _ => showError TypeError m
      end
  end.

(** The Escape key of the modal handlers. *)
Definition escapePressed (m : Manager) : Manager :=
  match previewModal m with
  | Some DBlock => hidePreviewModal m
  | _ => m
  end.

(** A timeout of [showError] elapses. *)
Definition hideDue (m : Manager) : Manager :=
  match hides m, previewError m with
  | S n, Some box =>
      {| previewContent := previewContent m; previewModal := previewModal m;
         bodyOverflow := bodyOverflow m;
         previewError := Some {| text := text box; display := DNone |}; hides := n |}
  | _, _ => m
  end.

(** *** Vocabulary of the properties *)

(** A value that [formatAttendees] and [formatActionItems] can go through:
    falsy, an array, or something with a length of zero. *)
Definition listable (v : JS.value) : bool :=
  negb (JS.truthy v) || length_is_zero v
  || match v with JS.Arr _ => true | _ => false end.

(** No action item is [null]. *)
Definition items_present (v : JS.value) : bool :=
  match v with
  | JS.Arr items => forallb (fun item => match item with
                                          | JS.Undefined | JS.Null => false
                                          | _ => true
                                          end) items
  | _ => true
  end.

(** A property of the content, [undefined] where there is none to read. *)
Definition field (content : JS.value) (k : string) : JS.value :=
  match JS.get content k with
  | Some v => v
  | None => JS.Undefined
  end.

(** The items a format function prints of a list. *)
Definition items_of (v : JS.value) : list JS.value :=
  match v with
  | JS.Arr items => items
  | _ => []
  end.

(** What the table prints of one action item. *)
Definition row_values (item : JS.value) : list JS.value :=
  [JS.or (JS.or (field item "task") (field item "description")) (JS.Str "N/A");
   JS.or (field item "assignee") (JS.Str "Unassigned");
   JS.or (field item "due_date") (JS.Str "TBD")].

(** Every value the preview prints of a content: the title and the six
    dates, times and names, the attendees, the agenda items, the discussion
    points and the decisions when these are lists, and the task, assignee
    and due date of every action item. *)
Definition printed (content : JS.value) : list JS.value :=
  [JS.or (field content "meeting_title") (JS.Str "Meeting Minutes");
   JS.or (field content "meeting_date") (JS.Str "N/A");
   JS.or (field content "meeting_time") (JS.Str "N/A");
   JS.or (field content "meeting_location") (JS.Str "N/A");
   JS.or (field content "facilitator") (JS.Str "N/A");
   JS.or (field content "next_meeting_date") (JS.Str "TBD");
   JS.or (field content "next_meeting_time") (JS.Str "TBD")]
  ++ items_of (field content "attendees")
  ++ items_of (field content "agenda_items")
  ++ items_of (field content "discussion_points")
  ++ items_of (field content "decisions")
  ++ concat (map row_values (items_of (field content "action_items"))).

(** Whether a step of the rendering went through. *)
Definition went {A : Type} (step : option A) : bool :=
  match step with
  | Some _ => true
  | None => false
  end.

(** Whether a content can be rendered. *)
Definition renders (content : JS.value) : bool := went (generatePreviewHTML content).

(** The responses on which the preview is shown: a truthy [success] and,
    if the page has the preview element, a content that can be rendered. *)
Definition shown (o : Outcome) (m : Manager) : bool :=
  match o with
  | Body (JS.Obj fields) =>
      JS.truthy (JS.own "success" fields)
      && match previewContent m with
         | None => true
         | Some _ => renders (JS.own "content" fields)
         end
  | _ => false
  end.

(** A response whose only agenda item has no string: it carries a
    [toString] of its own. *)
Definition agendaWithoutString : JS.value :=
  JS.Obj [("success", JS.Bool true);
          ("content", JS.Obj [("meeting_title", JS.Str "Weekly sync");
                              ("agenda_items",
                               JS.Arr [JS.Obj [("toString", JS.Num 1)]])])].

(** A response whose attendees are a sentence instead of a list. *)
Definition attendeesAsText : JS.value :=
  JS.Obj [("success", JS.Bool true);
          ("content", JS.Obj [("meeting_title", JS.Str "Weekly sync");
                              ("attendees", JS.Str "Ann, Bob")])].

End Preview.

(** * Properties *)

(** ** app.js: file selection *)

Section FileSelection.
Import App.

Lemma includes_allowed t :
  includes allowedTypes t = String.eqb t "text/plain".
Proof.
  unfold includes, allowedTypes. cbn [existsb]. rewrite orb_false_r.
  apply String.eqb_sym.
Qed.

(** A file of the wrong type and name, or above 10 MiB, is turned away with
    exactly one error report, and nothing of it is kept. *)
Lemma processFile_turns_away file s :
  turned_away file = true ->
  selection_untouched s (processFile file s)
  /\ exists msg, errorReports (processFile file s) = errorReports s ++ [msg].
Proof.
  unfold turned_away, processFile. rewrite includes_allowed. intros H.
  destruct (negb (String.eqb (File.type file) "text/plain")
            && negb (endsWith (toLowerCase (File.name file)) ".txt")) eqn:Htype.
  - split; [repeat split | eexists; reflexivity].
  - cbn [orb] in H. change (10 * 1024 * 1024) with maxSize in H. rewrite H.
    split; [repeat split | eexists; reflexivity].
Qed.

(** Every other file is accepted, whatever its size down to zero: it is
    stored, the generate section is revealed, and no error is reported. *)
Lemma processFile_accepts file s :
  turned_away file = false ->
  selectedFile (processFile file s) = Some file
  /\ display (generateSection (processFile file s)) = DBlock
  /\ errorReports (processFile file s) = errorReports s.
Proof.
  unfold turned_away, processFile. rewrite includes_allowed. intros H.
  apply orb_false_elim in H as [Htype Hsize].
  rewrite Htype. change (10 * 1024 * 1024) with maxSize in Hsize. rewrite Hsize.
  repeat split.
Qed.

(** C1: an empty plain-text file is not turned away.  [processFile] stores
    it, reveals the generate section and reports no error, where the
    specification has the selection refused with one validation error. *)
Theorem processFile_empty_file_accepted :
  selectedFile (processFile emptyTranscript loaded) = Some emptyTranscript
  /\ display (generateSection (processFile emptyTranscript loaded)) = DBlock
  /\ display (fileInfo (processFile emptyTranscript loaded)) = DBlock
  /\ errorReports (processFile emptyTranscript loaded) = [].
Proof. repeat split. Qed.

End FileSelection.

(** ** app.js: the status-polling loop *)

Section Polling.
Import App.

Lemma run_snoc events e s : run (events ++ [e]) s = step e (run events s).
Proof. unfold run. rewrite fold_left_app. reflexivity. Qed.

(** Runs the handlers on a state given field by field, leaving the sets of
    classes and of timers as they are written. *)
Ltac session_fields :=
  cbv beta iota zeta delta
    [handleReset resetGenerateButton hideError hideSuccess showError showSuccess
     showProgress showDownloadSection statusCheckFailed generateFailed
     clearInterval handle_truthy startProcessMonitoring dispatchStatus
     set_display add_class remove_class display classList
     on_currentFileId on_selectedFile on_processCheckInterval on_intervals on_nextHandle
     on_inFlight on_timeouts on_uploads on_generations
     on_fileInputValue on_fileInfo on_fileNameText on_fileSizeText on_generateSection
     on_downloadSection on_downloadWord on_downloadWordHref
     on_progressContainer on_progressFillWidth on_progressText
     on_generateButtonDisabled on_generateButtonText
     on_generateButton on_errorMessage on_errorText on_successMessage on_errorReports
     currentFileId processCheckInterval selectedFile intervals nextHandle inFlight
     timeouts uploads generations fileInputValue fileInfo fileNameText fileSizeText
     generateSection generateButton generateButtonDisabled generateButtonText
     progressContainer progressFillWidth progressText downloadSection downloadWord
     downloadWordHref errorMessage errorText successMessage errorReports] in *.

(** Splits the interval callback along the tests it makes of a decoded
    status. *)
Ltac settle_cases status :=
  cbn [statusArrived]; unfold updateProgress;
  destruct (JS.get status "progress") as [p|] eqn:Hp; cbv beta iota zeta;
  [destruct (JS.get status "status") as [st|] eqn:Hst; cbv beta iota zeta;
   [destruct (JS.printable (JS.or p (JS.Num 0))) eqn:Hpp; cbv beta iota zeta;
    [destruct (JS.printable st) eqn:Hpst; cbv beta iota zeta;
     [destruct (JS.get status "error") as [err|] eqn:Herr; cbv beta iota zeta;
      [destruct (JS.is_string st "completed") eqn:Hdone; cbv beta iota zeta;
       [|destruct (JS.is_string st "failed") eqn:Hfail; cbv beta iota zeta;
         [destruct (JS.printable (JS.or err (JS.Str "Processing failed"))) eqn:Hperr;
          cbv beta iota zeta|]]
      |]
     |]
    |]
   |]
  |].

Lemma get_together status k v :
  JS.get status k = Some v -> forall k', exists v', JS.get status k' = Some v'.
Proof. destruct status; cbn; intros H k'; try discriminate; eauto. Qed.

Lemma statusCheckFailed_stops s : polling (statusCheckFailed s) = false.
Proof.
  unfold polling, statusCheckFailed, clearInterval.
  destruct s as [fid [h|] sel live]; cbn; [|reflexivity].
  apply bool_decide_eq_false. set_solver.
Qed.

Lemma statusCheckFailed_intervals s :
  intervals (statusCheckFailed s) = intervals (clearInterval (processCheckInterval s) s).
Proof. reflexivity. Qed.

Lemma statusCheckFailed_handles s :
  nextHandle (statusCheckFailed s) = nextHandle s
  /\ processCheckInterval (statusCheckFailed s) = processCheckInterval s
  /\ selectedFile (statusCheckFailed s) = selectedFile s.
Proof. destruct s as [fid [h|] sel live next]; repeat split. Qed.

Lemma clearInterval_handles h s :
  nextHandle (clearInterval h s) = nextHandle s
  /\ processCheckInterval (clearInterval h s) = processCheckInterval s.
Proof. destruct h; split; reflexivity. Qed.

Lemma clearInterval_twice s :
  intervals (clearInterval (processCheckInterval s) (clearInterval (processCheckInterval s) s))
  = intervals (clearInterval (processCheckInterval s) s).
Proof.
  destruct s as [fid [h|] sel live next]; [|reflexivity]. session_fields. set_solver.
Qed.

(** The interval callback never assigns [processCheckInterval] or the
    selected file. *)
Lemma statusArrived_handles o s :
  nextHandle (statusArrived o s) = nextHandle s
  /\ processCheckInterval (statusArrived o s) = processCheckInterval s.
Proof.
  destruct s as [fid pci sel live next].
  destruct o as [| | |status]; [| | |settle_cases status]; destruct pci; split; reflexivity.
Qed.

Lemma statusArrived_selectedFile o s :
  selectedFile (statusArrived o s) = selectedFile s.
Proof.
  destruct s as [fid pci sel live next].
  destruct o as [| | |status]; [| | |settle_cases status]; destruct pci; reflexivity.
Qed.

(** What a poll that settles does to the live intervals: nothing if the
    loop is to go on, and otherwise what [clearInterval(processCheckInterval)]
    does. *)
Lemma statusArrived_intervals_eq o s :
  intervals (statusArrived o s)
  = if keeps_polling o then intervals s
    else intervals (clearInterval (processCheckInterval s) s).
Proof.
  destruct s as [fid pci sel live next].
  destruct o as [| | |status]; cbn [keeps_polling]; try reflexivity.
  settle_cases status; cbn [andb negb]; try (destruct pci; reflexivity).
  - destruct pci; [|reflexivity]. session_fields. set_solver.
  - destruct (get_together _ _ _ Hst "error") as [err' Habs]. congruence.
Qed.

Lemma statusArrived_intervals o s h :
  h ∈ intervals (statusArrived o s) -> h ∈ intervals s.
Proof.
  rewrite statusArrived_intervals_eq. destruct (keeps_polling o); [trivial|].
  destruct s as [fid [n|] sel live next]; session_fields; set_solver.
Qed.

(** After a poll settles the loop runs exactly if it ran before and the
    outcome is a decoded status that can be shown and is neither completed
    nor failed. *)
Lemma statusArrived_polling o s :
  polling (statusArrived o s) = polling s && keeps_polling o.
Proof.
  unfold polling. destruct (statusArrived_handles o s) as [_ ->].
  rewrite statusArrived_intervals_eq.
  destruct (keeps_polling o).
  - rewrite andb_true_r. reflexivity.
  - rewrite andb_false_r.
    destruct s as [fid [h|] sel live next]; [|reflexivity]. session_fields.
    apply bool_decide_eq_false. set_solver.
Qed.

Lemma startProcessMonitoring_handles s :
  handles_positive s -> handles_positive (startProcessMonitoring s).
Proof.
  unfold handles_positive. intros [Hn Hh]. unfold startProcessMonitoring.
  destruct (handle_truthy (processCheckInterval s)); cbn.
  - destruct (clearInterval_handles (processCheckInterval s) s) as [-> _].
    split; [lia|]. intros [=]; lia.
  - split; [lia|]. intros [=]; lia.
Qed.

Lemma startProcessMonitoring_polling s : polling (startProcessMonitoring s) = true.
Proof.
  unfold startProcessMonitoring, polling.
  destruct (handle_truthy (processCheckInterval s)); cbn;
    apply bool_decide_eq_true; set_solver.
Qed.

Lemma handles_positive_step e s : handles_positive s -> handles_positive (step e s).
Proof.
  intros Hs. pose proof Hs as [Hn Hh].
  destruct e as [file| |o|k o| |h|k o| |k]; cbn [step].
  - unfold processFile.
    destruct (_ && _); [exact Hs|]. destruct (_ >? _); exact Hs.
  - unfold handleGenerate. destruct (selectedFile s); exact Hs.
  - destruct (uploads s); [exact Hs|]. destruct o; exact Hs.
  - destruct (generations s !! k); [|exact Hs]. destruct o; [exact Hs|].
    apply startProcessMonitoring_handles. exact Hs.
  - apply startProcessMonitoring_handles, Hs.
  - destruct (bool_decide _); exact Hs.
  - destruct (inFlight s !! k); [|exact Hs]. unfold handles_positive.
    destruct (statusArrived_handles o (on_inFlight (delete k) s)) as [-> ->].
    exact Hs.
  - unfold handles_positive, handleReset. cbn.
    destruct (handle_truthy (processCheckInterval s)) eqn:E; cbn.
    + destruct (processCheckInterval s); cbn; split; congruence || lia.
    + exact Hs.
  - destruct (timeouts s !! k) as [[d []]|]; exact Hs.
Qed.

Lemma handles_positive_run events s : handles_positive s -> handles_positive (run events s).
Proof.
  revert s. induction events as [|e events IH]; intros s H; [exact H|].
  apply IH, handles_positive_step, H.
Qed.

Lemma handles_positive_loaded : handles_positive loaded.
Proof. split; [cbn; lia | discriminate]. Qed.

Lemma handleReset_stops s : handles_positive s -> polling (handleReset s) = false.
Proof.
  intros [_ Hh]. unfold handleReset, polling. cbn.
  destruct (processCheckInterval s) as [[|h]|] eqn:E; cbn; rewrite ?E; try reflexivity.
  congruence.
Qed.

Lemma startProcessMonitoring_one s :
  handles_positive s -> one_interval s -> one_interval (startProcessMonitoring s).
Proof.
  unfold handles_positive, one_interval.
  destruct s as [fid pci sel live next]. session_fields.
  intros [_ Hzero] Hone h. destruct pci as [[|n]|].
  - congruence.
  - intros Hh. f_equal. apply elem_of_union in Hh as [Hh|Hh].
    + apply elem_of_difference in Hh as [Hlive Hne].
      specialize (Hone h Hlive). injection Hone as Heq. set_solver.
    + set_solver.
  - intros Hh. f_equal. apply elem_of_union in Hh as [Hh|Hh].
    + specialize (Hone h Hh). discriminate.
    + set_solver.
Qed.

Lemma one_interval_step e s :
  handles_positive s -> one_interval s -> one_interval (step e s).
Proof.
  intros Hpos Hone.
  destruct e as [file| |o|k o| |h|k o| |k]; cbn [step].
  - unfold processFile. destruct (_ && _); [exact Hone|]. destruct (_ >? _); exact Hone.
  - unfold handleGenerate. destruct (selectedFile s); exact Hone.
  - destruct (uploads s); [exact Hone|]. destruct o; exact Hone.
  - destruct (generations s !! k); [|exact Hone]. destruct o; [exact Hone|].
    apply startProcessMonitoring_one; [exact Hpos | exact Hone].
  - apply startProcessMonitoring_one; assumption.
  - destruct (bool_decide _); exact Hone.
  - destruct (inFlight s !! k); [|exact Hone].
    intros h Hh. apply statusArrived_intervals in Hh.
    destruct (statusArrived_handles o (on_inFlight (delete k) s)) as [_ ->].
    exact (Hone h Hh).
  - destruct Hpos as [_ Hzero]. revert Hone Hzero. unfold one_interval.
    destruct s as [fid pci sel live next]. session_fields.
    intros Hone Hzero h. destruct pci as [[|n]|]; session_fields.
    + congruence.
    + intros Hh. apply elem_of_difference in Hh as [Hlive Hne].
      specialize (Hone h Hlive). injection Hone as Heq. set_solver.
    + intros Hh. specialize (Hone h Hh). discriminate.
  - destruct (timeouts s !! k) as [[d []]|]; exact Hone.
Qed.

Lemma one_interval_run events s :
  handles_positive s -> one_interval s -> one_interval (run events s).
Proof.
  revert s. induction events as [|e events IH]; intros s Hpos Hone; [exact Hone|].
  apply IH; [apply handles_positive_step, Hpos | apply one_interval_step; assumption].
Qed.

Lemma one_interval_loaded : one_interval loaded.
Proof. intros h Hh. set_solver. Qed.

Lemma stopped_loop_has_no_interval s :
  one_interval s -> polling s = false -> forall h, h ∉ intervals s.
Proof.
  intros Hone Hpoll h Hh. unfold polling in Hpoll. rewrite (Hone h Hh) in Hpoll.
  apply bool_decide_eq_false in Hpoll. exact (Hpoll Hh).
Qed.

(** Where at most one interval is live, the loop is stopped exactly when
    none is. *)
Lemma stopped_iff_no_interval s :
  one_interval s -> polling s = false <-> intervals s = ∅.
Proof.
  intros Hone. split.
  - intros Hpoll. apply elem_of_equiv_empty_L.
    exact (stopped_loop_has_no_interval s Hone Hpoll).
  - intros Hnone. unfold polling. destruct (processCheckInterval s); [|reflexivity].
    apply bool_decide_eq_false. rewrite Hnone. set_solver.
Qed.

Lemma polling_live s h :
  processCheckInterval s = Some h -> polling s = true -> h ∈ intervals s.
Proof. unfold polling. intros ->. apply bool_decide_eq_true. Qed.

(** What each event does to a running loop. *)
Lemma step_polling e s :
  handles_positive s -> polling s = true ->
  polling (step e s) = false <-> ends_loop e s.
Proof.
  intros Hpos Hrun. split.
  - intros Hstop. destruct e as [file| |o|k o| |h|k o| |k]; cbn [step] in Hstop.
    + exfalso. unfold processFile in Hstop.
      destruct (_ && _); [|destruct (_ >? _)];
        change (polling s = false) in Hstop; congruence.
    + exfalso. unfold handleGenerate in Hstop.
      destruct (selectedFile s); change (polling s = false) in Hstop; congruence.
    + exfalso. destruct (uploads s); [|destruct o];
        change (polling s = false) in Hstop; congruence.
    + exfalso. destruct (generations s !! k); [destruct o|];
        [change (polling s = false) in Hstop; congruence
        |unfold generateArrived in Hstop;
         rewrite startProcessMonitoring_polling in Hstop; discriminate
        |congruence].
    + exfalso. rewrite startProcessMonitoring_polling in Hstop. discriminate.
    + exfalso. destruct (bool_decide _);
        change (polling s = false) in Hstop; congruence.
    + right. exists k, o. split; [reflexivity|].
      destruct (inFlight s !! k) as [url|] eqn:Hk; [|congruence].
      split; [eapply lookup_lt_Some, Hk|].
      rewrite statusArrived_polling in Hstop.
      change (polling (on_inFlight (delete k) s)) with (polling s) in Hstop.
      rewrite Hrun in Hstop. exact Hstop.
    + left. reflexivity.
    + exfalso. destruct (timeouts s !! k) as [[d []]|];
        change (polling s = false) in Hstop; congruence.
  - intros [->|(k & o & -> & Hk & Ho)].
    + apply handleReset_stops, Hpos.
    + cbn [step]. destruct (lookup_lt_is_Some_2 _ _ Hk) as [url ->].
      rewrite statusArrived_polling, Ho. apply andb_false_r.
Qed.

(** C2 (amended): in every reachable state in which the loop runs, the
    events after which no interval is live any more are exactly the reset and
    the settling of an outstanding poll with anything but a decoded status
    that can be shown and is neither completed nor failed; the handle kept in
    [processCheckInterval] is dead after exactly these; so the first
    transport-level failure leaves no interval live. *)
Theorem poll_loop_stops_on_first_failure events e :
  polling (run events loaded) = true ->
  (intervals (step e (run events loaded)) = ∅ <-> ends_loop e (run events loaded))
  /\ (polling (step e (run events loaded)) = false <-> ends_loop e (run events loaded))
  /\ (forall k o, (k < length (inFlight (run events loaded)))%nat ->
        transport_failure o = true ->
        intervals (step (Settle k o) (run events loaded)) = ∅).
Proof.
  pose proof (handles_positive_run events loaded handles_positive_loaded) as Hpos.
  pose proof (one_interval_run events loaded handles_positive_loaded one_interval_loaded)
    as Hone.
  generalize dependent (run events loaded). intros s Hpos Hone Hrun.
  assert (Hnone : forall e', intervals (step e' s) = ∅ <-> ends_loop e' s).
  { intros e'. rewrite <- (step_polling e' s Hpos Hrun). symmetry.
    apply stopped_iff_no_interval, one_interval_step; assumption. }
  split; [apply Hnone|]. split; [apply step_polling; assumption|].
  intros k o Hk Ho. apply Hnone. right. exists k, o.
  split; [reflexivity|]. split; [exact Hk|]. destruct o; try discriminate; reflexivity.
Qed.

(** The session that has one poll out: a response that is not [ok] leaves
    no interval live. *)
Lemma poll_loop_stops_on_first_failure_witness :
  intervals (step (Settle 0 NotOk) monitoring) = ∅.
Proof.
  refine (proj2 (proj2 (poll_loop_stops_on_first_failure
                   [Select transcript; Generate; Uploaded (UploadOk "abc123");
                    Generated 0 GenerateOk; Tick 1%nat] Reset _)) 0%nat NotOk _ _).
  - reflexivity.
  - vm_compute. lia.
  - reflexivity.
Defined.

(** C2 (counterexample): one rejected poll, and the running loop is
    stopped. *)
Lemma single_poll_failure_stops_loop :
  polling monitoring = true
  /\ transport_failure Rejected = true
  /\ polling (step (Settle 0 Rejected) monitoring) = false.
Proof. repeat split. Qed.

(** A status still processing whose progress has no string: the callback
    throws before it has written anything, and its [catch] block stops the
    loop and reports the failure. *)
Lemma unprintable_progress_stops_loop :
  keeps_polling (Body progressWithoutString) = false
  /\ intervals (step (Settle 0 (Body progressWithoutString)) monitoring) = ∅
  /\ progressFillWidth (step (Settle 0 (Body progressWithoutString)) monitoring) = WPercent 10
  /\ progressText (step (Settle 0 (Body progressWithoutString)) monitoring) = PTStarting
  /\ errorReports (step (Settle 0 (Body progressWithoutString)) monitoring)
     = [JS.Str "Unable to get processing status"].
Proof. repeat split. Qed.






Lemma tick_live h s :
  h ∈ intervals s ->
  step (Tick h) s = dispatchStatus s.
Proof. intros H. cbn [step]. rewrite bool_decide_eq_true_2; [reflexivity | exact H]. Qed.

(** C4 (counterexample): two ticks with no response in between, two status
    requests out. *)
Lemma two_ticks_two_requests :
  polling monitoring = true
  /\ inFlight monitoring = ["/api/status/abc123"]
  /\ inFlight (step (Tick 1%nat) monitoring) = ["/api/status/abc123"; "/api/status/abc123"].
Proof. repeat split. Qed.

(** C4 (amended): every tick of a live interval sends a status request,
    whatever is still out: [n] ticks in a row add [n] outstanding requests. *)
Theorem every_tick_dispatches s h n :
  h ∈ intervals s ->
  length (inFlight (run (replicate n (Tick h)) s)) = (length (inFlight s) + n)%nat.
Proof.
  revert s. induction n as [|n IH]; intros s Hh; cbn [replicate].
  - cbn. lia.
  - change (run (Tick h :: replicate n (Tick h)) s)
      with (run (replicate n (Tick h)) (step (Tick h) s)).
    rewrite (tick_live h s Hh), IH by exact Hh.
    unfold dispatchStatus. cbn. rewrite length_app. cbn. lia.
Qed.

(** Three more ticks of the monitoring session: four requests out. *)
Lemma every_tick_dispatches_witness :
  length (inFlight (run (replicate 3 (Tick 1%nat)) monitoring)) = 4%nat.
Proof.
  apply (every_tick_dispatches monitoring 1%nat 3%nat).
  vm_compute. set_solver.
Defined.

End Polling.

(** ** download.js: the file name *)

Section Filename.
Import Download.

Lemma after_prefix_app p rest : after_prefix p (p ++ rest) = Some rest.
Proof.
  induction p as [|c p IH]; cbn; [reflexivity|].
  rewrite Ascii.eqb_refl. exact IH.
Qed.



Lemma past_key key rest :
  forallb key_unit key = true -> past key_unit (key ++ "="%char :: rest) = "="%char :: rest.
Proof.
  induction key as [|c key IH]; cbn [app forallb past]; intros Hkey; [reflexivity|].
  apply andb_prop in Hkey as [Hc Hkey]. rewrite Hc. exact (IH Hkey).
Qed.

Lemma match_here_key key rest :
  forallb key_unit key = true ->
  match_here (lit "filename" ++ key ++ "="%char :: rest) = Some (group1 rest).
Proof.
  intros Hkey. unfold match_here.
  rewrite after_prefix_app, (past_key key rest Hkey). reflexivity.
Qed.

(** The pattern matches at the first [filename] whose key runs up to an
    [=], with group 1 taken from what follows the [=]. *)
Lemma match_pattern_leftmost pre key rest :
  absent_before (lit "filename") pre (lit "filename" ++ key ++ "="%char :: rest) = true ->
  forallb key_unit key = true ->
  match_pattern (pre ++ lit "filename" ++ key ++ "="%char :: rest) = Some (group1 rest).
Proof.
  intros Habs Hkey. induction pre as [|c pre IH].
  - cbn [app]. destruct (lit "filename" ++ key ++ "="%char :: rest) eqn:Hs;
      cbn [match_pattern]; rewrite <- Hs, (match_here_key key rest Hkey); reflexivity.
  - cbn [absent_before] in Habs.
    destruct (after_prefix (lit "filename")
                ((c :: pre) ++ lit "filename" ++ key ++ "="%char :: rest)) eqn:Hhere;
      [discriminate|].
    cbn [app match_pattern]. unfold match_here at 1.
    cbn [app] in Hhere. rewrite Hhere. apply IH, Habs.
Qed.

Lemma match_pattern_first_key pre rest :
  absent_before (lit "filename") pre (lit "filename=" ++ rest) = true ->
  match_pattern (pre ++ lit "filename=" ++ rest) = Some (group1 rest).
Proof.
  intros Habs. exact (match_pattern_leftmost pre [] rest Habs eq_refl).
Qed.
















End Filename.

(** ** download.js: the download buttons *)

Section Buttons.
Import Download.

Lemma button_on_button fileType f m :
  button fileType (on_button fileType f m) = f (button fileType m).
Proof. unfold button, on_button. destruct (String.eqb fileType "word"); reflexivity. Qed.

Lemma phase_downloading classes text off :
  phase {| classList := classes ∖ {["downloading"]} ∖ {["completed"]} ∖ {["error"]} ∪ {["downloading"]};
           textContent := text; disabled := off |} = InFlight.
Proof. unfold phase. cbn. rewrite bool_decide_eq_true_2; [reflexivity | set_solver]. Qed.

Lemma phase_completed classes text off :
  phase {| classList := classes ∖ {["downloading"]} ∖ {["completed"]} ∖ {["error"]} ∪ {["completed"]};
           textContent := text; disabled := off |} = Completed.
Proof.
  unfold phase. cbn. rewrite bool_decide_eq_false_2 by set_solver.
  rewrite bool_decide_eq_true_2; [reflexivity | set_solver].
Qed.

Lemma phase_error classes text off :
  phase {| classList := classes ∖ {["downloading"]} ∖ {["completed"]} ∖ {["error"]} ∪ {["error"]};
           textContent := text; disabled := off |} = Error.
Proof.
  unfold phase. cbn. rewrite !bool_decide_eq_false_2 by set_solver.
  rewrite bool_decide_eq_true_2; [reflexivity | set_solver].
Qed.

Lemma phase_normal classes text off :
  phase {| classList := classes ∖ {["downloading"]} ∖ {["completed"]} ∖ {["error"]};
           textContent := text; disabled := off |} = Idle.
Proof. unfold phase. cbn. rewrite !bool_decide_eq_false_2 by set_solver. reflexivity. Qed.

(** What [setDownloadButtonState] leaves on the button it selects. *)
Lemma setDownloadButtonState_button fileType state m b :
  button fileType m = Some b ->
  exists b', button fileType (setDownloadButtonState fileType state m) = Some b'
    /\ phase b' = (if String.eqb state "downloading" then InFlight
                   else if String.eqb state "completed" then Completed
                   else if String.eqb state "error" then Error
                   else Idle)
    /\ disabled b' = String.eqb state "downloading".
Proof.
  intros Hb. unfold setDownloadButtonState. rewrite Hb.
  destruct (String.eqb state "downloading");
    [|destruct (String.eqb state "completed");
      [|destruct (String.eqb state "error")]].
  - rewrite button_on_button. eexists. split; [reflexivity|].
    split; [apply phase_downloading | reflexivity].
  - change (button fileType (on_timeouts ?f ?x)) with (button fileType x).
    rewrite button_on_button. eexists. split; [reflexivity|].
    split; [apply phase_completed | reflexivity].
  - change (button fileType (on_timeouts ?f ?x)) with (button fileType x).
    rewrite button_on_button. eexists. split; [reflexivity|].
    split; [apply phase_error | reflexivity].
  - rewrite button_on_button. eexists. split; [reflexivity|].
    split; [apply phase_normal | reflexivity].
Qed.

(** [showMessage] and [showError] touch no button. *)
Lemma showError_button fileType msg m :
  button fileType (showError msg m) = button fileType m.
Proof.
  unfold showError, showMessage, uncaught.
  destruct (downloadMessage m), (downloadSection m); reflexivity.
Qed.

Lemma queued_last {A} (q : list A) x : x ∈ q ++ [x].
Proof. set_solver. Qed.

Lemma queued_still {A} (q : list A) x y : x ∈ q -> x ∈ q ++ [y].
Proof. set_solver. Qed.

Lemma showMessage_timeouts msg type m m' x :
  showMessage msg type m = Some m' -> x ∈ timeouts m -> x ∈ timeouts m'.
Proof.
  unfold showMessage. intros Hshow Hx.
  assert (m' = on_timeouts (fun q => q ++ [(5000%nat, HideMessage)])
                 (on_downloadMessage (fun _ => Some
                    {| className := "download-message " +:+ type;
                       notice := msg; shown := DBlock |}) m)) as ->
    by (destruct (downloadMessage m), (downloadSection m); congruence).
  apply (queued_still (timeouts m)), Hx.
Qed.

Lemma showMessage_button fileType msg type m m' :
  showMessage msg type m = Some m' -> button fileType m' = button fileType m.
Proof.
  unfold showMessage. intros Hshow.
  destruct (downloadMessage m), (downloadSection m); inversion Hshow; reflexivity.
Qed.

Lemma showError_timeouts msg m x :
  x ∈ timeouts m -> x ∈ timeouts (showError msg m).
Proof.
  unfold showError, uncaught. intros Hx.
  destruct (showMessage msg "error" m) as [m'|] eqn:Hshow; [|exact Hx].
  exact (showMessage_timeouts _ _ _ _ _ Hshow Hx).
Qed.

Lemma timeouts_on_button fileType f m :
  timeouts (on_button fileType f m) = timeouts m.
Proof. unfold on_button. destruct (String.eqb fileType "word"); reflexivity. Qed.

Lemma setDownloadButtonState_revert fileType m b :
  button fileType m = Some b ->
  (3000%nat, ResetButton fileType) ∈ timeouts (setDownloadButtonState fileType "completed" m)
  /\ (5000%nat, ResetButton fileType) ∈ timeouts (setDownloadButtonState fileType "error" m).
Proof.
  intros Hb. unfold setDownloadButtonState. rewrite Hb. cbn [String.eqb Ascii.eqb Bool.eqb].
  split.
  - change ((3000%nat, ResetButton fileType)
              ∈ timeouts (on_button fileType (fun _ => Some
                   {| classList := classList b ∖ {["downloading"]} ∖ {["completed"]} ∖ {["error"]}
                                   ∪ {["completed"]};
                      textContent := LDownloaded fileType; disabled := false |}) m)
                ++ [(3000%nat, ResetButton fileType)]).
    apply queued_last.
  - change ((5000%nat, ResetButton fileType)
              ∈ timeouts (on_button fileType (fun _ => Some
                   {| classList := classList b ∖ {["downloading"]} ∖ {["completed"]} ∖ {["error"]}
                                   ∪ {["error"]};
                      textContent := LFailed fileType; disabled := false |}) m)
                ++ [(5000%nat, ResetButton fileType)]).
    apply queued_last.
Qed.

(** After a download request settles the button shows completed or error,
    enabled, with its revert to normal scheduled after 3000 ms or 5000 ms. *)
Lemma downloadSettled_button now fileType r m b :
  button fileType m = Some b ->
  exists b', button fileType (downloadSettled now fileType r m) = Some b'
    /\ disabled b' = false
    /\ ((phase b' = Completed
         /\ (3000%nat, ResetButton fileType) ∈ timeouts (downloadSettled now fileType r m))
        \/ (phase b' = Error
            /\ (5000%nat, ResetButton fileType) ∈ timeouts (downloadSettled now fileType r m))).
Proof.
  revert m b.
  assert (Herr : forall m b, button fileType m = Some b -> exists b',
            button fileType (showError (DownloadFailed fileType)
                               (setDownloadButtonState fileType "error" m)) = Some b'
            /\ disabled b' = false
            /\ ((phase b' = Completed
                 /\ (3000%nat, ResetButton fileType)
                      ∈ timeouts (showError (DownloadFailed fileType)
                                    (setDownloadButtonState fileType "error" m)))
                \/ (phase b' = Error
                    /\ (5000%nat, ResetButton fileType)
                         ∈ timeouts (showError (DownloadFailed fileType)
                                       (setDownloadButtonState fileType "error" m))))).
  { intros m b Hb.
    destruct (setDownloadButtonState_button fileType "error" m b Hb) as (b' & Hb' & Hph & Hdis).
    exists b'. rewrite showError_button.
    split; [exact Hb'|]. split; [exact Hdis|]. right. split; [exact Hph|].
    apply showError_timeouts, (setDownloadButtonState_revert fileType m b Hb). }
  intros m b Hb.
  destruct r as [| |cd [|]]; cbn [downloadSettled]; try exact (Herr m b Hb).
  set (m1 := setDownloadButtonState fileType "completed"
               (triggerDownload (extractFilename now cd fileType) m)).
  assert (Hb1 : button fileType (triggerDownload (extractFilename now cd fileType) m) = Some b)
    by exact Hb.
  destruct (setDownloadButtonState_button fileType "completed" _ b Hb1) as (b1 & Hb1' & Hph & Hdis).
  fold m1 in Hb1'.
  pose proof (proj1 (setDownloadButtonState_revert fileType _ b Hb1)) as Hin. fold m1 in Hin.
  destruct (showMessage (Downloaded fileType) "success" m1) as [m2|] eqn:Hshow.
  - exists b1. rewrite (showMessage_button fileType _ _ _ _ Hshow).
    split; [exact Hb1'|]. split; [exact Hdis|].
    left. split; [exact Hph | exact (showMessage_timeouts _ _ _ _ _ Hshow Hin)].
  - exact (Herr m1 b1 Hb1').
Qed.

(** C6 (counterexample): a second [downloadFile] for a type whose download
    is under way is not turned away, it sends a second request; and a
    download started while the button still shows completed is cut back to
    normal, with its request out, when the revert of the first one comes
    due. *)
Lemma second_download_not_rejected :
  option_map phase (button "word" downloading) = Some InFlight
  /\ requests downloading = [("word", "/api/download/p1/word")]
  /\ requests (downloadFile "word" downloading)
     = [("word", "/api/download/p1/word"); ("word", "/api/download/p1/word")]
  /\ option_map phase
       (button "word" (run [Download "word"; Settle 0 exampleNow (Ok None true)] (initialized "p1")))
     = Some Completed
  /\ option_map phase
       (button "word" (run [Download "word"; Settle 0 exampleNow (Ok None true); Download "word"]
                         (initialized "p1")))
     = Some InFlight
  /\ option_map phase
       (button "word" (run [Download "word"; Settle 0 exampleNow (Ok None true); Download "word";
                            Timeout 0] (initialized "p1")))
     = Some Idle.
Proof. vm_compute. repeat split. Qed.

(** C6 (amended): for a type whose button is on the page, [downloadFile]
    with a process id puts the button in flight and disables it from whatever
    phase it shows, and sends a request; when the request settles the button
    shows completed or error, enabled, with a revert scheduled after 3000 ms
    or 5000 ms; the revert and [reset] put it back to normal. *)
Theorem download_button_transitions fileType m b :
  button fileType m = Some b ->
  id_truthy (currentProcessId m) = true ->
  (exists b', button fileType (downloadFile fileType m) = Some b'
     /\ phase b' = InFlight /\ disabled b' = true)
  /\ requests (downloadFile fileType m) = requests m ++ [(fileType, downloadUrl fileType m)]
  /\ (forall now r, exists b',
        button fileType (downloadSettled now fileType r m) = Some b'
        /\ disabled b' = false
        /\ ((phase b' = Completed
             /\ (3000%nat, ResetButton fileType) ∈ timeouts (downloadSettled now fileType r m))
            \/ (phase b' = Error
                /\ (5000%nat, ResetButton fileType) ∈ timeouts (downloadSettled now fileType r m))))
  /\ (exists b', button fileType (runCallback (ResetButton fileType) m) = Some b'
        /\ phase b' = Idle /\ disabled b' = false).
Proof.
  intros Hb Hid. split; [|split; [|split]].
  - unfold downloadFile. rewrite Hid. cbn [negb].
    destruct (setDownloadButtonState_button fileType "downloading" m b Hb) as (b' & Hb' & Hph & Hdis).
    exists b'. split; [exact Hb'|]. split; assumption.
  - unfold downloadFile. rewrite Hid. cbn [negb].
    unfold setDownloadButtonState. rewrite Hb. cbn.
    unfold on_button. destruct (String.eqb fileType "word"); reflexivity.
  - intros now r. exact (downloadSettled_button now fileType r m b Hb).
  - cbn [runCallback]. unfold resetDownloadButton.
    destruct (setDownloadButtonState_button fileType "normal" m b Hb) as (b' & Hb' & Hph & Hdis).
    exists b'. split; [exact Hb'|]. split; assumption.
Qed.

(** The second [downloadFile] of the Word file while the first is under
    way. *)
Lemma download_button_transitions_witness :
  requests (downloadFile "word" downloading)
  = requests downloading ++ [("word", downloadUrl "word" downloading)].
Proof.
  refine (proj1 (proj2 (download_button_transitions "word" downloading
                          {| classList := {["downloading"]}; textContent := LDownloading "word";
                             disabled := true |} _ _))).
  - vm_compute. reflexivity.
  - reflexivity.
Defined.

End Buttons.

(** ** download.js: the availability check *)

Section Availability.
Import Download.

Lemma ready_truthy data files k :
  JS.get data "files" = Some files ->
  exists v, ready data k = Some v
    /\ JS.truthy v = JS.truthy files && truthy_read (JS.get files k).
Proof.
  intros Hf. unfold ready. rewrite Hf.
  destruct (JS.truthy files) eqn:Ht.
  - destruct files; try discriminate; cbn; eauto.
  - exists files. rewrite Ht. split; reflexivity.
Qed.

Lemma ready_raw data files k :
  JS.get data "files" = Some files -> ready data k = Some (raw_ready files k).
Proof.
  intros Hf. unfold ready, raw_ready. rewrite Hf.
  destruct (JS.truthy files) eqn:Ht; [|reflexivity].
  destruct files; try discriminate; reflexivity.
Qed.

(** C10 (counterexample): for a body whose [files.word] is 1,
    [wordReady] is the number 1, which is truthy but is not the boolean its
    truthiness is; [pdfReady] is [undefined], not [false]. *)
Lemma wordReady_is_not_a_boolean :
  checkDownloadStatus (Decoded wordOne)
  = Returned {| success := JS.Bool true; wordReady := JS.Num 1;
                pdfReady := JS.Undefined; message := JS.Undefined |}
  /\ JS.Num 1 <> JS.Bool (JS.truthy (JS.Num 1))
  /\ JS.Undefined <> JS.Bool (JS.truthy JS.Undefined).
Proof. repeat split; discriminate. Qed.

(** C10 (amended): [checkDownloadStatus] always returns.  When the request
    or the decoding fails it returns the fixed failure object (so too when
    the body decodes to [null]); for a decoded body it returns as [wordReady]
    and [pdfReady] the values of [data.files && data.files.word] and
    [data.files && data.files.pdf] as they are, [data.files] itself when that
    is falsy and the property otherwise, not made booleans; they are truthy
    exactly when [data.files] and then the property are.  [success] and
    [message] are the body's. *)
Theorem checkDownloadStatus_total r data files :
  JS.get data "files" = Some files ->
  checkDownloadStatus r <> Thrown
  /\ checkDownloadStatus Unreachable = Returned checkFailed
  /\ checkDownloadStatus Undecodable = Returned checkFailed
  /\ checkDownloadStatus (Decoded JS.Null) = Returned checkFailed
  /\ exists status, checkDownloadStatus (Decoded data) = Returned status
       /\ wordReady status = raw_ready files "word"
       /\ pdfReady status = raw_ready files "pdf"
       /\ JS.truthy (wordReady status) = JS.truthy files && truthy_read (JS.get files "word")
       /\ JS.truthy (pdfReady status) = JS.truthy files && truthy_read (JS.get files "pdf")
       /\ JS.get data "success" = Some (success status)
       /\ JS.get data "message" = Some (message status).
Proof.
  intros Hf. split; [|split; [|split; [|split]]]; try reflexivity.
  - unfold checkDownloadStatus. destruct (tryCheck r); discriminate.
  - destruct (ready_truthy data files "word" Hf) as (w & Hw & Htw).
    destruct (ready_truthy data files "pdf" Hf) as (p & Hp & Htp).
    pose proof (ready_raw data files "word" Hf) as Hrw.
    pose proof (ready_raw data files "pdf" Hf) as Hrp.
    assert (exists s msg, JS.get data "success" = Some s /\ JS.get data "message" = Some msg)
      as (s & msg & Hs & Hm).
    { destruct data; cbn in Hf |- *; try discriminate; eauto. }
    exists {| success := s; wordReady := w; pdfReady := p; message := msg |}.
    unfold checkDownloadStatus, tryCheck. rewrite Hs, Hw, Hp, Hm. cbn.
    rewrite Hw in Hrw. rewrite Hp in Hrp. injection Hrw as ->. injection Hrp as ->.
    repeat split; assumption.
Qed.

(** The body whose [files.word] is 1. *)
Lemma checkDownloadStatus_total_witness :
  checkDownloadStatus (Decoded wordOne) <> Thrown
  /\ exists status, checkDownloadStatus (Decoded wordOne) = Returned status
       /\ wordReady status = JS.Num 1
       /\ pdfReady status = JS.Undefined
       /\ JS.truthy (wordReady status) = true
       /\ JS.truthy (pdfReady status) = false.
Proof.
  destruct (checkDownloadStatus_total (Decoded wordOne) wordOne
              (JS.Obj [("word", JS.Num 1)]) eq_refl)
    as (Hnever & _ & _ & _ & status & Hret & Hrawword & Hrawpdf & Hword & Hpdf & _).
  split; [exact Hnever|]. exists status.
  split; [exact Hret|]. repeat split; assumption.
Defined.

End Availability.

(** ** Reset *)

Section Reset.
Import App.

(** Runs the reset on a state given field by field, leaving the sets of
    classes and of timers as they are written. *)
Ltac reset_fields :=
  cbv beta iota zeta delta
    [handleReset resetGenerateButton hideError hideSuccess clearInterval handle_truthy
     set_display remove_class display classList
     on_currentFileId on_selectedFile on_processCheckInterval on_intervals
     on_fileInputValue on_fileInfo on_generateSection on_downloadSection
     on_progressContainer on_generateButtonDisabled on_generateButtonText
     on_generateButton on_errorMessage on_successMessage
     currentFileId processCheckInterval selectedFile intervals nextHandle inFlight
     timeouts uploads generations fileInputValue fileInfo fileNameText fileSizeText generateSection
     generateButton generateButtonDisabled generateButtonText progressContainer
     progressFillWidth progressText downloadSection downloadWord downloadWordHref
     errorMessage errorText successMessage errorReports].

Lemma handleReset_twice s : handleReset (handleReset s) = handleReset s.
Proof.
  destruct s as [fid pci sel live next].
  destruct pci as [[|h]|]; reset_fields; f_equal; try reflexivity; f_equal; set_solver.
Qed.

Lemma handleReset_clears s :
  handles_positive s ->
  currentFileId (handleReset s) = None
  /\ selectedFile (handleReset s) = None
  /\ processCheckInterval (handleReset s) = None.
Proof.
  intros [_ Hh]. destruct s as [fid pci sel live next]. cbn in Hh.
  destruct pci as [[|h]|]; [congruence | |]; repeat split.
Qed.

(** The interval that [processCheckInterval] held is dead after the
    reset. *)
Lemma handleReset_interval_dead s h :
  processCheckInterval s = Some (S h) -> S h ∉ intervals (handleReset s).
Proof.
  destruct s as [fid pci sel live next]. intros Hh. cbv [processCheckInterval] in Hh.
  subst pci. reset_fields. set_solver.
Qed.

Lemma resetDownloadButton_normal fileType m :
  Download.resetDownloadButton fileType m
  = Download.on_button fileType (option_map (Download.normal fileType)) m.
Proof.
  destruct m as [sec w p pid msg reqs tmo sv].
  unfold Download.resetDownloadButton, Download.setDownloadButtonState,
    Download.button, Download.on_button, Download.normal.
  destruct (String.eqb fileType "word") eqn:E; cbn.
  - destruct w; reflexivity.
  - destruct p; reflexivity.
Qed.

Lemma normal_twice fileType b :
  Download.normal fileType (Download.normal fileType b) = Download.normal fileType b.
Proof. unfold Download.normal. cbn. f_equal. set_solver. Qed.

(** [reset()] field by field. *)
Lemma download_reset_fields m :
  Download.reset m
  = {| Download.downloadSection := option_map (fun _ => DNone) (Download.downloadSection m);
       Download.downloadWordBtn := option_map (Download.normal "word") (Download.downloadWordBtn m);
       Download.downloadPdfBtn := option_map (Download.normal "pdf") (Download.downloadPdfBtn m);
       Download.currentProcessId := None;
       Download.downloadMessage := option_map Download.hidden (Download.downloadMessage m);
       Download.requests := Download.requests m;
       Download.timeouts := Download.timeouts m;
       Download.saved := Download.saved m |}.
Proof.
  unfold Download.reset. rewrite !resetDownloadButton_normal.
  destruct m as [sec w p pid msg reqs tmo sv]. reflexivity.
Qed.

Lemma download_reset_twice m : Download.reset (Download.reset m) = Download.reset m.
Proof.
  rewrite !download_reset_fields. cbn.
  destruct m as [[sec|] [w|] [p|] pid [msg|] reqs tmo sv]; cbn;
    rewrite ?normal_twice; reflexivity.
Qed.

Lemma download_reset_idle fileType m b :
  Download.button fileType (Download.reset m) = Some b ->
  Download.phase b = Download.Idle /\ Download.disabled b = false.
Proof.
  rewrite download_reset_fields. unfold Download.button. cbn.
  destruct (String.eqb fileType "word");
    [destruct (Download.downloadWordBtn m) | destruct (Download.downloadPdfBtn m)];
    cbn; intros [= <-]; (split; [apply phase_normal | reflexivity]).
Qed.

Lemma download_reset_absent fileType m :
  Download.button fileType (Download.reset m) = None ->
  Download.button fileType m = None.
Proof.
  rewrite download_reset_fields. unfold Download.button. cbn.
  destruct (String.eqb fileType "word");
    [destruct (Download.downloadWordBtn m) | destruct (Download.downloadPdfBtn m)];
    cbn; congruence.
Qed.

Lemma download_reset_button fileType m :
  Download.button fileType (Download.reset m)
  = option_map (Download.normal fileType) (Download.button fileType m).
Proof.
  rewrite download_reset_fields. unfold Download.button, Download.normal. cbn.
  destruct (String.eqb fileType "word") eqn:E; [|reflexivity].
  apply String.eqb_eq in E. subst fileType. reflexivity.
Qed.

Lemma normal_keeps_unavailable fileType b :
  "unavailable" ∈ Download.classList (Download.normal fileType b)
  <-> "unavailable" ∈ Download.classList b.
Proof. unfold Download.normal. cbn. set_solver. Qed.

(** The reset of [app.js] leaves no interval live. *)
Lemma handleReset_no_interval s :
  handles_positive s -> one_interval s -> intervals (handleReset s) = ∅.
Proof.
  intros Hpos Hone. apply stopped_iff_no_interval.
  - exact (one_interval_step Reset s Hpos Hone).
  - apply handleReset_stops, Hpos.
Qed.

(** C8 (counterexample): the download manager is reset while the Word
    download is under way; the request stays out, and when it settles the
    file is saved and the button shows Completed.  Reset after a failed
    availability check, the PDF button still carries the class
    unavailable. *)
Lemma reset_leaves_download_state :
  Download.requests Download.resetWhileDownloading = [("word", "/api/download/p1/word")]
  /\ Download.saved Download.settledAfterReset = [Download.lit "meeting_minutes_2024-05-06.docx"]
  /\ (exists b, Download.button "word" Download.settledAfterReset = Some b
                /\ Download.phase b = Download.Completed)
  /\ (exists b, Download.button "pdf" Download.resetWhileUnavailable = Some b
                /\ "unavailable" ∈ Download.classList b).
Proof.
  split; [reflexivity|]. split; [reflexivity|]. split.
  - eexists. split; [reflexivity|]. unfold Download.phase. cbn.
    rewrite bool_decide_eq_false_2 by set_solver.
    rewrite bool_decide_eq_true_2 by set_solver. reflexivity.
  - eexists. split; [reflexivity|]. cbn. set_solver.
Qed.

(** C8 (amended): each of the two resets is idempotent.  In every
    reachable state a second [handleReset] changes nothing after the first,
    which leaves no file id, no selected file and no interval live.  A second
    [reset] of the download manager changes nothing after the first, which
    leaves no process id and every download button enabled and out of the
    downloading, completed and error phases; but it keeps the class
    unavailable of a button, the pending timeouts and the downloads that are
    out, and one of these settling afterwards puts its button in the
    completed or the error phase. *)
Theorem reset_idempotent events m fileType :
  handleReset (handleReset (run events loaded)) = handleReset (run events loaded)
  /\ currentFileId (handleReset (run events loaded)) = None
  /\ selectedFile (handleReset (run events loaded)) = None
  /\ processCheckInterval (handleReset (run events loaded)) = None
  /\ intervals (handleReset (run events loaded)) = ∅
  /\ Download.reset (Download.reset m) = Download.reset m
  /\ Download.currentProcessId (Download.reset m) = None
  /\ match Download.button fileType (Download.reset m) with
     | Some b' =>
         Download.phase b' = Download.Idle /\ Download.disabled b' = false
         /\ exists b, Download.button fileType m = Some b
              /\ ("unavailable" ∈ Download.classList b' <-> "unavailable" ∈ Download.classList b)
     | None => Download.button fileType m = None
     end
  /\ Download.requests (Download.reset m) = Download.requests m
  /\ Download.timeouts (Download.reset m) = Download.timeouts m
  /\ (forall k now r url b,
        Download.requests m !! k = Some (fileType, url) ->
        Download.button fileType m = Some b ->
        exists b', Download.button fileType
                     (Download.step (Download.Settle k now r) (Download.reset m)) = Some b'
          /\ (Download.phase b' = Download.Completed \/ Download.phase b' = Download.Error)).
Proof.
  pose proof (handles_positive_run events loaded handles_positive_loaded) as Hpos.
  pose proof (one_interval_run events loaded handles_positive_loaded one_interval_loaded)
    as Hone.
  destruct (handleReset_clears _ Hpos) as (Hid & Hsel & Hpci).
  split; [apply handleReset_twice|].
  split; [exact Hid|]. split; [exact Hsel|]. split; [exact Hpci|].
  split; [exact (handleReset_no_interval _ Hpos Hone)|].
  split; [apply download_reset_twice|].
  split; [rewrite download_reset_fields; reflexivity|].
  split.
  { destruct (Download.button fileType (Download.reset m)) as [b'|] eqn:Hb'.
    - destruct (download_reset_idle fileType m b' Hb') as [Hph Hdis].
      split; [exact Hph|]. split; [exact Hdis|].
      rewrite download_reset_button in Hb'.
      destruct (Download.button fileType m) as [b|]; [|discriminate].
      injection Hb' as <-. exists b. split; [reflexivity|]. apply normal_keeps_unavailable.
    - exact (download_reset_absent fileType m Hb'). }
  split; [rewrite download_reset_fields; reflexivity|].
  split; [rewrite download_reset_fields; reflexivity|].
  intros k now r url b Hk Hb.
  assert (Hreq : Download.requests (Download.reset m) !! k = Some (fileType, url))
    by (rewrite download_reset_fields; exact Hk).
  cbn [Download.step]. rewrite Hreq.
  assert (Hbtn : Download.button fileType
                   (Download.on_requests (delete k) (Download.reset m))
                 = Some (Download.normal fileType b)).
  { change (Download.button fileType (Download.on_requests (delete k) (Download.reset m)))
      with (Download.button fileType (Download.reset m)).
    rewrite download_reset_button, Hb. reflexivity. }
  destruct (downloadSettled_button now fileType r _ _ Hbtn) as (b' & Hb' & _ & Hphase).
  exists b'. split; [exact Hb'|].
  destruct Hphase as [[Hph _]|[Hph _]]; [left | right]; exact Hph.
Qed.

End Reset.

(** ** enhanced-ux.js: notifications *)

Section Notifications.
Import UX.

(** What one [showNotification] schedules: the show transition after 10 ms
    and, unless the kind is error, a dismissal of its id after 5000 ms. *)
Lemma showNotification_schedules now type u :
  timeouts (fst (showNotification now type u))
  = timeouts u ++ [(10%nat, AddShow (nextNode u))]
    ++ (if String.eqb type "error" then [] else [(5000%nat, Hide now)]).
Proof. unfold showNotification. cbn [fst timeouts]. destruct (String.eqb type "error"); reflexivity. Qed.

Lemma showNotification_id now type u : snd (showNotification now type u) = now.
Proof. reflexivity. Qed.

(** A timed dismissal takes the first element carrying the id, whatever
    its kind. *)
Lemma hideNotification_first i e rest u :
  container u = e :: rest -> dataId e = i ->
  container (hideNotification i u) = set_show (node e) false (container u)
  /\ timeouts (hideNotification i u) = timeouts u ++ [(300%nat, Remove (node e) i)].
Proof.
  intros Hc Hi. unfold hideNotification, querySelector. rewrite Hc. cbn [find].
  rewrite Hi, Z.eqb_refl. split; reflexivity.
Qed.

(** C7: the error notification of a failed type check is dismissed by a
    timeout.  The three notifications of one validation share the id read
    from the clock; the dismissals scheduled for the two success ones find the
    error one, which comes first on the page, and remove it with no close
    button, dismiss call or Escape involved, while the success ones stay. *)
Theorem error_notification_removed_by_timeout :
  onPage validated = ["error"; "success"; "success"]
  /\ map snd (timeouts validated) = [AddShow 0; AddShow 1; Hide 1000; AddShow 2; Hide 1000]
  /\ onPage (run timeoutsDue validated) = ["success"; "success"]
  /\ timeouts (run timeoutsDue validated) = []
  /\ notifications (run timeoutsDue validated) = [].
Proof. vm_compute. repeat split. Qed.

End Notifications.

(** ** enhanced-ux.js: the progress manager *)

Section ProgressBar.
Import Progress.

(** [updateProgress] ends one way or the other; what it has written of the
    percentage by then is the same. *)
Lemma updateProgress_ends percentage msg m :
  exists m', (updateProgress percentage msg m = Returned m'
              \/ updateProgress percentage msg m = Threw m')
    /\ currentProgress m' = min100 percentage
    /\ progressFill m' = option_map (assign_width (min100 percentage)) (progressFill m)
    /\ progressContainer m' = progressContainer m
    /\ updateInterval m' = updateInterval m
    /\ intervals m' = intervals m
    /\ nextHandle m' = nextHandle m
    /\ inFlight m' = inFlight m
    /\ hideTimeouts m' = hideTimeouts m.
Proof.
  unfold updateProgress. cbv zeta.
  change (progressText (on_progressFill ?f (on_currentProgress ?g m))) with (progressText m).
  destruct (progressText m); [destruct (message_truthy msg); [destruct (message_printable msg)|]|];
    eexists; (split; [first [left; reflexivity | right; reflexivity]|]); repeat split.
Qed.
















(** The interval of [startProgress] likewise asks for the status on every
    tick, whatever is still out. *)
Lemma progress_tick_dispatches m h processId n :
  h ∈ intervals m ->
  length (inFlight (run (replicate n (Tick h processId)) m)) = (length (inFlight m) + n)%nat.
Proof.
  revert m. induction n as [|n IH]; intros m Hh; cbn [replicate].
  - cbn. lia.
  - change (run (Tick h processId :: replicate n (Tick h processId)) m)
      with (run (replicate n (Tick h processId)) (step (Tick h processId) m)).
    cbn [step]. rewrite bool_decide_eq_true_2 by exact Hh.
    rewrite IH by exact Hh.
    change (inFlight (on_inFlight ?f m)) with (f (inFlight m)). cbv beta.
    rewrite length_app. cbn [length]. lia.
Qed.




End ProgressBar.

(** * Further properties *)

(** ** app.js: the session *)

Section Session.
Import App.

(** X1: in every reachable state at most one polling interval is live, the
    one whose handle [processCheckInterval] holds. *)
Theorem live_interval_is_the_stored_one events h :
  h ∈ intervals (run events loaded) ->
  processCheckInterval (run events loaded) = Some h.
Proof.
  apply (one_interval_run events loaded handles_positive_loaded one_interval_loaded).
Qed.

(** The one interval of the monitoring session. *)
Lemma live_interval_is_the_stored_one_witness :
  processCheckInterval monitoring = Some 1%nat.
Proof.
  apply (live_interval_is_the_stored_one
           [Select transcript; Generate; Uploaded (UploadOk "abc123"); Generated 0 GenerateOk;
            Tick 1%nat] 1%nat).
  vm_compute. set_solver.
Defined.

(** X2: once an outstanding poll has settled with a completed or failed
    status or with a failure, no interval is live: a tick of any handle sends
    nothing more. *)
Theorem no_request_after_loop_ends events k o h :
  (k < length (inFlight (run events loaded)))%nat ->
  keeps_polling o = false ->
  step (Tick h) (step (Settle k o) (run events loaded))
  = step (Settle k o) (run events loaded).
Proof.
  intros Hk Ho.
  assert (Hone : one_interval (step (Settle k o) (run events loaded))).
  { apply one_interval_step.
    - apply handles_positive_run, handles_positive_loaded.
    - apply one_interval_run; [apply handles_positive_loaded | apply one_interval_loaded]. }
  assert (Hpoll : polling (step (Settle k o) (run events loaded)) = false).
  { cbn [step]. destruct (lookup_lt_is_Some_2 _ _ Hk) as [url ->].
    rewrite statusArrived_polling, Ho. apply andb_false_r. }
  generalize dependent (step (Settle k o) (run events loaded)). intros s Hone Hpoll.
  cbn [step]. rewrite bool_decide_eq_false_2; [reflexivity|].
  exact (stopped_loop_has_no_interval s Hone Hpoll h).
Qed.

(** After the completed status of the monitoring session, a tick of its
    interval changes nothing. *)
Lemma no_request_after_loop_ends_witness :
  step (Tick 1%nat) (step (Settle 0 (Body completed100)) monitoring)
  = step (Settle 0 (Body completed100)) monitoring.
Proof.
  apply (no_request_after_loop_ends
           [Select transcript; Generate; Uploaded (UploadOk "abc123"); Generated 0 GenerateOk;
            Tick 1%nat] 0%nat (Body completed100) 1%nat).
  - vm_compute. lia.
  - reflexivity.
Defined.

Lemma startProcessMonitoring_selectedFile s :
  selectedFile (startProcessMonitoring s) = selectedFile s.
Proof.
  unfold startProcessMonitoring.
  destruct (handle_truthy (processCheckInterval s)); [|reflexivity].
  destruct (processCheckInterval s); reflexivity.
Qed.

Lemma selected_checked_step e s : selected_checked s -> selected_checked (step e s).
Proof.
  intros Hs. destruct e as [file| |o|k o| |h|k o| |k]; cbn [step].
  - destruct (turned_away file) eqn:Haway.
    + destruct (processFile_turns_away file s Haway) as [(Hsel & _) _].
      intros f Hf. rewrite Hsel in Hf. exact (Hs f Hf).
    + destruct (processFile_accepts file s Haway) as (Hsel & _).
      intros f Hf. rewrite Hsel in Hf. injection Hf as <-. exact Haway.
  - unfold handleGenerate. destruct (selectedFile s) eqn:E; exact Hs.
  - destruct (uploads s); [exact Hs|]. destruct o; exact Hs.
  - destruct (generations s !! k); [|exact Hs]. destruct o; [exact Hs|].
    intros f. unfold generateArrived. rewrite startProcessMonitoring_selectedFile. apply Hs.
  - intros f. rewrite startProcessMonitoring_selectedFile. apply Hs.
  - destruct (bool_decide _); exact Hs.
  - destruct (inFlight s !! k); [|exact Hs].
    intros f. rewrite statusArrived_selectedFile. apply Hs.
  - intros f Hf. exfalso. revert Hf. destruct s as [fid pci sel live next].
    destruct pci as [[|n]|]; discriminate.
  - destruct (timeouts s !! k) as [[d []]|]; exact Hs.
Qed.

Lemma selected_checked_run events s : selected_checked s -> selected_checked (run events s).
Proof.
  revert s. induction events as [|e events IH]; intros s Hs; [exact Hs|].
  apply IH, selected_checked_step, Hs.
Qed.

(** X3: whatever has happened, the file held for upload has passed the
    type and size checks of [processFile]; the generate button sends one
    upload if a file is held and none otherwise; and a file that
    [processFile] turns away leaves the held one as it is. *)
Theorem upload_only_of_checked_file events rejected :
  turned_away rejected = true ->
  (forall file, selectedFile (run events loaded) = Some file -> turned_away file = false)
  /\ uploads (step Generate (run events loaded))
     = match selectedFile (run events loaded) with
       | Some _ => S (uploads (run events loaded))
       | None => uploads (run events loaded)
       end
  /\ selectedFile (step (Select rejected) (run events loaded))
     = selectedFile (run events loaded).
Proof.
  intros Haway.
  assert (Hs : selected_checked (run events loaded)).
  { apply selected_checked_run. intros f Hf. discriminate. }
  generalize dependent (run events loaded). intros s Hs.
  split; [exact Hs|]. split.
  - cbn [step]. unfold handleGenerate. destruct (selectedFile s); reflexivity.
  - cbn [step]. exact (proj1 (proj1 (processFile_turns_away rejected s Haway))).
Qed.

(** The session that selected the transcript sends it, and keeps it when a
    PDF is selected after it. *)
Lemma upload_only_of_checked_file_witness :
  turned_away transcript = false
  /\ uploads (step Generate selected) = 1%nat
  /\ selectedFile (step (Select {| File.type := "application/pdf"; File.name := "notes.pdf";
                                   File.size := 5120 |}) selected)
     = Some transcript.
Proof.
  destruct (upload_only_of_checked_file [Select transcript]
              {| File.type := "application/pdf"; File.name := "notes.pdf"; File.size := 5120 |}
              eq_refl) as (Hchecked & Hsent & Hkept).
  split; [exact (Hchecked transcript eq_refl)|]. split; [exact Hsent | exact Hkept].
Defined.

Lemma startProcessMonitoring_keeps s :
  currentFileId (startProcessMonitoring s) = currentFileId s
  /\ inFlight (startProcessMonitoring s) = inFlight s
  /\ progressContainer (startProcessMonitoring s) = progressContainer s.
Proof.
  destruct s as [fid pci sel live next]. destruct pci as [[|n]|]; repeat split.
Qed.

Lemma dispatchStatus_inFlight s :
  inFlight (dispatchStatus s)
  = inFlight s ++ ["/api/status/" +:+ interpolate (currentFileId s)].
Proof. reflexivity. Qed.

Lemma started_loop_dispatches s h :
  processCheckInterval (startProcessMonitoring s) = Some h ->
  inFlight (step (Tick h) (startProcessMonitoring s))
  = inFlight s ++ ["/api/status/" +:+ interpolate (currentFileId s)].
Proof.
  intros Hh.
  destruct (startProcessMonitoring_keeps s) as (Hid & Hfl & Hbar).
  rewrite (tick_live h _ (polling_live _ h Hh (startProcessMonitoring_polling s))).
  rewrite dispatchStatus_inFlight, Hfl, Hid. reflexivity.
Qed.

(** An accepted generation starts the loop for the file id the session
    holds then. *)
Lemma generateArrived_ok s h :
  processCheckInterval (generateArrived GenerateOk s) = Some h ->
  polling (generateArrived GenerateOk s) = true
  /\ currentFileId (generateArrived GenerateOk s) = currentFileId s
  /\ display (progressContainer (generateArrived GenerateOk s)) = DBlock
  /\ inFlight (step (Tick h) (generateArrived GenerateOk s))
     = inFlight s ++ ["/api/status/" +:+ interpolate (currentFileId s)].
Proof.
  intros Hh.
  destruct (startProcessMonitoring_keeps (showProgress s)) as (Hid & Hfl & Hbar).
  split; [exact (startProcessMonitoring_polling (showProgress s))|].
  split; [exact Hid|]. split; [exact (f_equal display Hbar)|].
  exact (started_loop_dispatches (showProgress s) h Hh).
Qed.

Lemma handleReset_requests s :
  currentFileId (handleReset s) = None
  /\ inFlight (handleReset s) = inFlight s
  /\ generations (handleReset s) = generations s.
Proof. destruct s as [fid pci sel live next]. destruct pci as [[|n]|]; repeat split. Qed.

(** X4: a reset does not cancel a generation request that is out.  When
    the request is accepted afterwards the progress bar is shown and polling
    starts, for a file id that the reset has cleared: the next tick asks for
    the status of [null]. *)
Theorem generation_accepted_after_reset k s h :
  is_Some (generations s !! k) ->
  processCheckInterval (acceptedAfterReset k s) = Some h ->
  polling (acceptedAfterReset k s) = true
  /\ currentFileId (acceptedAfterReset k s) = None
  /\ display (progressContainer (acceptedAfterReset k s)) = DBlock
  /\ inFlight (step (Tick h) (acceptedAfterReset k s)) = inFlight s ++ ["/api/status/null"].
Proof.
  intros [url Hk]. unfold acceptedAfterReset.
  destruct (handleReset_requests s) as (Hid & Hfl & Hgen).
  change (step Reset s) with (handleReset s).
  generalize dependent (handleReset s). intros s0 Hid Hfl Hgen.
  assert (Hstep : step (Generated k GenerateOk) s0
                  = generateArrived GenerateOk (on_generations (delete k) s0))
    by (cbn [step]; rewrite Hgen, Hk; reflexivity).
  rewrite Hstep. intros Hh.
  destruct (generateArrived_ok (on_generations (delete k) s0) h Hh) as (H1 & H2 & H3 & H4).
  split; [exact H1|]. split; [rewrite H2; exact Hid|]. split; [exact H3|].
  rewrite H4. change (inFlight (on_generations (delete k) s0)) with (inFlight s0).
  change (currentFileId (on_generations (delete k) s0)) with (currentFileId s0).
  rewrite Hfl, Hid. reflexivity.
Qed.

(** The session reset while its generation request is out. *)
Lemma generation_accepted_after_reset_witness :
  polling (acceptedAfterReset 0 generating) = true
  /\ currentFileId (acceptedAfterReset 0 generating) = None
  /\ display (progressContainer (acceptedAfterReset 0 generating)) = DBlock
  /\ inFlight (step (Tick 1%nat) (acceptedAfterReset 0 generating))
     = inFlight generating ++ ["/api/status/null"].
Proof.
  apply (generation_accepted_after_reset 0%nat generating 1%nat).
  - vm_compute. eauto.
  - reflexivity.
Defined.



End Session.

(** ** enhanced-ux.js: notifications with distinct ids *)

Section DistinctIds.
Import UX.

Lemma ux_run_cons e events u : run (e :: events) u = run events (step e u).
Proof. reflexivity. Qed.




Lemma filter_Forall {A} (P : A -> Prop) f (l : list A) :
  Forall P l -> Forall P (List.filter f l).
Proof.
  induction 1 as [|x l Hx Hl IH]; cbn; [constructor|].
  destruct (f x); [constructor; assumption | assumption].
Qed.










End DistinctIds.

(** ** enhanced-ux.js: the file checks *)

Section FileChecks.
Import UX.

(** X7: [validateFileWithFeedback] shows three notifications, one for
    each check and an error one for each check failed, and returns true
    exactly for the files that [processFile] accepts and that are not empty;
    only then does it move the step indicator on. *)
Theorem validation_agrees_with_processFile t1 t2 t3 file u :
  snd (validateFileWithFeedback t1 t2 t3 file u)
  = negb (App.turned_away file) && (App.File.size file >? 0)
  /\ length (container (fst (validateFileWithFeedback t1 t2 t3 file u)))
     = (length (container u) + 3)%nat
  /\ length (errorsOnPage (fst (validateFileWithFeedback t1 t2 t3 file u)))
     = (length (errorsOnPage u) + failedChecks file)%nat
  /\ currentStep (fst (validateFileWithFeedback t1 t2 t3 file u))
     = if snd (validateFileWithFeedback t1 t2 t3 file u) then 2%nat else currentStep u.
Proof.
  unfold validateFileWithFeedback, App.turned_away, failedChecks, errorsOnPage.
  rewrite (Z.gtb_ltb (App.File.size file) (10 * 1024 * 1024)), Z.ltb_antisym.
  destruct (String.eqb (App.File.type file) "text/plain");
    destruct (endsWith (toLowerCase (App.File.name file)) ".txt");
    destruct (App.File.size file <=? 10 * 1024 * 1024);
    destruct (App.File.size file >? 0);
    cbn [fst snd orb andb negb showNotification updateProgress container currentStep nextNode];
    rewrite ?List.filter_app, ?length_app; cbn; (split; [reflexivity|]);
    (split; [lia|]); (split; [lia | reflexivity]).
Qed.

End FileChecks.

(** ** download.js: availability, refusal and the name *)

Section DownloadMore.
Import Download.

Lemma button_word m : button "word" m = downloadWordBtn m.
Proof. reflexivity. Qed.

Lemma button_cases fileType m :
  button fileType m = if String.eqb fileType "word" then downloadWordBtn m else downloadPdfBtn m.
Proof. reflexivity. Qed.

Lemma phase_mark_availability ready b : phase (mark_availability ready b) = phase b.
Proof.
  unfold phase, mark_availability. cbn [classList].
  destruct (negb (JS.truthy ready)).
  - rewrite (bool_decide_ext ("downloading" ∈ classList b ∪ {["unavailable"]})
               ("downloading" ∈ classList b)) by set_solver.
    rewrite (bool_decide_ext ("completed" ∈ classList b ∪ {["unavailable"]})
               ("completed" ∈ classList b)) by set_solver.
    rewrite (bool_decide_ext ("error" ∈ classList b ∪ {["unavailable"]})
               ("error" ∈ classList b)) by set_solver.
    reflexivity.
  - rewrite (bool_decide_ext ("downloading" ∈ classList b ∖ {["unavailable"]})
               ("downloading" ∈ classList b)) by set_solver.
    rewrite (bool_decide_ext ("completed" ∈ classList b ∖ {["unavailable"]})
               ("completed" ∈ classList b)) by set_solver.
    rewrite (bool_decide_ext ("error" ∈ classList b ∖ {["unavailable"]})
               ("error" ∈ classList b)) by set_solver.
    reflexivity.
Qed.

(** X8: the availability update never changes the phase a button shows.
    It disables the button exactly when the file is not reported ready, and
    the button carries the class unavailable exactly then. *)
Theorem availability_keeps_phase fileType status m b :
  button fileType m = Some b ->
  exists b', button fileType (updateDownloadAvailability status m) = Some b'
    /\ phase b' = phase b
    /\ disabled b' = negb (JS.truthy (readiness fileType status))
    /\ ("unavailable" ∈ classList b' <-> JS.truthy (readiness fileType status) = false)
    /\ textContent b' = textContent b.
Proof.
  rewrite !button_cases. unfold readiness, updateDownloadAvailability.
  destruct m as [sec w p pid msg reqs tmo sv].
  destruct (String.eqb fileType "word"); cbn; intros ->; cbn;
    (eexists; split; [reflexivity|]); (split; [apply phase_mark_availability|]);
    (split; [reflexivity|]); (split; [|reflexivity]);
    unfold mark_availability; cbn [classList];
    match goal with |- context [JS.truthy ?v] => destruct (JS.truthy v) end;
    cbn [negb]; set_solver.
Qed.

(** After a failed check the Word button in flight is disabled and marked
    unavailable, and still in flight. *)
Lemma availability_keeps_phase_witness :
  exists b', button "word" (updateDownloadAvailability checkFailed downloading) = Some b'
    /\ phase b' = InFlight
    /\ disabled b' = true.
Proof.
  destruct (availability_keeps_phase "word" checkFailed downloading
              {| classList := {["downloading"]}; textContent := LDownloading "word";
                 disabled := true |})
    as (b' & Hb & Hphase & Hdis & _).
  - vm_compute. reflexivity.
  - exists b'. split; [exact Hb|]. split; [|exact Hdis].
    rewrite Hphase. vm_compute. reflexivity.
Defined.

(** X9: the revert to normal enables a button whatever the availability
    check said: a button marked unavailable keeps the mark and can be clicked
    again once a revert timer or [reset] has run. *)
Theorem revert_enables_unavailable_button fileType m b :
  button fileType m = Some b ->
  "unavailable" ∈ classList b ->
  exists b', button fileType (resetDownloadButton fileType m) = Some b'
    /\ disabled b' = false
    /\ "unavailable" ∈ classList b'
    /\ phase b' = Idle.
Proof.
  intros Hb Hun. rewrite resetDownloadButton_normal, button_on_button, Hb.
  exists (normal fileType b). split; [reflexivity|]. split; [reflexivity|].
  split; [unfold normal; cbn [classList]; set_solver | apply phase_normal].
Qed.

(** The Word button after a failed check, reverted. *)
Lemma revert_enables_unavailable_button_witness :
  exists b', button "word" (resetDownloadButton "word"
                              (updateDownloadAvailability checkFailed (initialized "p1")))
             = Some b'
    /\ disabled b' = false
    /\ "unavailable" ∈ classList b'
    /\ phase b' = Idle.
Proof.
  apply (revert_enables_unavailable_button "word"
           (updateDownloadAvailability checkFailed (initialized "p1"))
           {| classList := {["unavailable"]}; textContent := LMarkup; disabled := true |}).
  - vm_compute. reflexivity.
  - set_solver.
Defined.




Lemma quoted_body_dot q s body :
  quoted_body q s = Some body -> forallb dot body = true.
Proof.
  revert body. induction s as [|c s IH]; cbn; intros body; [discriminate|].
  destruct (Ascii.eqb c q); [intros [= <-]; reflexivity|].
  destruct (dot c) eqn:Hdot; [|discriminate].
  destruct (quoted_body q s) as [b|]; cbn; [|discriminate].
  intros [= <-]. cbn. rewrite Hdot, (IH b eq_refl). reflexivity.
Qed.

Lemma while_in_class class s : forallb class (while class s) = true.
Proof.
  induction s as [|c s IH]; cbn; [reflexivity|].
  destruct (class c) eqn:Hc; cbn; [rewrite Hc, IH|]; reflexivity.
Qed.

Lemma dot_not_newline c : dot c = true -> Ascii.eqb c newline = false.
Proof. unfold dot. destruct (Ascii.eqb c newline); [discriminate | reflexivity]. Qed.

Lemma bare_not_newline c : bare_unit c = true -> Ascii.eqb c newline = false.
Proof.
  unfold bare_unit. destruct (Ascii.eqb c newline); [|reflexivity].
  rewrite orb_true_r. discriminate.
Qed.

Lemma forallb_weaken {A} (f g : A -> bool) l :
  (forall x, f x = true -> g x = true) -> forallb f l = true -> forallb g l = true.
Proof.
  intros Hfg. induction l as [|x l IH]; cbn; [reflexivity|].
  intros H. apply andb_prop in H as [Hx Hl]. rewrite (Hfg x Hx), (IH Hl). reflexivity.
Qed.

Lemma quote_not_newline c : is_quote c = true -> Ascii.eqb c newline = false.
Proof.
  unfold is_quote. intros H. apply orb_prop in H as [H|H];
    apply Ascii.eqb_eq in H; subst c; reflexivity.
Qed.

Lemma group1_no_newline s :
  forallb (fun c => negb (Ascii.eqb c newline)) (group1 s) = true.
Proof.
  assert (Hbare : forallb (fun c => negb (Ascii.eqb c newline)) (while bare_unit s) = true).
  { apply (forallb_weaken bare_unit); [|apply while_in_class].
    intros c Hc. rewrite (bare_not_newline c Hc). reflexivity. }
  unfold group1. destruct s as [|q s]; [reflexivity|].
  destruct (is_quote q) eqn:Hq; [|exact Hbare].
  destruct (quoted_body q s) as [body|] eqn:Hbody; [|exact Hbare].
  cbn [forallb]. rewrite (quote_not_newline q Hq). cbn [negb andb].
  rewrite forallb_app. cbn [forallb]. rewrite (quote_not_newline q Hq). cbn [negb andb].
  rewrite andb_true_r.
  apply (forallb_weaken dot); [|exact (quoted_body_dot q s body Hbody)].
  intros c Hc. rewrite (dot_not_newline c Hc). reflexivity.
Qed.

Lemma match_pattern_group s g : match_pattern s = Some g -> exists r, g = group1 r.
Proof.
  induction s as [|c s IH]; cbn [match_pattern].
  - unfold match_here. cbn. discriminate.
  - destruct (match_here (c :: s)) as [g'|] eqn:Hhere; [|exact IH].
    intros [= <-]. unfold match_here in Hhere.
    destruct (after_prefix (lit "filename") (c :: s)) as [r|]; [|discriminate].
    destruct (past key_unit r) as [|x v]; [discriminate|].
    destruct (Ascii.eqb x "="); [|discriminate].
    injection Hhere as <-. eauto.
Qed.

Lemma strip_quotes_clean_name g :
  forallb (fun c => negb (Ascii.eqb c newline)) g = true ->
  clean_name (strip_quotes g) = true.
Proof.
  unfold clean_name, strip_quotes. induction g as [|c g IH]; cbn; [reflexivity|].
  intros H. apply andb_prop in H as [Hc Hg].
  destruct (is_quote c) eqn:Hq; cbn; [exact (IH Hg)|].
  rewrite Hq, Hc, (IH Hg). reflexivity.
Qed.

(** X11: whatever the header, the name [extractFilename] returns is either
    the generated one or holds no quote and no newline. *)
Theorem extracted_name_is_clean now h fileType :
  extractFilename now (Some h) fileType = defaultFilename now fileType
  \/ clean_name (extractFilename now (Some h) fileType) = true.
Proof.
  unfold extractFilename.
  destruct (includes (lit "filename=") h); [|left; reflexivity].
  destruct (match_pattern h) as [[|c g]|] eqn:Hm; [left; reflexivity| |left; reflexivity].
  right. destruct (match_pattern_group h (c :: g) Hm) as [r Hr].
  apply strip_quotes_clean_name. rewrite Hr. apply group1_no_newline.
Qed.

End DownloadMore.

(** ** enhanced-ux.js: the intervals of the progress manager *)

Section ProgressMore.
Import Progress.

Lemma progress_run_cons op ops m : run (op :: ops) m = run ops (step op m).
Proof. reflexivity. Qed.

Lemma clearInterval_intervals m h :
  h ∈ intervals (clearInterval m) -> h ∈ intervals m.
Proof.
  unfold clearInterval. destruct (updateInterval m) as [[|n]|]; cbn; set_solver.
Qed.

Lemma clearInterval_nextHandle m : nextHandle (clearInterval m) = nextHandle m.
Proof. unfold clearInterval. destruct (updateInterval m) as [[|n]|]; reflexivity. Qed.

Lemma clearInterval_fresh m : handles_fresh m -> handles_fresh (clearInterval m).
Proof.
  intros Hm h Hh. rewrite clearInterval_nextHandle. apply Hm, clearInterval_intervals, Hh.
Qed.

(** A property of the manager that [updateProgress], the clearing of the
    interval, the setting of the hide timeout and the colouring of the bar
    keep is kept by whatever the methods built from them do, whichever way
    they end. *)
Section Kept.
Variable P : Manager -> Prop.
Hypothesis Hupdate : forall percentage msg m,
  P m -> P (settled (updateProgress percentage msg m)).
Hypothesis Hclear : forall m, P m -> P (clearInterval m).
Hypothesis Htimeout : forall m, P m -> P (on_hideTimeouts S m).
Hypothesis Hcolour : forall m, P m ->
  P (on_progressFill (option_map (fun f =>
       {| width := width f; backgroundColor := Some "#ff4444" |})) m).

Lemma completeProgress_kept msg m : P m -> P (settled (completeProgress msg m)).
Proof.
  intros Hm. unfold completeProgress.
  pose proof (Hupdate (Fin 100) msg m Hm) as Hup.
  destruct (updateProgress (Fin 100) msg m) as [m1|m1]; cbn [settled and_then] in *;
    [apply Htimeout, Hclear, Hup | exact Hup].
Qed.

Lemma errorProgress_kept message m : P m -> P (settled (errorProgress message m)).
Proof.
  intros Hm. unfold errorProgress. destruct (JS.printable message); [|exact Hm].
  pose proof (Hupdate (currentProgress m) (Crossed message) m Hm) as Hup.
  destruct (updateProgress (currentProgress m) (Crossed message) m) as [m1|m1];
    cbn [settled and_then] in *; [apply Hcolour, Hclear, Hup | exact Hup].
Qed.

Lemma progressArrived_kept o m : P m -> P (progressArrived o m).
Proof.
  intros Hm. destruct o as [|data text]; cbn [progressArrived];
    [apply errorProgress_kept, Hm|].
  assert (Hcatch : forall x, P x ->
            P (settled (errorProgress (JS.Str "Failed to check progress status") x)))
    by (intros x; apply errorProgress_kept).
  unfold tryProgress.
  destruct (JS.get data "success") as [success|]; [|exact (Hcatch m Hm)].
  destruct (JS.get data "progress") as [progress|]; [|exact (Hcatch m Hm)].
  destruct (JS.get data "status") as [status|]; [|exact (Hcatch m Hm)].
  destruct (JS.get data "message") as [message|]; [|exact (Hcatch m Hm)].
  destruct (JS.truthy success); [|exact Hm].
  destruct (ToNumber text progress) as [n|]; [|exact (Hcatch m Hm)].
  pose proof (Hupdate n (Plain message) m Hm) as Hup.
  destruct (updateProgress n (Plain message) m) as [m1|m1]; cbn [settled and_then] in *;
    [|apply Hcatch, Hup].
  destruct (ge100 n || JS.is_string status "completed").
  - pose proof (completeProgress_kept
                  (Plain (JS.or message (JS.Str "Processing completed!"))) m1 Hup) as Hdone.
    destruct (completeProgress _ m1) as [m2|m2]; cbn [settled] in Hdone;
      [exact Hdone | apply Hcatch, Hdone].
  - destruct (JS.is_string status "error"); [|exact Hup].
    pose proof (errorProgress_kept (JS.or message (JS.Str "Processing failed")) m1 Hup) as Herr.
    destruct (errorProgress _ m1) as [m2|m2]; cbn [settled] in Herr;
      [exact Herr | apply Hcatch, Herr].
Qed.

End Kept.

(** [startProgress] field by field. *)
Lemma startProgress_fields processId m :
  startProgress processId m
  = {| progressContainer := option_map (fun _ => DBlock) (progressContainer m);
       progressFill := option_map (assign_width (Fin 5)) (progressFill m);
       progressText := option_map (fun _ => Said (Plain (JS.Str "Starting AI processing...")))
                         (progressText m);
       currentProgress := Fin 5;
       updateInterval := Some (nextHandle m);
       intervals := intervals m ∪ {[nextHandle m]};
       nextHandle := S (nextHandle m);
       inFlight := inFlight m;
       hideTimeouts := hideTimeouts m |}.
Proof.
  destruct m as [pc pf [pt|] cp ui live next fl ht]; reflexivity.
Qed.

Lemma updateProgress_fresh percentage msg m :
  handles_fresh m -> handles_fresh (settled (updateProgress percentage msg m)).
Proof.
  intros Hm h.
  destruct (updateProgress_ends percentage msg m)
    as (m' & [-> | ->] & _ & _ & _ & _ & Hlive & Hnext & _); cbn [settled];
    rewrite Hlive, Hnext; apply Hm.
Qed.

Lemma startProgress_fresh processId m : handles_fresh m -> handles_fresh (startProgress processId m).
Proof.
  intros Hm h. rewrite startProgress_fields. cbn. intros Hh.
  apply elem_of_union in Hh as [Hh|Hh]; [specialize (Hm h Hh); lia | set_solver].
Qed.

Lemma step_fresh op m : handles_fresh m -> handles_fresh (step op m).
Proof.
  intros Hm.
  assert (Hkeep : forall f : Manager -> Manager,
             (forall x, intervals (f x) = intervals x /\ nextHandle (f x) = nextHandle x) ->
             forall x, handles_fresh x -> handles_fresh (f x)).
  { intros f Hf x Hx h. destruct (Hf x) as [-> ->]. apply Hx. }
  assert (Htimeout : forall x, handles_fresh x -> handles_fresh (on_hideTimeouts S x))
    by (intros x; apply (Hkeep (on_hideTimeouts S)); intros; split; reflexivity).
  assert (Hcolour : forall x, handles_fresh x ->
            handles_fresh (on_progressFill (option_map (fun f =>
              {| width := width f; backgroundColor := Some "#ff4444" |})) x))
    by (intros x; apply (Hkeep (on_progressFill _)); intros; split; reflexivity).
  assert (Hhide : forall x, handles_fresh x -> handles_fresh (hideProgress x)).
  { intros x Hx. unfold hideProgress. apply clearInterval_fresh.
    exact (Hkeep (on_progressContainer _) (fun _ => conj eq_refl eq_refl) x Hx). }
  destruct op; cbn [step].
  - apply startProgress_fresh, Hm.
  - exact Hm.
  - apply Hhide, Hm.
  - apply updateProgress_fresh, Hm.
  - apply (completeProgress_kept handles_fresh updateProgress_fresh clearInterval_fresh
             Htimeout), Hm.
  - apply (errorProgress_kept handles_fresh updateProgress_fresh clearInterval_fresh
             Hcolour), Hm.
  - apply clearInterval_fresh, Hm.
  - unfold reset.
    apply (Hkeep (fun x => on_progressText (option_map (fun _ => Empty))
                   (on_progressFill (option_map (fun _ =>
                      {| width := Some (Fin 0); backgroundColor := Some "#007AFF" |})) x)));
      [intros; split; reflexivity|].
    apply Hhide.
    apply (Hkeep (on_currentProgress (fun _ => Fin 0))); [intros; split; reflexivity|].
    apply clearInterval_fresh, Hm.
  - destruct (bool_decide _); exact Hm.
  - destruct (inFlight m !! k); [|exact Hm].
    apply (progressArrived_kept handles_fresh updateProgress_fresh clearInterval_fresh
             Htimeout Hcolour).
    exact Hm.
  - destruct (hideTimeouts m); [exact Hm|]. apply Hhide. exact Hm.
Qed.

Lemma run_fresh ops m : handles_fresh m -> handles_fresh (run ops m).
Proof.
  revert m. induction ops as [|op ops IH]; intros m Hm; [exact Hm|].
  rewrite progress_run_cons. apply IH, step_fresh, Hm.
Qed.

(** X12: [startProgress] does not stop an interval that is running, and
    [reset] stops only the one started last: an interval live when
    [startProgress] is called again stays live through the following [reset]
    and goes on sending a status request at every tick. *)
Theorem earlier_interval_outlives_reset ops processId h :
  h ∈ intervals (run ops constructed) ->
  h ∈ intervals (reset (startProgress processId (run ops constructed)))
  /\ forall p, inFlight (step (Tick h p) (reset (startProgress processId (run ops constructed))))
               = inFlight (run ops constructed) ++ [p].
Proof.
  intros Hh.
  assert (Hfresh : handles_fresh (run ops constructed)).
  { apply run_fresh. intros x Hx. set_solver. }
  specialize (Hfresh h Hh).
  generalize dependent (run ops constructed). intros m Hh Hlt.
  assert (Hlive : h ∈ intervals (reset (startProgress processId m))).
  { rewrite startProgress_fields.
    destruct m as [pc pf pt cp ui live next fl ht]. cbn in Hh, Hlt.
    unfold reset, hideProgress, clearInterval. cbn.
    destruct next as [|n]; cbn; [lia|]. set_solver by lia. }
  split; [exact Hlive|].
  intros p. cbn [step]. rewrite bool_decide_eq_true_2 by exact Hlive.
  rewrite startProgress_fields.
  destruct m as [pc pf pt cp ui live next fl ht].
  unfold reset, hideProgress, clearInterval. cbn.
  destruct next as [|n]; reflexivity.
Qed.

(** Progress started twice, then reset: the first interval still ticks. *)
Lemma earlier_interval_outlives_reset_witness :
  1%nat ∈ intervals (reset (startProgress "p2" (run [StartProgress "p1"] constructed))).
Proof.
  apply (earlier_interval_outlives_reset [StartProgress "p1"] "p2" 1%nat).
  vm_compute. set_solver.
Defined.

End ProgressMore.

(** ** The error handler of preview.js *)
Section ErrorHandling.
Import Handler.

Lemma pushAll_snoc entries e log :
  pushAll (entries ++ [e]) log = push e (pushAll entries log).
Proof. unfold pushAll. rewrite fold_left_app. reflexivity. Qed.

Lemma kept_bounds n : (kept n <= n)%nat /\ (kept n <= 50)%nat /\ (Nat.min 25 n <= kept n)%nat.
Proof.
  unfold kept. destruct (Nat.ltb_spec n 25) as [Hlt | Hge].
  - lia.
  - pose proof (Nat.mod_upper_bound (n - 25) 26 ltac:(lia)) as Hup.
    pose proof (Nat.Div0.mod_le (n - 25) 26) as Hle. lia.
Qed.

Lemma kept_succ n :
  kept (S n) = if (kept n =? 50)%nat then 25%nat else S (kept n).
Proof.
  unfold kept.
  destruct (Nat.ltb_spec n 25) as [Hlt | Hge].
  - destruct (Nat.ltb_spec (S n) 25) as [Hlt' | Hge'].
    + destruct (Nat.eqb_spec n 50); [lia | reflexivity].
    + assert (n = 24)%nat as -> by lia. reflexivity.
  - destruct (Nat.ltb_spec (S n) 25) as [Hlt' | _]; [lia |].
    replace (S n - 25)%nat with (S (n - 25)) by lia.
    generalize (n - 25)%nat. intros m.
    pose proof (Nat.div_mod_eq m 26) as Hm.
    pose proof (Nat.mod_upper_bound m 26 ltac:(lia)) as Hup.
    pose proof (Nat.div_mod_eq (S m) 26) as HSm.
    pose proof (Nat.mod_upper_bound (S m) 26 ltac:(lia)) as HSup.
    destruct (Nat.eqb_spec (25 + m mod 26) 50) as [Heq | Hne].
    + assert (Hq : (S m mod 26 = 0)%nat).
      { assert (S m = 26 * S (m / 26) + 0)%nat as Hdec by lia.
        rewrite Hdec. rewrite Nat.Div0.add_mod by lia.
        rewrite Nat.mul_comm, Nat.Div0.mod_mul. reflexivity. }
      lia.
    + assert (Hq : (S m mod 26 = S (m mod 26))%nat).
      { assert (S m = S (m mod 26) + (m / 26) * 26)%nat as Hdec by lia.
        rewrite Hdec at 1. rewrite Nat.Div0.mod_add.
        apply Nat.mod_small. lia. }
      lia.
Qed.

Lemma pushAll_kept (entries : list Entry) :
  pushAll entries [] = drop (length entries - kept (length entries)) entries.
Proof.
  induction entries as [| e entries IH] using rev_ind.
  - reflexivity.
  - rewrite pushAll_snoc, IH. clear IH.
    rewrite length_app. cbn [length].
    replace (length entries + 1)%nat with (S (length entries)) by lia.
    rewrite kept_succ.
    pose proof (kept_bounds (length entries)) as (Hle & H50 & _).
    unfold push, slice_last25.
    rewrite length_app, length_drop. cbn [length].
    destruct (Nat.eqb_spec (kept (length entries)) 50) as [Heq | Hne].
    + destruct (Nat.ltb_spec 50 (length entries - (length entries - kept (length entries)) + 1))
        as [_ | Hno]; [| lia].
      rewrite <- drop_app_le by lia.
      rewrite drop_drop. f_equal; lia.
    + destruct (Nat.ltb_spec 50 (length entries - (length entries - kept (length entries)) + 1))
        as [Hyes | _]; [lia |].
      rewrite <- drop_app_le by lia. f_equal; lia.
Qed.

Lemma logAll_errorLog calls h :
  errorLog (logAll calls h) = pushAll (map logged calls) (errorLog h)
  /\ enhancedUX (logAll calls h) = enhancedUX h
  /\ alerts (logAll calls h) = alerts h.
Proof.
  revert h. induction calls as [| c calls IH]; intros h.
  - repeat split.
  - change (logAll (c :: calls) h) with
      (logAll calls {| errorLog := push (logged c) (errorLog h); enhancedUX := enhancedUX h;
                       alerts := alerts h; timeouts := timeouts h |}).
    destruct (IH {| errorLog := push (logged c) (errorLog h); enhancedUX := enhancedUX h;
                    alerts := alerts h; timeouts := timeouts h |}) as (H1 & H2 & H3).
    rewrite H1, H2, H3. repeat split.
Qed.

(** X13 (preview.js, [ErrorHandler.logError]).  Whatever is logged after the
    handler is constructed, the log holds the latest entries in the order of
    the calls: all of them up to 50, then the last 25 to 50 only, the older
    ones being dropped 26 at a time.  So the log never exceeds 50 entries
    and, once 25 errors were logged, never holds fewer than 25. *)
Theorem error_log_keeps_latest (calls : list Call) (ux : option UX.State) :
  let log := errorLog (logAll calls (constructed ux)) in
  log = drop (length calls - kept (length calls)) (map logged calls)
  /\ (length log <= 50)%nat
  /\ (Nat.min 25 (length calls) <= length log)%nat.
Proof.
  cbv zeta.
  destruct (logAll_errorLog calls (constructed ux)) as (Hlog & _ & _).
  rewrite Hlog. cbn [errorLog constructed].
  rewrite pushAll_kept, length_map.
  pose proof (kept_bounds (length calls)) as (Hle & H50 & Hmin).
  split; [reflexivity |].
  rewrite length_drop, length_map. lia.
Qed.

Lemma showNotification_error_page clock u :
  UX.errorsOnPage (fst (UX.showNotification clock "error" u))
  = UX.errorsOnPage u
    ++ [{| UX.node := UX.nextNode u; UX.dataId := clock; UX.kind := "error"; UX.show := false |}].
Proof.
  unfold UX.errorsOnPage, UX.showNotification. cbn [fst UX.container].
  rewrite List.filter_app. reflexivity.
Qed.

Lemma showNotification_error_dismissals clock u :
  List.filter (fun t => match snd t with UX.Hide _ => true | _ => false end)
    (UX.timeouts (fst (UX.showNotification clock "error" u)))
  = List.filter (fun t => match snd t with UX.Hide _ => true | _ => false end) (UX.timeouts u).
Proof.
  unfold UX.showNotification. cbn [fst UX.timeouts].
  change (negb ("error" =? "error")%string) with false. cbv iota.
  rewrite app_nil_r, List.filter_app. cbn [List.filter snd]. apply app_nil_r.
Qed.

Lemma showUserFriendlyError_report clock title message h :
  let h' := fst (showUserFriendlyError clock title message h) in
  reportsMade h' = S (reportsMade h)
  /\ dismissals h' = dismissals h
  /\ errorLog h' = errorLog h
  /\ timeouts h' = timeouts h.
Proof.
  cbv zeta. unfold showUserFriendlyError, reportsMade, dismissals.
  destruct (enhancedUX h) as [u |] eqn:Hux.
  - pose proof (showNotification_error_page clock u) as Hpage.
    pose proof (showNotification_error_dismissals clock u) as Hdis.
    destruct (UX.showNotification clock "error" u) as [u' id].
    cbn [fst enhancedUX alerts errorLog timeouts] in *.
    rewrite Hpage, Hdis, length_app. cbn [length]. repeat split. lia.
  - cbn [fst enhancedUX alerts errorLog timeouts].
    rewrite length_app. cbn [length]. repeat split. lia.
Qed.

Lemma handleNetworkError_report e clock response status url h :
  let h' := handleNetworkError e clock response status url h in
  reportsMade h' = S (reportsMade h)
  /\ dismissals h' = dismissals h
  /\ (exists entry, errorLog h' = push entry (errorLog h)
                    /\ type entry = "Network Error" /\ error entry = text response)
  /\ timeouts h' = timeouts h.
Proof.
  cbv zeta. unfold handleNetworkError.
  destruct (networkReport status) as [title message].
  destruct (showUserFriendlyError_report clock title message h) as (H1 & H2 & H3 & H4).
  cbn [logError]. unfold reportsMade, dismissals in *.
  cbn [enhancedUX alerts errorLog timeouts].
  rewrite H1, H2, H3, H4. repeat split.
  eexists. repeat split.
Qed.

(** X14 (preview.js, [setupNetworkErrorHandling], [handleNetworkError],
    [showUserFriendlyError], [logError]).  The wrapped [fetch] hands its
    caller what the browser's [fetch] gave.  A request answered with a status
    from 200 to 299 leaves the handler as it was; any other is reported to
    the user exactly once (an error notification, or an alert without
    [enhancedUX]), schedules no dismissal of it, and is logged once as a
    Network Error. *)
Theorem failed_fetch_reported_once (e : Env) (clock : Z) (url : string) (r : Settled)
    (h : State) :
  let h' := fst (wrappedFetch e clock url r h) in
  snd (wrappedFetch e clock url r h) = r
  /\ if reported r
     then reportsMade h' = S (reportsMade h)
          /\ dismissals h' = dismissals h
          /\ (exists entry, errorLog h' = push entry (errorLog h)
                            /\ type entry = "Network Error")
     else h' = h.
Proof.
  cbv zeta. destruct r as [response status | failure]; cbn [wrappedFetch reported].
  - destruct (ok status); cbn [negb fst snd].
    + split; reflexivity.
    + split; [reflexivity |].
      destruct (handleNetworkError_report e clock response (Some status) url h)
        as (H1 & H2 & (entry & H3 & H4 & _) & _).
      repeat split; [exact H1 | exact H2 | exists entry; split; assumption].
  - cbn [fst snd]. split; [reflexivity |].
    destruct (handleNetworkError_report e clock failure None url h)
      as (H1 & H2 & (entry & H3 & H4 & _) & _).
    repeat split; [exact H1 | exact H2 | exists entry; split; assumption].
Qed.

Lemma suggestions_three errorMessage operation :
  exists a b c, suggestions (getContextualErrorMessage errorMessage operation) = [a; b; c].
Proof.
  unfold getContextualErrorMessage.
  repeat match goal with
         | |- context [if ?b then _ else _] => destruct b
         end; cbn [suggestions]; eauto.
Qed.

Lemma showDetailedError_with_ux clock errorMessage operation h u :
  enhancedUX h = Some u ->
  showDetailedError clock errorMessage operation h
  = ({| errorLog := errorLog h;
        enhancedUX := Some (fst (UX.showNotification clock "error" u));
        alerts := alerts h;
        timeouts := timeouts h
                    ++ [suggestions (getContextualErrorMessage errorMessage operation)] |},
     Some clock).
Proof. intros Hux. unfold showDetailedError. rewrite Hux. reflexivity. Qed.

(** X15 (preview.js, [showDetailedError], [getContextualErrorMessage]).
    With [enhancedUX] loaded, [showDetailedError] puts one error notification
    on the page at once, and its 2000 ms timeout always adds an information
    notification: every answer of [getContextualErrorMessage] carries three
    suggestions, so the test on their number never fails, whatever the error
    and the operation. *)
Theorem detailed_error_always_suggests (clock later : Z) (errorMessage operation : string)
    (h : State) (u : UX.State) (Hux : enhancedUX h = Some u) :
  let h1 := fst (showDetailedError clock errorMessage operation h) in
  let h2 := suggestionsDue later (length (timeouts h)) h1 in
  snd (showDetailedError clock errorMessage operation h) = Some clock
  /\ option_map UX.onPage (enhancedUX h1) = Some (UX.onPage u ++ ["error"])
  /\ option_map UX.onPage (enhancedUX h2) = Some (UX.onPage u ++ ["error"; "info"])
  /\ timeouts h2 = timeouts h
  /\ errorLog h2 = errorLog h.
Proof.
  cbv zeta. rewrite (showDetailedError_with_ux clock errorMessage operation h u Hux).
  destruct (suggestions_three errorMessage operation) as (a & b & c & Hs).
  rewrite Hs. cbn [fst snd].
  unfold suggestionsDue. cbn [timeouts enhancedUX errorLog alerts].
  rewrite list_lookup_middle by reflexivity.
  rewrite delete_middle, app_nil_r.
  cbn [timeouts enhancedUX errorLog alerts option_map].
  unfold UX.onPage, UX.showNotification. cbn [fst UX.container].
  rewrite !map_app, <- !app_assoc. repeat split.
Qed.

Lemma detailed_error_always_suggests_witness :
  option_map UX.onPage
    (enhancedUX
       (suggestionsDue 3000 0
          (fst (showDetailedError 1000 "File size exceeds the 10MB limit." "upload"
                  (constructed (Some UX.started))))))
  = Some ["error"; "info"].
Proof.
  refine (proj1 (proj2 (proj2
    (detailed_error_always_suggests 1000 3000 "File size exceeds the 10MB limit." "upload"
       (constructed (Some UX.started)) UX.started _)))).
  reflexivity.
Defined.

End ErrorHandling.

(** ** The page script without the notification layer *)
Section SilentErrors.
Import Page.

Lemma showDetailedError_without_ux clock errorMessage operation h :
  Handler.enhancedUX h = None ->
  Handler.showDetailedError clock errorMessage operation h = (h, None).
Proof. intros Hux. unfold Handler.showDetailedError. rewrite Hux. reflexivity. Qed.

Lemma showError_silent clock message op p h :
  errorHandler p = Some h -> Handler.enhancedUX h = None -> op <> "" ->
  showError clock message (Some op) p = p.
Proof.
  intros Hh Hux Hop. unfold showError. rewrite Hh.
  assert (Htruthy : operation_truthy (Some op) = true).
  { cbn [operation_truthy]. destruct (String.eqb_spec op ""); [contradiction | reflexivity]. }
  rewrite Htruthy, showDetailedError_without_ux by exact Hux.
  cbn [fst]. destruct p as [eh a]. cbn [errorHandler app] in *. rewrite Hh. reflexivity.
Qed.

(** X16 (the page script that reports through the error handler:
    [showError], [processFile]; preview.js, [showDetailedError]).  When the
    error handler is loaded and [enhancedUX] is not, an error reported with
    an operation changes nothing: no notification, no alert, no text in the
    error box and no log entry.  So a file that [processFile] turns away is
    turned away without a word.  Reported without an operation, the same
    error raises an alert. *)
Theorem error_with_operation_needs_enhancedUX (clock : Z) (p : State) (h : Handler.State)
    (Hhandler : errorHandler p = Some h) (Hux : Handler.enhancedUX h = None) :
  (forall message op, op <> "" -> showError clock message (Some op) p = p)
  /\ (forall file, App.turned_away file = true -> processFile clock file p = p)
  /\ (forall message,
        option_map Handler.alerts (errorHandler (showError clock message None p))
        = Some (Handler.alerts h ++ [("Error", Handler.Text message)])).
Proof.
  split; [| split].
  - intros message op Hop. exact (showError_silent clock message op p h Hhandler Hux Hop).
  - intros file Haway. unfold processFile. rewrite includes_allowed.
    unfold App.turned_away in Haway.
    destruct (negb (String.eqb (App.File.type file) "text/plain")
              && negb (endsWith (toLowerCase (App.File.name file)) ".txt")).
    + apply (showError_silent clock _ "upload" p h Hhandler Hux). discriminate.
    + cbn [orb] in Haway. change (10 * 1024 * 1024) with App.maxSize in Haway.
      rewrite Haway.
      apply (showError_silent clock _ "upload" p h Hhandler Hux). discriminate.
  - intros message. unfold showError. rewrite Hhandler.
    unfold Handler.showUserFriendlyError. rewrite Hux. reflexivity.
Qed.

Lemma error_with_operation_needs_enhancedUX_witness :
  processFile 1000 UX.notesPdf bare = bare.
Proof.
  refine (proj1 (proj2
    (error_with_operation_needs_enhancedUX 1000 bare (Handler.constructed None) _ _))
    UX.notesPdf _); reflexivity.
Defined.

End SilentErrors.

(** ** The error manager *)
Section Dismissal.
Import ErrorManager.

Lemma manager_run_snoc events e m : run (events ++ [e]) m = step e (run events m).
Proof. unfold run. rewrite fold_left_app. reflexivity. Qed.

Lemma manager_run_cons e events m : run (e :: events) m = run events (step e m).
Proof. reflexivity. Qed.

Lemma error_class_critical type :
  String.eqb ("error-message error-" +:+ type) "error-message error-critical"
  = String.eqb type "critical".
Proof. reflexivity. Qed.

Lemma showError_added message type o m :
  exists el timeouts,
    showError message type o m = added el timeouts m
    /\ node el = nextNode m
    /\ is_critical el = String.eqb type "critical"
    /\ timeouts = (if not_persistent o && negb (String.eqb type "critical")
                   then [(delay o 5000, Dismiss (nextNode m))] else [])
                  ++ [(300, ScrollCheck (nextNode m))].
Proof.
  eexists. eexists. split; [reflexivity |]. split; [reflexivity |].
  split; [| reflexivity]. unfold is_critical. cbn [className].
  apply error_class_critical.
Qed.

(** Whatever is shown, the new message takes the next node, and a
    dismissal is set for it only if it is not critical. *)
Lemma shows_added e m :
  match e with Close _ | Clear | Frame _ | Timeout _ => False | _ => True end ->
  exists el timeouts,
    step e m = added el timeouts m
    /\ node el = nextNode m
    /\ Forall (aims_at (nextNode m) el) timeouts.
Proof.
  intros Hshow.
  assert (Herr : forall message type o,
             exists el timeouts,
               showError message type o m = added el timeouts m
               /\ node el = nextNode m
               /\ Forall (aims_at (nextNode m) el) timeouts).
  { intros message type o.
    destruct (showError_added message type o m) as (el & ts & Heq & Hnode & Hcrit & Hts).
    exists el, ts. split; [exact Heq |]. split; [exact Hnode |].
    subst ts. apply Forall_app. split; [| constructor; [exact I | constructor]].
    destruct (not_persistent o); cbn [andb]; [| constructor].
    destruct (String.eqb type "critical"); cbn [negb]; [constructor |].
    constructor; [| constructor]. split; [reflexivity | exact Hcrit]. }
  destruct e; try contradiction; cbn [step];
    try (unfold showValidationError, showNetworkError, showProcessingError, showUploadError,
           showCriticalError;
         apply Herr).
  eexists. eexists. split; [reflexivity |]. split; [reflexivity |].
  constructor; [| constructor]. split; reflexivity.
Qed.

Lemma well_numbered_added el timeouts m :
  node el = nextNode m ->
  Forall (aims_at (nextNode m) el) timeouts ->
  well_numbered m -> well_numbered (added el timeouts m).
Proof.
  intros Hnode Hts [Hnodes Htimers]. unfold well_numbered, added.
  cbn [container nextNode timers]. split.
  - apply Forall_app. split.
    + eapply List.Forall_impl; [| exact Hnodes]. cbn beta. intros a Ha. lia.
    + constructor; [lia | constructor].
  - apply Forall_app. split.
    + eapply List.Forall_impl; [| exact Htimers]. cbn beta. intros [d c].
      cbn [snd]. destruct c as [n | n]; [| trivial]. intros [Hlt Hspare].
      split; [lia |]. apply Forall_app. split; [exact Hspare |].
      constructor; [| constructor]. intros Heq. lia.
    + eapply List.Forall_impl; [| exact Hts]. cbn beta. intros [d c].
      unfold aims_at. cbn [snd]. destruct c as [n | n]; [| trivial]. intros [Ht Hcrit].
      split; [lia |]. apply Forall_app. split.
      * eapply List.Forall_impl; [| exact Hnodes]. cbn beta. intros a Ha Heq. lia.
      * constructor; [| constructor]. intros _. exact Hcrit.
Qed.

Lemma well_numbered_remove n m : well_numbered m -> well_numbered (remove n m).
Proof.
  intros [Hnodes Htimers]. unfold well_numbered, remove. cbn [container nextNode timers].
  split; [apply filter_Forall; exact Hnodes |].
  eapply List.Forall_impl; [| exact Htimers]. cbn beta. intros [d c]. cbn [snd].
  destruct c as [n' | n']; [| trivial]. intros [Hlt Hspare].
  split; [exact Hlt | apply filter_Forall; exact Hspare].
Qed.

Lemma well_numbered_step e m : well_numbered m -> well_numbered (step e m).
Proof.
  intros Hm.
  destruct e as [message type o | message field | message error | message
                | message size type | message o | message o | | | n | | k | k].
  10: { exact (well_numbered_remove n m Hm). }
  10: { destruct Hm as [_ Htimers]. split; [constructor |].
       cbn [step clearErrors container nextNode timers].
       eapply List.Forall_impl; [| exact Htimers]. cbn beta. intros [d c]. cbn [snd].
       destruct c as [n | n]; [| trivial]. intros [Hlt _].
       split; [exact Hlt | constructor]. }
  10: { cbn [step]. destruct (frames m !! k) as [n |]; exact Hm. }
  10: { cbn [step]. destruct (timers m !! k) as [[d c] |] eqn:Hk; [| exact Hm].
       assert (Hrest : well_numbered
                         {| container := container m; nextNode := nextNode m;
                            revealed := revealed m; frames := frames m;
                            timers := delete k (timers m) |}).
       { destruct Hm as [Hnodes Htimers]. split; [exact Hnodes |].
         cbn [container nextNode timers]. apply Forall_delete. exact Htimers. }
       destruct c as [n | n]; cbn [runCallback]; [| exact Hrest].
       apply well_numbered_remove. exact Hrest. }
  all: match goal with
       | |- well_numbered (step ?e ?m') =>
           destruct (shows_added e m' I) as (el & ts & Heq & Hnode & Hts)
       end;
       rewrite Heq; apply well_numbered_added; assumption.
Qed.

Lemma well_numbered_run events m : well_numbered m -> well_numbered (run events m).
Proof.
  revert m. induction events as [| e events IH]; intros m Hm; [exact Hm |].
  rewrite manager_run_cons. apply IH, well_numbered_step, Hm.
Qed.

Lemma well_numbered_constructed : well_numbered constructed.
Proof. split; constructor. Qed.

Lemma critical_kept_step e m el :
  well_numbered m ->
  match e with Close _ | Clear => false | _ => true end = true ->
  In el (container m) -> is_critical el = true -> In el (container (step e m)).
Proof.
  intros Hm He Hin Hcrit.
  destruct e as [message type o | message field | message error | message
                | message size type | message o | message o | | | n | | k | k];
    try discriminate.
  10: { cbn [step]. destruct (frames m !! k) as [n |]; exact Hin. }
  10: { cbn [step]. destruct (timers m !! k) as [[d c] |] eqn:Hk; [| exact Hin].
       destruct c as [n | n]; cbn [runCallback]; [| exact Hin].
       cbn [remove container]. apply List.filter_In. split; [exact Hin |].
       destruct Hm as [_ Htimers].
       rewrite List.Forall_forall in Htimers.
       assert (Ht : In (d, Dismiss n) (timers m)).
       { apply list_elem_of_In. eapply list_elem_of_lookup_2. exact Hk. }
       destruct (Htimers _ Ht) as [_ Hspare].
       rewrite List.Forall_forall in Hspare.
       destruct (Nat.eqb_spec (node el) n) as [Heq | Hne]; [| reflexivity].
       rewrite (Hspare el Hin Heq) in Hcrit. discriminate. }
  all: match goal with
       | |- In _ (container (step ?e ?m')) =>
           destruct (shows_added e m' I) as (el' & ts & Heq & _ & _)
       end;
       rewrite Heq; cbn [added container]; apply in_or_app; left; exact Hin.
Qed.

Lemma critical_kept_run events m el :
  well_numbered m -> undismissed events = true ->
  In el (container m) -> is_critical el = true -> In el (container (run events m)).
Proof.
  revert m. induction events as [| e events IH]; intros m Hm Hev Hin Hcrit; [exact Hin |].
  cbn [undismissed forallb] in Hev. apply andb_prop in Hev as [He Hev].
  rewrite manager_run_cons. apply IH.
  - apply well_numbered_step, Hm.
  - exact Hev.
  - apply critical_kept_step; assumption.
  - exact Hcrit.
Qed.

(** X17 (the error manager: [showCriticalError], [showError],
    [createErrorElement], [displayError]).  A critical error sets no timeout
    that dismisses it, whatever options it is given, a [persistent] of false
    and a [timeout] included: the only timeout it sets is the scroll check of
    [displayError].  Once shown it is still on the page after any further
    errors, successes, animation frames and timeouts, as long as nobody
    closes it and nothing clears the container. *)
Theorem critical_error_stays (events later : list Event) (message : string) (o : Options)
    (Hlater : undismissed later = true) :
  let m := run events constructed in
  let shown := showCriticalError message o m in
  timers shown = timers m ++ [(300, ScrollCheck (nextNode m))]
  /\ dismissals shown = dismissals m
  /\ exists el, container shown = container m ++ [el]
                /\ is_critical el = true
                /\ In el (container (run later shown)).
Proof.
  cbv zeta. set (m := run events constructed).
  assert (Hm : well_numbered m) by apply well_numbered_run, well_numbered_constructed.
  assert (Htimers : timers (showCriticalError message o m)
                    = timers m ++ [(300, ScrollCheck (nextNode m))]).
  { unfold showCriticalError, showError. cbn [timers].
    rewrite andb_false_r. reflexivity. }
  split; [exact Htimers |]. split.
  - unfold dismissals. rewrite Htimers, List.filter_app. cbn. apply app_nil_r.
  - eexists. split; [reflexivity |]. split; [reflexivity |].
    apply critical_kept_run.
    + exact (well_numbered_step (Critical message o) m Hm).
    + exact Hlater.
    + cbn [showCriticalError showError container]. apply in_or_app. right. left. reflexivity.
    + reflexivity.
Qed.

Lemma critical_error_stays_witness :
  exists el,
    is_critical el = true
    /\ In el
         (container
            (run [Timeout 0; Upload "Upload failed" (Some 5120) (Some "application/pdf");
                  Timeout 0; Frame 0; Timeout 0; Timeout 0]
               (showCriticalError "Out of memory"
                  {| details := None; actions := None; persistent := Some false;
                     timeout := Some 1000 |}
                  (run [Success "Saved" noOptions] constructed)))).
Proof.
  destruct (critical_error_stays [Success "Saved" noOptions]
              [Timeout 0; Upload "Upload failed" (Some 5120) (Some "application/pdf");
               Timeout 0; Frame 0; Timeout 0; Timeout 0]
              "Out of memory"
              {| details := None; actions := None; persistent := Some false;
                 timeout := Some 1000 |} eq_refl)
    as (_ & _ & el & _ & Hcritical & Hin).
  exists el. split; assumption.
Defined.

Lemma filter_fresh n (l : list Element) :
  Forall (fun e => (node e < n)%nat) l ->
  List.filter (fun e => negb (node e =? n)%nat) l = l.
Proof.
  induction 1 as [| e l He Hl IH]; [reflexivity |].
  cbn [List.filter]. destruct (Nat.eqb_spec (node e) n) as [Heq | _]; [lia |].
  cbn [negb]. rewrite IH. reflexivity.
Qed.

(** X18 (the error manager: [showError], [createErrorElement],
    [displayError]).  An error that is neither critical nor persistent sets
    two timeouts: the one that dismisses it, after [options.timeout] or
    5000 ms when that is absent or zero, and the 300 ms scroll check.  When
    the first elapses the error is removed and the container holds what it
    held before the error was shown; the scroll check, whenever it elapses,
    removes nothing. *)
Theorem dismissed_error_leaves_no_trace (events : list Event) (message type : string)
    (o : Options) (Htype : type <> "critical") (Hpersistent : not_persistent o = true) :
  let m := run events constructed in
  let shown := showError message type o m in
  let dismissed := step (Timeout (length (timers m))) shown in
  timers shown = timers m ++ [(delay o 5000, Dismiss (nextNode m));
                              (300, ScrollCheck (nextNode m))]
  /\ container dismissed = container m
  /\ timers dismissed = timers m ++ [(300, ScrollCheck (nextNode m))]
  /\ container (step (Timeout (length (timers m))) dismissed) = container m
  /\ container (step (Timeout (S (length (timers m)))) shown) = container shown.
Proof.
  cbv zeta. set (m := run events constructed).
  assert (Hm : well_numbered m) by apply well_numbered_run, well_numbered_constructed.
  assert (Hnot : String.eqb type "critical" = false).
  { destruct (String.eqb_spec type "critical"); [contradiction | reflexivity]. }
  assert (Hfresh : List.filter (fun e => negb (node e =? nextNode m)%nat) (container m)
                   = container m).
  { apply filter_fresh. exact (proj1 Hm). }
  unfold showError. rewrite Hpersistent, Hnot. cbn [andb negb timers app].
  split; [reflexivity |].
  cbn [step timers]. rewrite list_lookup_middle by reflexivity.
  rewrite delete_middle. cbn [runCallback remove container nextNode timers].
  rewrite List.filter_app. cbn [List.filter node].
  rewrite Nat.eqb_refl. cbn [negb]. rewrite app_nil_r, Hfresh.
  split; [reflexivity |]. split; [reflexivity |]. split.
  - rewrite list_lookup_middle by reflexivity. reflexivity.
  - replace (timers m ++ [(delay o 5000, Dismiss (nextNode m));
                          (300, ScrollCheck (nextNode m))])
      with ((timers m ++ [(delay o 5000, Dismiss (nextNode m))])
            ++ [(300, ScrollCheck (nextNode m))]) by (rewrite <- app_assoc; reflexivity).
    rewrite list_lookup_middle by (rewrite length_app; cbn; lia).
    reflexivity.
Qed.

Lemma dismissed_error_leaves_no_trace_witness :
  container
    (step (Timeout 2)
       (showError "Upload failed" "upload" noOptions
          (run [Critical "Out of memory" noOptions; Success "Saved" noOptions] constructed)))
  = container (run [Critical "Out of memory" noOptions; Success "Saved" noOptions] constructed).
Proof.
  refine (proj1 (proj2
    (dismissed_error_leaves_no_trace
       [Critical "Out of memory" noOptions; Success "Saved" noOptions]
       "Upload failed" "upload" noOptions _ _))).
  - discriminate.
  - reflexivity.
Defined.

End Dismissal.

(** ** Keyboard navigation *)
Section Keyboard.
Import UX.

Lemma hideNotification_currentStep i u : currentStep (hideNotification i u) = currentStep u.
Proof. unfold hideNotification. destruct (querySelector i u); reflexivity. Qed.

Lemma escapePressed_from_currentStep xs u :
  currentStep (fold_left (fun acc x => hideNotification (id x) acc) xs u) = currentStep u.
Proof.
  revert u. induction xs as [| x xs IH]; intros u; [reflexivity |].
  cbn [fold_left]. rewrite IH. apply hideNotification_currentStep.
Qed.

Lemma validate_currentStep t1 t2 t3 file u :
  currentStep (fst (validateFileWithFeedback t1 t2 t3 file u))
  = if passes file then 2%nat else currentStep u.
Proof.
  unfold validateFileWithFeedback, passes.
  destruct (String.eqb (App.File.type file) "text/plain"
            || endsWith (toLowerCase (App.File.name file)) ".txt");
    destruct (App.File.size file <=? 10 * 1024 * 1024);
    destruct (App.File.size file >? 0); reflexivity.
Qed.

Lemma step_currentStep e u :
  currentStep (step e u)
  = match e with
    | Validate _ _ _ file => if passes file then 2%nat else currentStep u
    | _ => currentStep u
    end.
Proof.
  destruct e as [now type | t1 t2 t3 file | i | | k]; cbn [step].
  - reflexivity.
  - apply validate_currentStep.
  - apply hideNotification_currentStep.
  - apply escapePressed_from_currentStep.
  - destruct (timeouts u !! k) as [[d c] |]; [| reflexivity].
    destruct c as [n | i | n i]; cbn [runCallback]; try reflexivity.
    rewrite hideNotification_currentStep. reflexivity.
Qed.

Lemma run_currentStep events u :
  currentStep (run events u) = if validatedOne events then 2%nat else currentStep u.
Proof.
  revert u. induction events as [| e events IH]; intros u; [reflexivity |].
  rewrite ux_run_cons, IH, step_currentStep. cbn [validatedOne existsb].
  destruct e as [now type | t1 t2 t3 file | i | | k]; cbn [orb]; try reflexivity.
  fold (validatedOne events).
  destruct (passes file); cbn [orb]; [| reflexivity].
  destruct (validatedOne events); reflexivity.
Qed.

(** X19 (enhanced-ux.js, [handleEnterKey], [validateFileWithFeedback],
    [updateProgress]).  The Enter key clicks the generate button exactly when
    that button is there and enabled and some file has passed the three
    checks since the page was loaded; before that it clicks the file input.
    The step never goes back: a later file that fails the checks, a
    dismissal or a timeout does not undo it. *)
Theorem enter_generates_only_after_validation (events : list Event) (fileInput : bool)
    (generateButton : option bool) :
  let u := run events started in
  currentStep u = (if validatedOne events then 2%nat else 1%nat)
  /\ (handleEnterKey fileInput generateButton u = ClickGenerate
      <-> validatedOne events = true /\ generateButton = Some false)
  /\ (handleEnterKey fileInput generateButton u = ClickFileInput
      <-> validatedOne events = false /\ fileInput = true).
Proof.
  cbv zeta. pose proof (run_currentStep events started) as Hstep.
  cbn [currentStep started] in Hstep. split; [exact Hstep |].
  unfold handleEnterKey. rewrite Hstep.
  destruct (validatedOne events); cbn [Nat.eqb].
  - split.
    + destruct generateButton as [[|] |]; cbn [negb];
        (split; [intros H; try discriminate H; split; reflexivity
                | intros [_ H]; try discriminate H; reflexivity]).
    + destruct generateButton as [[|] |]; cbn [negb];
        (split; [intros H; discriminate H | intros [H _]; discriminate H]).
  - split.
    + destruct fileInput; (split; [intros H; discriminate H | intros [H _]; discriminate H]).
    + destruct fileInput;
        (split; [intros H; try discriminate H; split; reflexivity
                | intros [_ H]; try discriminate H; reflexivity]).
Qed.

End Keyboard.

(** ** The progress bar between two processes *)
Section ProgressAgain.
Import Progress.

Lemma clearInterval_colour m : colour (clearInterval m) = colour m.
Proof. unfold clearInterval. destruct (updateInterval m) as [[| h] |]; reflexivity. Qed.

Lemma assign_width_colour n f : backgroundColor (assign_width n f) = backgroundColor f.
Proof. destruct n as [| | |q]; try reflexivity. cbn. destruct (Qle_bool 0 q); reflexivity. Qed.

Lemma updateProgress_colour percentage msg m :
  colour (settled (updateProgress percentage msg m)) = colour m.
Proof.
  unfold colour.
  destruct (updateProgress_ends percentage msg m) as (m' & [-> | ->] & _ & Hfill & _);
    cbn [settled]; rewrite Hfill; destruct (progressFill m); cbn;
    try apply assign_width_colour; reflexivity.
Qed.

Lemma hideProgress_colour m : colour (hideProgress m) = colour m.
Proof. unfold hideProgress. rewrite clearInterval_colour. reflexivity. Qed.

Lemma startProgress_colour processId m : colour (startProgress processId m) = colour m.
Proof.
  rewrite startProgress_fields. unfold colour. cbn [progressFill].
  destruct (progressFill m); [apply assign_width_colour | reflexivity].
Qed.

(** The bar is red. *)
Lemma red_updated percentage msg m :
  colour m = Some "#ff4444" ->
  colour (settled (updateProgress percentage msg m)) = Some "#ff4444".
Proof. rewrite updateProgress_colour. trivial. Qed.

Lemma red_cleared m : colour m = Some "#ff4444" -> colour (clearInterval m) = Some "#ff4444".
Proof. rewrite clearInterval_colour. trivial. Qed.

Lemma red_timed m : colour m = Some "#ff4444" -> colour (on_hideTimeouts S m) = Some "#ff4444".
Proof. trivial. Qed.

Lemma red_coloured m :
  colour m = Some "#ff4444" ->
  colour (on_progressFill (option_map (fun f =>
            {| width := width f; backgroundColor := Some "#ff4444" |})) m)
  = Some "#ff4444".
Proof. unfold colour. cbn. destruct (progressFill m); [reflexivity | discriminate]. Qed.

Lemma step_red op m :
  match op with ResetProgress => false | _ => true end = true ->
  colour m = Some "#ff4444" -> colour (step op m) = Some "#ff4444".
Proof.
  intros Hop Hred. destruct op; try discriminate Hop; cbn [step].
  - rewrite startProgress_colour. exact Hred.
  - exact Hred.
  - rewrite hideProgress_colour. exact Hred.
  - apply red_updated, Hred.
  - apply (completeProgress_kept (fun x => colour x = Some "#ff4444")
             red_updated red_cleared red_timed), Hred.
  - apply (errorProgress_kept (fun x => colour x = Some "#ff4444")
             red_updated red_cleared red_coloured), Hred.
  - rewrite clearInterval_colour. exact Hred.
  - destruct (bool_decide (h ∈ intervals m)); exact Hred.
  - destruct (inFlight m !! k); [| exact Hred].
    apply (progressArrived_kept (fun x => colour x = Some "#ff4444")
             red_updated red_cleared red_timed red_coloured).
    exact Hred.
  - destruct (hideTimeouts m); [exact Hred |]. rewrite hideProgress_colour. exact Hred.
Qed.

(** X20 (enhanced-ux.js, [ProgressManager]: [errorProgress],
    [startProgress], [completeProgress], [reset]).  Only [reset] takes the
    error colour off the bar: once a failure has coloured it, it keeps that
    colour through every later call and event of the manager, a new
    [startProgress] and a completed process included, until [reset] is
    called. *)
Theorem error_colour_stays_until_reset (ops : list Op) (m : Manager)
    (Hops : unreset ops = true) (Hred : colour m = Some "#ff4444") :
  colour (run ops m) = Some "#ff4444".
Proof.
  revert m Hred. induction ops as [| op ops IH]; intros m Hred; [exact Hred |].
  cbn [unreset forallb] in Hops. apply andb_prop in Hops as [Hop Hops].
  rewrite progress_run_cons. apply (IH Hops). apply step_red; assumption.
Qed.

Lemma error_colour_stays_until_reset_witness :
  colour (run [StartProgress "p2"; Tick 2 "p2"; Arrive 0 (Got completedBody (Fin 0))] failedOnce)
  = Some "#ff4444".
Proof.
  apply (error_colour_stays_until_reset
           [StartProgress "p2"; Tick 2 "p2"; Arrive 0 (Got completedBody (Fin 0))] failedOnce);
    reflexivity.
Defined.

Lemma hide_after_start processId m ht next :
  hideTimeouts m = S ht -> nextHandle m = S next ->
  step HideDue (startProgress processId m)
  = {| progressContainer := option_map (fun _ => DNone)
                              (option_map (fun _ => DBlock) (progressContainer m));
       progressFill := option_map (assign_width (Fin 5)) (progressFill m);
       progressText := option_map (fun _ => Said (Plain (JS.Str "Starting AI processing...")))
                         (progressText m);
       currentProgress := Fin 5;
       updateInterval := None;
       intervals := (intervals m ∪ {[S next]}) ∖ {[S next]};
       nextHandle := S (S next);
       inFlight := inFlight m;
       hideTimeouts := ht |}.
Proof.
  rewrite startProgress_fields.
  destruct m as [pc pf pt cp ui live nh fl hts]. cbn [hideTimeouts nextHandle].
  intros -> ->. reflexivity.
Qed.

(** X21 (enhanced-ux.js, [ProgressManager]: [completeProgress],
    [hideProgress], [startProgress]).  The timeout that hides the bar two
    seconds after a process completed does not know of a process started in
    between: when it elapses it hides the bar of the new process and stops
    its interval, so that no tick of it asks for the status any more. *)
Theorem pending_hide_stops_next_progress (m : Manager) (processId : string)
    (Hpending : (0 < hideTimeouts m)%nat) (Hhandle : (0 < nextHandle m)%nat) :
  let started := startProgress processId m in
  let hidden := step HideDue started in
  updateInterval started = Some (nextHandle m)
  /\ nextHandle m ∈ intervals started
  /\ updateInterval hidden = None
  /\ (nextHandle m ∉ intervals hidden)
  /\ progressContainer hidden = option_map (fun _ => DNone) (progressContainer m)
  /\ forall p, step (Tick (nextHandle m) p) hidden = hidden.
Proof.
  cbv zeta.
  destruct (hideTimeouts m) as [| ht] eqn:Hht; [lia |].
  destruct (nextHandle m) as [| next] eqn:Hnext; [lia |].
  rewrite (hide_after_start processId m ht next Hht Hnext).
  assert (Hstarted : intervals (startProgress processId m) = intervals m ∪ {[S next]}).
  { rewrite startProgress_fields. cbn [intervals]. rewrite Hnext. reflexivity. }
  split.
  { rewrite startProgress_fields. cbn [updateInterval]. rewrite Hnext. reflexivity. }
  split; [rewrite Hstarted; apply elem_of_union_r, elem_of_singleton; reflexivity |].
  split; [reflexivity |].
  cbn [intervals progressContainer].
  assert (Hnot : S next ∉ (intervals m ∪ {[S next]}) ∖ {[S next]}).
  { intros Hin. apply elem_of_difference in Hin as [_ Hin]. apply Hin.
    apply elem_of_singleton. reflexivity. }
  split; [exact Hnot |].
  split; [destruct (progressContainer m); reflexivity |].
  intros p. cbn [step intervals]. rewrite bool_decide_eq_false_2 by exact Hnot.
  reflexivity.
Qed.

Lemma pending_hide_stops_next_progress_witness :
  updateInterval (step HideDue (startProgress "p2" completedOnce)) = None.
Proof.
  refine (proj1 (proj2 (proj2 (pending_hide_stops_next_progress completedOnce "p2" _ _))));
    vm_compute; lia.
Defined.

End ProgressAgain.

(** ** The Escape key *)
Section EscapeKey.
Import UX.

Lemma set_show_keys n b l : keys (set_show n b l) = keys l.
Proof.
  unfold keys, set_show. rewrite map_map. apply map_ext. intros e.
  destruct (node e =? n)%nat; reflexivity.
Qed.

Lemma set_show_ids n b l : map dataId (set_show n b l) = map dataId l.
Proof.
  unfold set_show. rewrite map_map. apply map_ext. intros e.
  destruct (node e =? n)%nat; reflexivity.
Qed.

Lemma find_by_id (l : list Element) n i :
  NoDup (map dataId l) -> In (n, i) (keys l) ->
  exists e, find (fun x => dataId x =? i) l = Some e /\ node e = n.
Proof.
  unfold keys. induction l as [| a l IH]; intros Hnd Hin; [destruct Hin |].
  cbn [map] in Hnd, Hin. apply NoDup_cons in Hnd as [Ha Hnd].
  cbn [find]. destruct Hin as [Heq | Hin].
  - injection Heq as Hn Hi. rewrite Hi, Z.eqb_refl. exists a. split; [reflexivity | exact Hn].
  - destruct (Z.eqb_spec (dataId a) i) as [Hi | _]; [| exact (IH Hnd Hin)].
    exfalso. apply Ha. rewrite Hi. apply list_elem_of_In.
    apply in_map_iff in Hin as (e & He & Hein). injection He as _ He.
    apply in_map_iff. exists e. split; [exact He | exact Hein].
Qed.

Lemma hide_all xs : forall v,
  NoDup (map dataId (container v)) ->
  (forall x, In x xs -> In (element x, id x) (keys (container v))) ->
  let w := fold_left (fun acc x => hideNotification (id x) acc) xs v in
  timeouts w = timeouts v ++ map (fun x => (300%nat, Remove (element x) (id x))) xs
  /\ keys (container w) = keys (container v)
  /\ notifications w = notifications v.
Proof.
  induction xs as [| x xs IH]; intros v Hnd Hxs; cbv zeta.
  - cbn [fold_left map]. rewrite app_nil_r. repeat split.
  - cbn [fold_left map].
    destruct (find_by_id (container v) (element x) (id x) Hnd (Hxs x (or_introl eq_refl)))
      as (e & Hfind & Hnode).
    assert (Hhide : hideNotification (id x) v
                    = {| notifications := notifications v; currentStep := currentStep v;
                         container := set_show (element x) false (container v);
                         nextNode := nextNode v;
                         timeouts := timeouts v ++ [(300%nat, Remove (element x) (id x))] |}).
    { unfold hideNotification, querySelector. rewrite Hfind, Hnode. reflexivity. }
    rewrite Hhide.
    match goal with
    | |- context [fold_left _ xs ?v'] =>
        destruct (IH v') as (Ht & Hk & Hn)
    end.
    + cbn [container]. rewrite set_show_ids. exact Hnd.
    + intros y Hy. cbn [container]. rewrite set_show_keys. apply Hxs. right. exact Hy.
    + rewrite Ht, Hk, Hn. cbn [timeouts container notifications].
      rewrite set_show_keys, <- app_assoc. repeat split.
Qed.

Lemma filter_twice {A} (f g : A -> bool) (l : list A) :
  List.filter f (List.filter g l) = List.filter (fun a => f a && g a) l.
Proof.
  induction l as [| a l IH]; [reflexivity |].
  cbn [List.filter]. destruct (g a); cbn [List.filter].
  - destruct (f a); cbn [andb]; rewrite IH; reflexivity.
  - rewrite andb_false_r. exact IH.
Qed.

Lemma filter_none {A} (f : A -> bool) (l : list A) :
  (forall a, In a l -> f a = false) -> List.filter f l = [].
Proof.
  induction l as [| a l IH]; intros Hf; [reflexivity |].
  cbn [List.filter]. rewrite (Hf a (or_introl eq_refl)).
  apply IH. intros b Hb. apply Hf. right. exact Hb.
Qed.

Lemma remove_all rs : forall v pre,
  timeouts v = pre ++ map (fun p : nat * Z => (300%nat, Remove (fst p) (snd p))) rs ->
  let w := run (replicate (length rs) (Timeout (length pre))) v in
  container w
  = List.filter (fun e => forallb (fun p : nat * Z => negb (node e =? fst p)%nat) rs)
      (container v)
  /\ notifications w
     = List.filter (fun x => forallb (fun p : nat * Z => negb (id x =? snd p)) rs)
         (notifications v)
  /\ timeouts w = pre.
Proof.
  induction rs as [| [n i] rs IH]; intros v pre Ht; cbv zeta.
  - cbn [length replicate run fold_left forallb map] in *.
    rewrite app_nil_r in Ht.
    split; [| split; [| exact Ht]].
    + symmetry. apply forallb_filter_id. apply forallb_forall. reflexivity.
    + symmetry. apply forallb_filter_id. apply forallb_forall. reflexivity.
  - cbn [length replicate map fst snd] in *. rewrite ux_run_cons.
    assert (Hstep : step (Timeout (length pre)) v
                    = {| notifications := List.filter (fun x => negb (id x =? i))
                                            (notifications v);
                         currentStep := currentStep v;
                         container := List.filter (fun e => negb (node e =? n)%nat)
                                        (container v);
                         nextNode := nextNode v;
                         timeouts := pre ++ map (fun p : nat * Z =>
                                                   (300%nat, Remove (fst p) (snd p))) rs |}).
    { cbn [step]. rewrite Ht, list_lookup_middle by reflexivity.
      rewrite delete_middle. reflexivity. }
    rewrite Hstep.
    match goal with
    | |- context [run _ ?v'] => destruct (IH v' pre eq_refl) as (Hc & Hn & Htm)
    end.
    rewrite Hc, Hn, Htm. cbn [container notifications forallb fst snd].
    split; [| split; [| reflexivity]].
    + rewrite filter_twice. apply List.filter_ext. intros e. apply andb_comm.
    + rewrite filter_twice. apply List.filter_ext. intros e. apply andb_comm.
Qed.

(** X22 (enhanced-ux.js, [setupKeyboardNavigation], [hideNotification]).
    On a page whose notifications carry distinct ids, the Escape key
    schedules the removal of every notification, errors included, and
    nothing else; once these 300 ms timeouts have elapsed the container and
    the list of notifications are empty, and the timeouts that were pending
    before are still pending. *)
Theorem escape_clears_the_page (u : State) (Hpaired : paired u) :
  let hidden := escapePressed u in
  let after := run (replicate (length (container u)) (Timeout (length (timeouts u)))) hidden in
  timeouts hidden = timeouts u ++ removals u
  /\ container after = []
  /\ notifications after = []
  /\ timeouts after = timeouts u.
Proof.
  cbv zeta. destruct Hpaired as [Hpair Hnd].
  assert (Hxs : forall x, In x (notifications u) ->
                          In (element x, id x) (keys (container u))).
  { intros x Hx. rewrite <- Hpair.
    apply (in_map (fun x => (element x, id x))). exact Hx. }
  destruct (hide_all (notifications u) u Hnd Hxs) as (Ht & Hk & Hn).
  fold (escapePressed u) in Ht, Hk, Hn.
  assert (Hremovals : timeouts (escapePressed u)
                      = timeouts u
                        ++ map (fun p : nat * Z => (300%nat, Remove (fst p) (snd p)))
                             (keys (container u))).
  { rewrite Ht. f_equal. rewrite <- Hpair, !map_map. reflexivity. }
  split.
  { rewrite Hremovals. unfold removals, keys. rewrite map_map. reflexivity. }
  destruct (remove_all (keys (container u)) (escapePressed u) (timeouts u) Hremovals)
    as (Hc & Hns & Htm).
  assert (Hlen : length (keys (container u)) = length (container u)) by apply length_map.
  rewrite Hlen in Hc, Hns, Htm. rewrite Hc, Hns, Htm.
  split; [| split; [| reflexivity]].
  - apply filter_none. intros e He.
    apply not_true_is_false. intros Hall. rewrite forallb_forall in Hall.
    assert (Hin : In (node e, dataId e) (keys (container u))).
    { rewrite <- Hk. unfold keys. apply (in_map (fun e => (node e, dataId e))). exact He. }
    specialize (Hall _ Hin). cbn [fst] in Hall. rewrite Nat.eqb_refl in Hall. discriminate.
  - rewrite Hn. apply filter_none. intros x Hx.
    apply not_true_is_false. intros Hall. rewrite forallb_forall in Hall.
    specialize (Hall _ (Hxs x Hx)). cbn [snd] in Hall. rewrite Z.eqb_refl in Hall.
    discriminate.
Qed.

Lemma escape_clears_the_page_witness :
  container (run [Timeout 4; Timeout 4; Timeout 4] (escapePressed threeShown)) = [].
Proof.
  refine (proj1 (proj2 (escape_clears_the_page threeShown _))).
  split; [reflexivity |].
  apply (bool_decide_unpack _). vm_compute. exact I.
Defined.

End EscapeKey.

(** ** The preview *)
Section PreviewRendering.
Import Preview.

Lemma print_went v : went (print v) = JS.printable v.
Proof. unfold print. destruct (JS.printable v); reflexivity. Qed.

Lemma print_all_went items : went (print_all items) = forallb JS.printable items.
Proof.
  induction items as [| item items IH]; [reflexivity |].
  cbn [print_all forallb]. rewrite <- IH, <- print_went.
  destruct (print item), (print_all items); reflexivity.
Qed.

Lemma formatAttendees_went v :
  went (formatAttendees v) = listable v && forallb JS.printable (items_of v).
Proof.
  unfold formatAttendees, listable.
  destruct (negb (JS.truthy v) || length_is_zero v) eqn:Hempty.
  - cbn [orb andb]. destruct v as [| | b | n | s | items | fields]; try reflexivity.
    destruct items; [reflexivity | discriminate].
  - destruct v as [| | b | n | s | items | fields]; try reflexivity.
    cbn [orb andb items_of]. rewrite <- print_all_went.
    destruct (print_all items); reflexivity.
Qed.

(** The three format functions that take a text or a list. *)
Lemma lenient_went (none : string) (one : JS.value -> Block) (many : list JS.value -> Block) v :
  went (if negb (JS.truthy v) then Some (Paragraph none)
        else match v with
             | JS.Str _ => Some (one v)
             | JS.Arr items => option_map many (print_all items)
             | _ => Some (Paragraph none)
             end)
  = forallb JS.printable (items_of v).
Proof.
  destruct v as [| | b | n | s | items | fields]; cbn [JS.truthy negb items_of forallb];
    try reflexivity.
  - destruct b; reflexivity.
  - destruct (n =? 0); reflexivity.
  - destruct (String.eqb s ""); reflexivity.
  - rewrite <- print_all_went. destruct (print_all items); reflexivity.
Qed.

Lemma actionRow_went item :
  went (actionRow item)
  = match item with JS.Undefined | JS.Null => false | _ => true end
    && forallb JS.printable (row_values item).
Proof.
  unfold actionRow, row_values, field.
  destruct item as [| | b | n | s | items | fields]; try reflexivity;
    cbn [JS.get forallb andb]; rewrite <- !print_went;
    repeat match goal with
           | |- context [print ?v] => destruct (print v)
           end; reflexivity.
Qed.

Lemma actionRows_went items :
  went (actionRows items)
  = items_present (JS.Arr items) && forallb JS.printable (concat (map row_values items)).
Proof.
  cbn [items_present]. induction items as [| item items IH]; [reflexivity |].
  cbn [actionRows forallb map concat]. rewrite forallb_app.
  assert (Hstep : went (match actionRow item, actionRows items with
                        | Some row, Some rows => Some (row :: rows)
                        | _, _ => None
                        end)
                  = went (actionRow item) && went (actionRows items)).
  { destruct (actionRow item), (actionRows items); reflexivity. }
  rewrite Hstep, IH, actionRow_went.
  generalize (match item with JS.Undefined | JS.Null => false | _ => true end).
  generalize (forallb JS.printable (row_values item)).
  generalize (forallb (fun item => match item with
                                   | JS.Undefined | JS.Null => false
                                   | _ => true
                                   end) items).
  generalize (forallb JS.printable (concat (map row_values items))).
  intros a b c d. btauto.
Qed.

Lemma formatActionItems_went v :
  went (formatActionItems v)
  = listable v && items_present v
    && forallb JS.printable (concat (map row_values (items_of v))).
Proof.
  unfold formatActionItems, listable.
  destruct (negb (JS.truthy v) || length_is_zero v) eqn:Hempty.
  - cbn [orb andb]. destruct v as [| | b | n | s | items | fields]; try reflexivity.
    destruct items; [reflexivity | discriminate].
  - destruct v as [| | b | n | s | items | fields]; try reflexivity.
    cbn [orb andb items_of]. rewrite <- actionRows_went.
    destruct (actionRows items); reflexivity.
Qed.

(** X23 (preview.js, [generatePreviewHTML], [formatAttendees],
    [formatActionItems], [formatAgenda], [formatDiscussion],
    [formatDecisions]).  Building the preview throws exactly when the content
    is [null] or missing, when [attendees] or [action_items] is neither
    falsy nor an array nor of length zero, when an action item is [null], or
    when one of the values it prints has no string: the title, a date, a
    time or a name, an attendee, an agenda item, a discussion point, a
    decision, or the task, assignee or due date of an action item.  An
    agenda, discussion or decisions entry that is no list and no text is
    ignored and never makes it throw. *)
Theorem preview_renders_unless_list_malformed (content : JS.value) :
  renders content
  = match content with
    | JS.Undefined | JS.Null => false
    | _ => listable (field content "attendees")
           && listable (field content "action_items")
           && items_present (field content "action_items")
           && forallb JS.printable (printed content)
    end.
Proof.
  assert (Hparts : forall c,
             match c with JS.Undefined | JS.Null => False | _ => True end ->
             renders c
             = went (print (JS.or (field c "meeting_title") (JS.Str "Meeting Minutes")))
               && went (print (JS.or (field c "meeting_date") (JS.Str "N/A")))
               && went (print (JS.or (field c "meeting_time") (JS.Str "N/A")))
               && went (print (JS.or (field c "meeting_location") (JS.Str "N/A")))
               && went (print (JS.or (field c "facilitator") (JS.Str "N/A")))
               && went (formatAttendees (field c "attendees"))
               && went (formatAgenda (field c "agenda_items"))
               && went (formatDiscussion (field c "discussion_points"))
               && went (formatActionItems (field c "action_items"))
               && went (formatDecisions (field c "decisions"))
               && went (print (JS.or (field c "next_meeting_date") (JS.Str "TBD")))
               && went (print (JS.or (field c "next_meeting_time") (JS.Str "TBD")))).
  { intros c Hc. unfold renders, generatePreviewHTML, field.
    destruct c as [| | b | n | s | items | fields]; try contradiction;
      cbv zeta;
      repeat match goal with
             | |- context [mbind _ ?x] =>
                 destruct x; cbn [mbind option_bind went andb]
             end; reflexivity. }
  destruct content as [| | b | n | s | items | fields]; try reflexivity.
  all: rewrite Hparts by exact I.
  all: rewrite !print_went, formatAttendees_went, formatActionItems_went.
  all: unfold formatAgenda, formatDiscussion, formatDecisions; rewrite !lenient_went.
  all: unfold printed; cbn [forallb app]; rewrite !forallb_app.
  all: repeat match goal with
              | |- context [JS.printable ?v] =>
                  let x := fresh "p" in generalize (JS.printable v); intros x
              | |- context [forallb JS.printable ?l] =>
                  let x := fresh "q" in generalize (forallb JS.printable l); intros x
              | |- context [listable ?v] =>
                  let x := fresh "l" in generalize (listable v); intros x
              | |- context [items_present ?v] =>
                  let x := fresh "i" in generalize (items_present v); intros x
              end.
  all: btauto.
Qed.

Lemma showPreviewModal_opens x :
  previewModal (showPreviewModal x) = option_map (fun _ => DBlock) (previewModal x)
  /\ previewError (showPreviewModal x) = previewError x
  /\ hides (showPreviewModal x) = hides x.
Proof.
  unfold showPreviewModal. destruct (previewModal x) eqn:Hmodal;
    cbn [previewModal previewError hides option_map]; rewrite ?Hmodal; repeat split.
Qed.

(** X24 (preview.js, [showPreview], [displayPreview], [showPreviewModal],
    [showError]).  When the preview response is in, one of two things
    happens and never both.  If [success] is truthy and the content can be
    rendered, or the page has no preview element to render into, the modal
    is opened and no error is shown.  Otherwise the modal, the rendered
    preview and the scrolling of the page stay as they were, and an error is
    shown, to be hidden 5000 ms later. *)
Theorem preview_opens_or_reports (o : Outcome) (m : Manager) :
  let m' := previewArrived o m in
  if shown o m
  then previewModal m' = option_map (fun _ => DBlock) (previewModal m)
       /\ previewError m' = previewError m
       /\ hides m' = hides m
  else previewModal m' = previewModal m
       /\ previewContent m' = previewContent m
       /\ bodyOverflow m' = bodyOverflow m
       /\ (exists reason,
             previewError m' = Some {| text := Some reason; display := DBlock |})
       /\ hides m' = S (hides m).
Proof.
  cbv zeta.
  assert (Herr : forall reason,
             previewModal (showError reason m) = previewModal m
             /\ previewContent (showError reason m) = previewContent m
             /\ bodyOverflow (showError reason m) = bodyOverflow m
             /\ (exists r, previewError (showError reason m)
                           = Some {| text := Some r; display := DBlock |})
             /\ hides (showError reason m) = S (hides m)).
  { intros reason. repeat split. exists reason. reflexivity. }
  assert (Hdeclared : forall v,
             let m' := match print v with
                       | Some declared => showError (Declared declared) m
                       | None => showError TypeError m
                       end in
             previewModal m' = previewModal m
             /\ previewContent m' = previewContent m
             /\ bodyOverflow m' = bodyOverflow m
             /\ (exists r, previewError m' = Some {| text := Some r; display := DBlock |})
             /\ hides m' = S (hides m)).
  { intros v. cbv zeta. destruct (print v); apply Herr. }
  destruct o as [message | message | previewData]; cbn [previewArrived shown];
    try apply Herr.
  destruct previewData as [| | b | n | s | items | fields]; cbn [JS.get JS.truthy];
    try apply Herr; try apply Hdeclared.
  destruct (JS.truthy (JS.own "success" fields)); cbn [andb]; [| apply Hdeclared].
  unfold displayPreview, renders.
  destruct (previewContent m) as [rendered |].
  - destruct (generatePreviewHTML (JS.own "content" fields)) as [d |]; [| apply Herr].
    exact (showPreviewModal_opens
             {| previewContent := Some (Some d); previewModal := previewModal m;
                bodyOverflow := bodyOverflow m; previewError := previewError m;
                hides := hides m |}).
  - apply showPreviewModal_opens.
Qed.

(** An agenda item that has no string, and attendees given as a sentence:
    the content is not rendered, the modal stays closed and a [TypeError] is
    reported. *)
Lemma unprintable_agenda_item_is_reported :
  shown (Body agendaWithoutString) constructed = false
  /\ previewModal (previewArrived (Body agendaWithoutString) constructed) = Some DInitial
  /\ previewError (previewArrived (Body agendaWithoutString) constructed)
     = Some {| text := Some TypeError; display := DBlock |}.
Proof. repeat split. Qed.

Lemma attendees_as_text_is_reported :
  shown (Body attendeesAsText) constructed = false
  /\ previewModal (previewArrived (Body attendeesAsText) constructed) = Some DInitial
  /\ previewError (previewArrived (Body attendeesAsText) constructed)
     = Some {| text := Some TypeError; display := DBlock |}.
Proof. repeat split. Qed.

End PreviewRendering.
